(** * GuideAnts chat: the streaming conversation controller

    A shallow embedding of the controller / state / turn-navigation /
    stream-event subsystem of the [guideants-chat] web component
    ([client/src/chat/GuideantsChatController.ts], [GuideantsChatState.ts],
    [GuideantsChatView.ts], [GuideantsChatService.ts], [GuideantsApi.ts]).

    Conventions.
    - JavaScript strings are Rocq [string]s (byte strings); [number]s that
      the code uses as counters, indices and timestamps are [Z].
    - [null] / [undefined] are [None]; JavaScript truthiness of a string is
      [truthy] (the empty string is falsy).
    - The DOM side of the view (rendering, scrolling, buttons) never writes
      the controller state and is left out; events dispatched on the host
      element, service requests, tool-handler invocations and tasks started
      without [await] are recorded, in order, in an effect log.
    - Network answers, the clock and context providers come from an
      environment [Env], indexed by the number of environment interactions
      made so far. *)

From Stdlib Require Import String Ascii List ZArith Lia Bool DecimalString.
From stdpp Require Import gmap strings.
Import ListNotations.

Local Open Scope string_scope.
Local Open Scope list_scope.

(** ** JavaScript string helpers *)

Module Js.

(** [!!s] for a [string | null] value. *)
Definition truthy (o : option string) : bool :=
  match o with
  | Some s => negb (String.eqb s EmptyString)
  | None => false
  end.

(** [a || b] on strings that may be null. *)
Definition or_else (o : option string) (d : string) : string :=
  if truthy o then match o with Some s => s | None => d end else d.

(** [s.startsWith(p)]. *)
Definition startsWith (p s : string) : bool := String.prefix p s.

(** [s.slice(n)] for [0 <= n]. *)
Definition slice (n : nat) (s : string) : string :=
  String.substring n (String.length s - n) s.

(** [`${n}`] for an integer [n]. *)
Definition string_of_Z (n : Z) : string := NilZero.string_of_int (Z.to_int n).

Definition newline : ascii := Ascii.ascii_of_nat 10.

(** White space removed by [String.prototype.trim], on ASCII. *)
Definition is_space (c : ascii) : bool :=
  let n := Ascii.nat_of_ascii c in
  (Nat.eqb n 32 || (Nat.leb 9 n && Nat.leb n 13))%bool.

Fixpoint trimStart (s : string) : string :=
  match s with
  | String c r => if is_space c then trimStart r else s
  | EmptyString => EmptyString
  end.

Fixpoint trimEnd (s : string) : string :=
  match s with
  | String c r =>
      match trimEnd r with
      | EmptyString => if is_space c then EmptyString else String c EmptyString
      | r' => String c r'
      end
  | EmptyString => EmptyString
  end.

Definition trim (s : string) : string := trimEnd (trimStart s).

(** [s.split('\n')]: never empty. *)
Fixpoint split_lines (s : string) : list string :=
  match s with
  | EmptyString => [EmptyString]
  | String c r =>
      if Ascii.eqb c newline then EmptyString :: split_lines r
      else match split_lines r with
           | h :: t => String c h :: t
           | [] => [String c EmptyString]
           end
  end.

(** [xs.join(sep)]. *)
Fixpoint join (sep : string) (xs : list string) : string :=
  match xs with
  | [] => EmptyString
  | [x] => x
  | x :: rest => x ++ sep ++ join sep rest
  end.

End Js.

(** ** Messages and turns ([chat/Types.ts], [GuideantsApi.ts]) *)

Inductive Role := User | Assistant | System | Tool.

Definition Role_eqb (a b : Role) : bool :=
  match a, b with
  | User, User | Assistant, Assistant | System, System | Tool, Tool => true
  | _, _ => false
  end.

Inductive UploadType := ImageFile | ImageUrl | AudioFile | TextFile | SandboxFile.

Record PublishedAttachment := {
  notebookFileId : string;
  uploadType : UploadType;
  fileName : option string
}.

Record Message := {
  id : string;
  role : Role;
  content : string;
  created : string;
  isEdited : bool;
  attachments : option (list PublishedAttachment)
}.

Record Turn := {
  user : option Message;
  assistants : list Message
}.

Definition isUser (m : Message) : bool := Role_eqb (role m) User.
Definition isAssistant (m : Message) : bool := Role_eqb (role m) Assistant.

(** [GuideantsChatState.getTurnCount]. *)
Definition countUser (messages : list Message) : nat :=
  length (List.filter isUser messages).

(** One iteration of the loop of [groupMessagesIntoTurns]; the accumulator
    is [(turns, currentTurn)]. *)
Definition group_step (acc : list Turn * option Turn) (msg : Message)
  : list Turn * option Turn :=
  let '(turns, currentTurn) := acc in
  match role msg with
  | User =>
      (match currentTurn with Some t => turns ++ [t] | None => turns end,
       Some {| user := Some msg; assistants := [] |})
  | Assistant =>
      match currentTurn with
      | Some t => (turns, Some {| user := user t; assistants := assistants t ++ [msg] |})
      | None => acc
      end
  | _ => acc
  end.

(** [GuideantsChatView.groupMessagesIntoTurns]. *)
Definition groupMessagesIntoTurns (messages : list Message) : list Turn :=
  let '(turns, currentTurn) := fold_left group_step messages ([], None) in
  match currentTurn with Some t => turns ++ [t] | None => turns end.

(** The messages of a turn, in order; and of a list of turns. *)
Definition turn_messages (t : Turn) : list Message :=
  match user t with Some u => [u] | None => [] end ++ assistants t.

Definition turns_concat (ts : list Turn) : list Message :=
  flat_map turn_messages ts.

(** What grouping keeps: after the first [User] message, the [User] and
    [Assistant] messages. *)
Fixpoint from_first_user (messages : list Message) : list Message :=
  match messages with
  | [] => []
  | m :: rest => if isUser m then messages else from_first_user rest
  end.

Definition in_turn_role (m : Message) : bool := isUser m || isAssistant m.

(** The spec's reading: the original list without its leading [Assistant]
    messages. *)
Fixpoint spec_drop_leading_assistants (messages : list Message) : list Message :=
  match messages with
  | [] => []
  | m :: rest => if isAssistant m then spec_drop_leading_assistants rest else messages
  end.

(** ** Reading an event stream ([GuideantsApi.streamAssistantMessage],
       [GuideantsChatService.submitToolResults]) *)

Section EventStream.

(** [JSON.parse]: [None] when it throws. [D] is the type of parsed data. *)
Context {D : Type} (JSON_parse : string -> option D).
(** The [onEvent] callback, acting on the state [S] of its owner. *)
Context {S : Type} (onEvent : string -> D -> S -> S).

(** The body of [for (const line of lines)]; the loop state is
    [currentEventType] and the callback's state. *)
Definition sse_line (st : string * S) (line : string) : string * S :=
  let '(currentEventType, sigma) := st in
  if Js.startsWith "event: " line then (Js.slice 7 line, sigma)
  else if Js.startsWith "data: " line then
    match JSON_parse (Js.slice 6 line) with
    | Some parsed =>
        (currentEventType,
         onEvent (if String.eqb currentEventType EmptyString then "data"
                  else currentEventType) parsed sigma)
    | None => st
    end
  else if String.eqb line EmptyString then (EmptyString, sigma)
  else st.

Record Reader := {
  buffer : string;
  currentEventType : string;
  owner : S
}.

(** One iteration of [while (true)] with [done = false]. *)
Definition sse_chunk (r : Reader) (chunk : string) : Reader :=
  let lines := Js.split_lines (buffer r ++ chunk) in
  let '(cur, sigma) :=
    fold_left sse_line (removelast lines) (currentEventType r, owner r) in
  {| buffer := List.last lines EmptyString; currentEventType := cur; owner := sigma |}.

(** The whole read loop, over the chunks the body yields before [done]. *)
Definition sse_read (chunks : list string) (sigma : S) : S :=
  owner (fold_left sse_chunk chunks
           {| buffer := EmptyString; currentEventType := EmptyString; owner := sigma |}).

End EventStream.


(** ** Values exchanged with the Conversation Service and with tool handlers *)

Inductive DisplayMode := Full | LastTurn.

Definition DisplayMode_eqb (a b : DisplayMode) : bool :=
  match a, b with
  | Full, Full | LastTurn, LastTurn => true
  | _, _ => false
  end.

(** [PublishedGuideConfig], the fields the controller reads. *)
Record PublishedGuideConfig := {
  cfg_projectId : string;
  cfg_notebookId : string;
  cfg_guideId : string;
  maxUserMessageLength : option Z;
  maxTurns : option Z;
  cfg_conversationStarters : option (list string);
  cfg_displayMode : option DisplayMode;
  cfg_commandMode : option bool;
  showTurnNavigation : option bool;
  cfg_collapsible : option bool;
  showConversationStarters : option bool;
  showAttachments : option bool
}.

(** A thrown JavaScript value: [err?.message] and [String(err)]. *)
Record Thrown := {
  message : option string;
  toString : string
}.

Inductive JsError :=
| AuthenticationError (errorCode errorMessage : string) (requiresAuth : bool)
| OtherError (t : Thrown).

(** [new Error(msg)]. *)
Definition Error (msg : string) : JsError :=
  OtherError {| message := Some msg;
                toString := if String.eqb msg EmptyString then "Error"
                            else "Error: " ++ msg |}.

(** [err?.message]. *)
Definition err_message (e : JsError) : option string :=
  match e with
  | AuthenticationError _ m _ => Some m
  | OtherError t => message t
  end.

(** [String(err)]. *)
Definition err_toString (e : JsError) : string :=
  match e with
  | AuthenticationError _ m _ =>
      if String.eqb m EmptyString then "AuthenticationError"
      else "AuthenticationError: " ++ m
  | OtherError t => toString t
  end.

(** [arguments?: string | object]: text, or an object (kept as its JSON
    rendering). *)
Inductive ToolArguments := ArgText (s : string) | ArgObject (json : string).

Record ToolFunction := {
  fn_name : option string;
  fn_arguments : option ToolArguments
}.

(** A requested tool call [{ id, function?: { name?, arguments? } }]. *)
Record ToolCall := {
  call_id : string;
  function : option ToolFunction
}.

(** What a handler receives: [{ id, function: { name, arguments } }]. *)
Record HandlerCall := {
  hc_id : string;
  hc_name : string;
  hc_arguments : ToolArguments
}.

Record ToolResult := {
  toolCallId : string;
  name : string;
  result_content : string
}.

(** What awaiting a handler gives: a result or [null], or a rejection. *)
Inductive HandlerOutcome :=
| Resolves (r : option ToolResult)
| Throws (e : JsError).

Definition ToolHandler : Type := HandlerCall -> HandlerOutcome.

(** The [data] of a stream event, the fields the interpreter reads. *)
Record EventData := {
  contentDelta : option string;
  data_content : option string;
  toolCalls : option (list ToolCall);
  data_message : option string
}.

Record StreamEvent := {
  evt_type : string;
  evt_data : EventData
}.

Record PendingAttachment := {
  file_name : string;
  published : PublishedAttachment
}.

Inductive DeleteResult := Deleted | NoneDeleted | Conflict.

(** [detail] of a dispatched [CustomEvent]. *)
Inductive Detail :=
| NoDetail
| DataDetail (d : EventData)
| ErrorDetail (e : JsError)
| AuthErrorDetail (errorCode msg : string) (requiresAuth : bool)
| TurnNavigationDetail (turnIndex totalTurns : Z)
| TurnsHiddenDetail (totalTurns displayedTurnIndex hiddenTurns : Z).

(** Requests to the Conversation Service. *)
Inductive Request :=
| FetchConfig
| FetchAvatarUrl
| StartConversation
| FetchHistory
| DeleteLastTurn
| StreamResponse (instructions : string)
    (atts : option (list PublishedAttachment)) (clientContext : option string)
| SubmitToolResults (results : list ToolResult).

(** What the controller does to the outside, in order. *)
Inductive Effect :=
| Dispatched (type : string) (detail : Detail)
| Requested (r : Request)
| Invoked (toolName : string) (call : HandlerCall)
| Spawned (calls : list ToolCall)
| CalledBack (e : StreamEvent)
| ContextAsked
| AttachmentsAsked.

(** JSON text of a string: [JSON.stringify(s)], on ASCII. *)
Definition hex_digit (n : nat) : ascii :=
  Ascii.ascii_of_nat (if Nat.ltb n 10 then 48 + n else 87 + n).

Definition json_escape_char (c : ascii) : string :=
  let n := Ascii.nat_of_ascii c in
  if Nat.eqb n 34 then String (Ascii.ascii_of_nat 92) (String c EmptyString)
  else if Nat.eqb n 92 then String c (String c EmptyString)
  else if Nat.eqb n 8 then String (Ascii.ascii_of_nat 92) "b"
  else if Nat.eqb n 12 then String (Ascii.ascii_of_nat 92) "f"
  else if Nat.eqb n 10 then String (Ascii.ascii_of_nat 92) "n"
  else if Nat.eqb n 13 then String (Ascii.ascii_of_nat 92) "r"
  else if Nat.eqb n 9 then String (Ascii.ascii_of_nat 92) "t"
  else if Nat.ltb n 32 then
    String (Ascii.ascii_of_nat 92)
      ("u00" ++ String (hex_digit (n / 16)) (String (hex_digit (n mod 16)) EmptyString))
  else String c EmptyString.

Fixpoint json_escape (s : string) : string :=
  match s with
  | EmptyString => EmptyString
  | String c r => json_escape_char c ++ json_escape r
  end.

Definition quote : string := String (Ascii.ascii_of_nat 34) EmptyString.

Definition json_string (s : string) : string := quote ++ json_escape s ++ quote.

(** [JSON.stringify({ error: s })]. *)
Definition json_error_object (s : string) : string :=
  "{" ++ json_string "error" ++ ":" ++ json_string s ++ "}".

(** ** The controller's state

    The fields of [GuideantsChatState], then what the controller holds
    itself and what it reads from the host element and the view. *)

Record State := {
  (* GuideantsChatState: config and identity *)
  pubId : option string;
  conversationId : option string;
  projectId : option string;
  notebookId : option string;
  guideId : option string;
  publishedGuideConfig : option PublishedGuideConfig;
  conversationStarters : list string;
  publishedGuideAvatarUrl : option string;
  conversationContext : option string;
  (* chat data *)
  messages : list Message;
  authError : option (string * string);
  inlineError : option string;
  (* streaming state *)
  isStreaming : bool;
  streamingAssistantMessageId : option string;
  sanitizedMessageContent : option string;
  (* UI flags *)
  displayMode : DisplayMode;
  enableTurnNavigation : bool;
  activeTurnIndex : option Z;
  collapsible : bool;
  isCollapsed : bool;
  commandMode : bool;
  conversationStartersEnabled : bool;
  attachmentsEnabled : bool;
  (* attachment state *)
  pendingAttachments : list PendingAttachment;
  (* GuideantsChatController: the registry; whether the optional callback
     and providers are set *)
  toolRegistry : gmap string ToolHandler;
  streamEventCallback : bool;
  contextProvider : bool;
  attachmentProvider : bool;
  (* the host element: the attributes it has *)
  hostAttributes : gset string;
  (* the view: value of the textarea if it exists; whether the thread
     element exists *)
  inputEl : option string;
  threadEl : bool
}.

(** Field updates [this.state.f = v]. *)

Definition set_conversationId (v : option string) (s : State) : State :=
  {| pubId := pubId s; conversationId := v; projectId := projectId s; notebookId := notebookId s;
     guideId := guideId s; publishedGuideConfig := publishedGuideConfig s;
     conversationStarters := conversationStarters s;
     publishedGuideAvatarUrl := publishedGuideAvatarUrl s;
     conversationContext := conversationContext s; messages := messages s; authError := authError s;
     inlineError := inlineError s; isStreaming := isStreaming s;
     streamingAssistantMessageId := streamingAssistantMessageId s;
     sanitizedMessageContent := sanitizedMessageContent s; displayMode := displayMode s;
     enableTurnNavigation := enableTurnNavigation s; activeTurnIndex := activeTurnIndex s;
     collapsible := collapsible s; isCollapsed := isCollapsed s; commandMode := commandMode s;
     conversationStartersEnabled := conversationStartersEnabled s;
     attachmentsEnabled := attachmentsEnabled s; pendingAttachments := pendingAttachments s;
     toolRegistry := toolRegistry s; streamEventCallback := streamEventCallback s;
     contextProvider := contextProvider s; attachmentProvider := attachmentProvider s;
     hostAttributes := hostAttributes s; inputEl := inputEl s; threadEl := threadEl s |}.

Definition set_projectId (v : option string) (s : State) : State :=
  {| pubId := pubId s; conversationId := conversationId s; projectId := v;
     notebookId := notebookId s; guideId := guideId s;
     publishedGuideConfig := publishedGuideConfig s; conversationStarters := conversationStarters s;
     publishedGuideAvatarUrl := publishedGuideAvatarUrl s;
     conversationContext := conversationContext s; messages := messages s; authError := authError s;
     inlineError := inlineError s; isStreaming := isStreaming s;
     streamingAssistantMessageId := streamingAssistantMessageId s;
     sanitizedMessageContent := sanitizedMessageContent s; displayMode := displayMode s;
     enableTurnNavigation := enableTurnNavigation s; activeTurnIndex := activeTurnIndex s;
     collapsible := collapsible s; isCollapsed := isCollapsed s; commandMode := commandMode s;
     conversationStartersEnabled := conversationStartersEnabled s;
     attachmentsEnabled := attachmentsEnabled s; pendingAttachments := pendingAttachments s;
     toolRegistry := toolRegistry s; streamEventCallback := streamEventCallback s;
     contextProvider := contextProvider s; attachmentProvider := attachmentProvider s;
     hostAttributes := hostAttributes s; inputEl := inputEl s; threadEl := threadEl s |}.

Definition set_notebookId (v : option string) (s : State) : State :=
  {| pubId := pubId s; conversationId := conversationId s; projectId := projectId s;
     notebookId := v; guideId := guideId s; publishedGuideConfig := publishedGuideConfig s;
     conversationStarters := conversationStarters s;
     publishedGuideAvatarUrl := publishedGuideAvatarUrl s;
     conversationContext := conversationContext s; messages := messages s; authError := authError s;
     inlineError := inlineError s; isStreaming := isStreaming s;
     streamingAssistantMessageId := streamingAssistantMessageId s;
     sanitizedMessageContent := sanitizedMessageContent s; displayMode := displayMode s;
     enableTurnNavigation := enableTurnNavigation s; activeTurnIndex := activeTurnIndex s;
     collapsible := collapsible s; isCollapsed := isCollapsed s; commandMode := commandMode s;
     conversationStartersEnabled := conversationStartersEnabled s;
     attachmentsEnabled := attachmentsEnabled s; pendingAttachments := pendingAttachments s;
     toolRegistry := toolRegistry s; streamEventCallback := streamEventCallback s;
     contextProvider := contextProvider s; attachmentProvider := attachmentProvider s;
     hostAttributes := hostAttributes s; inputEl := inputEl s; threadEl := threadEl s |}.

Definition set_guideId (v : option string) (s : State) : State :=
  {| pubId := pubId s; conversationId := conversationId s; projectId := projectId s;
     notebookId := notebookId s; guideId := v; publishedGuideConfig := publishedGuideConfig s;
     conversationStarters := conversationStarters s;
     publishedGuideAvatarUrl := publishedGuideAvatarUrl s;
     conversationContext := conversationContext s; messages := messages s; authError := authError s;
     inlineError := inlineError s; isStreaming := isStreaming s;
     streamingAssistantMessageId := streamingAssistantMessageId s;
     sanitizedMessageContent := sanitizedMessageContent s; displayMode := displayMode s;
     enableTurnNavigation := enableTurnNavigation s; activeTurnIndex := activeTurnIndex s;
     collapsible := collapsible s; isCollapsed := isCollapsed s; commandMode := commandMode s;
     conversationStartersEnabled := conversationStartersEnabled s;
     attachmentsEnabled := attachmentsEnabled s; pendingAttachments := pendingAttachments s;
     toolRegistry := toolRegistry s; streamEventCallback := streamEventCallback s;
     contextProvider := contextProvider s; attachmentProvider := attachmentProvider s;
     hostAttributes := hostAttributes s; inputEl := inputEl s; threadEl := threadEl s |}.

Definition set_publishedGuideConfig (v : option PublishedGuideConfig) (s : State) : State :=
  {| pubId := pubId s; conversationId := conversationId s; projectId := projectId s;
     notebookId := notebookId s; guideId := guideId s; publishedGuideConfig := v;
     conversationStarters := conversationStarters s;
     publishedGuideAvatarUrl := publishedGuideAvatarUrl s;
     conversationContext := conversationContext s; messages := messages s; authError := authError s;
     inlineError := inlineError s; isStreaming := isStreaming s;
     streamingAssistantMessageId := streamingAssistantMessageId s;
     sanitizedMessageContent := sanitizedMessageContent s; displayMode := displayMode s;
     enableTurnNavigation := enableTurnNavigation s; activeTurnIndex := activeTurnIndex s;
     collapsible := collapsible s; isCollapsed := isCollapsed s; commandMode := commandMode s;
     conversationStartersEnabled := conversationStartersEnabled s;
     attachmentsEnabled := attachmentsEnabled s; pendingAttachments := pendingAttachments s;
     toolRegistry := toolRegistry s; streamEventCallback := streamEventCallback s;
     contextProvider := contextProvider s; attachmentProvider := attachmentProvider s;
     hostAttributes := hostAttributes s; inputEl := inputEl s; threadEl := threadEl s |}.

Definition set_conversationStarters (v : list string) (s : State) : State :=
  {| pubId := pubId s; conversationId := conversationId s; projectId := projectId s;
     notebookId := notebookId s; guideId := guideId s;
     publishedGuideConfig := publishedGuideConfig s; conversationStarters := v;
     publishedGuideAvatarUrl := publishedGuideAvatarUrl s;
     conversationContext := conversationContext s; messages := messages s; authError := authError s;
     inlineError := inlineError s; isStreaming := isStreaming s;
     streamingAssistantMessageId := streamingAssistantMessageId s;
     sanitizedMessageContent := sanitizedMessageContent s; displayMode := displayMode s;
     enableTurnNavigation := enableTurnNavigation s; activeTurnIndex := activeTurnIndex s;
     collapsible := collapsible s; isCollapsed := isCollapsed s; commandMode := commandMode s;
     conversationStartersEnabled := conversationStartersEnabled s;
     attachmentsEnabled := attachmentsEnabled s; pendingAttachments := pendingAttachments s;
     toolRegistry := toolRegistry s; streamEventCallback := streamEventCallback s;
     contextProvider := contextProvider s; attachmentProvider := attachmentProvider s;
     hostAttributes := hostAttributes s; inputEl := inputEl s; threadEl := threadEl s |}.

Definition set_publishedGuideAvatarUrl (v : option string) (s : State) : State :=
  {| pubId := pubId s; conversationId := conversationId s; projectId := projectId s;
     notebookId := notebookId s; guideId := guideId s;
     publishedGuideConfig := publishedGuideConfig s; conversationStarters := conversationStarters s;
     publishedGuideAvatarUrl := v; conversationContext := conversationContext s;
     messages := messages s; authError := authError s; inlineError := inlineError s;
     isStreaming := isStreaming s; streamingAssistantMessageId := streamingAssistantMessageId s;
     sanitizedMessageContent := sanitizedMessageContent s; displayMode := displayMode s;
     enableTurnNavigation := enableTurnNavigation s; activeTurnIndex := activeTurnIndex s;
     collapsible := collapsible s; isCollapsed := isCollapsed s; commandMode := commandMode s;
     conversationStartersEnabled := conversationStartersEnabled s;
     attachmentsEnabled := attachmentsEnabled s; pendingAttachments := pendingAttachments s;
     toolRegistry := toolRegistry s; streamEventCallback := streamEventCallback s;
     contextProvider := contextProvider s; attachmentProvider := attachmentProvider s;
     hostAttributes := hostAttributes s; inputEl := inputEl s; threadEl := threadEl s |}.

Definition set_conversationContext (v : option string) (s : State) : State :=
  {| pubId := pubId s; conversationId := conversationId s; projectId := projectId s;
     notebookId := notebookId s; guideId := guideId s;
     publishedGuideConfig := publishedGuideConfig s; conversationStarters := conversationStarters s;
     publishedGuideAvatarUrl := publishedGuideAvatarUrl s; conversationContext := v;
     messages := messages s; authError := authError s; inlineError := inlineError s;
     isStreaming := isStreaming s; streamingAssistantMessageId := streamingAssistantMessageId s;
     sanitizedMessageContent := sanitizedMessageContent s; displayMode := displayMode s;
     enableTurnNavigation := enableTurnNavigation s; activeTurnIndex := activeTurnIndex s;
     collapsible := collapsible s; isCollapsed := isCollapsed s; commandMode := commandMode s;
     conversationStartersEnabled := conversationStartersEnabled s;
     attachmentsEnabled := attachmentsEnabled s; pendingAttachments := pendingAttachments s;
     toolRegistry := toolRegistry s; streamEventCallback := streamEventCallback s;
     contextProvider := contextProvider s; attachmentProvider := attachmentProvider s;
     hostAttributes := hostAttributes s; inputEl := inputEl s; threadEl := threadEl s |}.

Definition set_messages (v : list Message) (s : State) : State :=
  {| pubId := pubId s; conversationId := conversationId s; projectId := projectId s;
     notebookId := notebookId s; guideId := guideId s;
     publishedGuideConfig := publishedGuideConfig s; conversationStarters := conversationStarters s;
     publishedGuideAvatarUrl := publishedGuideAvatarUrl s;
     conversationContext := conversationContext s; messages := v; authError := authError s;
     inlineError := inlineError s; isStreaming := isStreaming s;
     streamingAssistantMessageId := streamingAssistantMessageId s;
     sanitizedMessageContent := sanitizedMessageContent s; displayMode := displayMode s;
     enableTurnNavigation := enableTurnNavigation s; activeTurnIndex := activeTurnIndex s;
     collapsible := collapsible s; isCollapsed := isCollapsed s; commandMode := commandMode s;
     conversationStartersEnabled := conversationStartersEnabled s;
     attachmentsEnabled := attachmentsEnabled s; pendingAttachments := pendingAttachments s;
     toolRegistry := toolRegistry s; streamEventCallback := streamEventCallback s;
     contextProvider := contextProvider s; attachmentProvider := attachmentProvider s;
     hostAttributes := hostAttributes s; inputEl := inputEl s; threadEl := threadEl s |}.

Definition set_authError (v : option (string * string)) (s : State) : State :=
  {| pubId := pubId s; conversationId := conversationId s; projectId := projectId s;
     notebookId := notebookId s; guideId := guideId s;
     publishedGuideConfig := publishedGuideConfig s; conversationStarters := conversationStarters s;
     publishedGuideAvatarUrl := publishedGuideAvatarUrl s;
     conversationContext := conversationContext s; messages := messages s; authError := v;
     inlineError := inlineError s; isStreaming := isStreaming s;
     streamingAssistantMessageId := streamingAssistantMessageId s;
     sanitizedMessageContent := sanitizedMessageContent s; displayMode := displayMode s;
     enableTurnNavigation := enableTurnNavigation s; activeTurnIndex := activeTurnIndex s;
     collapsible := collapsible s; isCollapsed := isCollapsed s; commandMode := commandMode s;
     conversationStartersEnabled := conversationStartersEnabled s;
     attachmentsEnabled := attachmentsEnabled s; pendingAttachments := pendingAttachments s;
     toolRegistry := toolRegistry s; streamEventCallback := streamEventCallback s;
     contextProvider := contextProvider s; attachmentProvider := attachmentProvider s;
     hostAttributes := hostAttributes s; inputEl := inputEl s; threadEl := threadEl s |}.

Definition set_inlineError (v : option string) (s : State) : State :=
  {| pubId := pubId s; conversationId := conversationId s; projectId := projectId s;
     notebookId := notebookId s; guideId := guideId s;
     publishedGuideConfig := publishedGuideConfig s; conversationStarters := conversationStarters s;
     publishedGuideAvatarUrl := publishedGuideAvatarUrl s;
     conversationContext := conversationContext s; messages := messages s; authError := authError s;
     inlineError := v; isStreaming := isStreaming s;
     streamingAssistantMessageId := streamingAssistantMessageId s;
     sanitizedMessageContent := sanitizedMessageContent s; displayMode := displayMode s;
     enableTurnNavigation := enableTurnNavigation s; activeTurnIndex := activeTurnIndex s;
     collapsible := collapsible s; isCollapsed := isCollapsed s; commandMode := commandMode s;
     conversationStartersEnabled := conversationStartersEnabled s;
     attachmentsEnabled := attachmentsEnabled s; pendingAttachments := pendingAttachments s;
     toolRegistry := toolRegistry s; streamEventCallback := streamEventCallback s;
     contextProvider := contextProvider s; attachmentProvider := attachmentProvider s;
     hostAttributes := hostAttributes s; inputEl := inputEl s; threadEl := threadEl s |}.

Definition set_isStreaming (v : bool) (s : State) : State :=
  {| pubId := pubId s; conversationId := conversationId s; projectId := projectId s;
     notebookId := notebookId s; guideId := guideId s;
     publishedGuideConfig := publishedGuideConfig s; conversationStarters := conversationStarters s;
     publishedGuideAvatarUrl := publishedGuideAvatarUrl s;
     conversationContext := conversationContext s; messages := messages s; authError := authError s;
     inlineError := inlineError s; isStreaming := v;
     streamingAssistantMessageId := streamingAssistantMessageId s;
     sanitizedMessageContent := sanitizedMessageContent s; displayMode := displayMode s;
     enableTurnNavigation := enableTurnNavigation s; activeTurnIndex := activeTurnIndex s;
     collapsible := collapsible s; isCollapsed := isCollapsed s; commandMode := commandMode s;
     conversationStartersEnabled := conversationStartersEnabled s;
     attachmentsEnabled := attachmentsEnabled s; pendingAttachments := pendingAttachments s;
     toolRegistry := toolRegistry s; streamEventCallback := streamEventCallback s;
     contextProvider := contextProvider s; attachmentProvider := attachmentProvider s;
     hostAttributes := hostAttributes s; inputEl := inputEl s; threadEl := threadEl s |}.

Definition set_streamingAssistantMessageId (v : option string) (s : State) : State :=
  {| pubId := pubId s; conversationId := conversationId s; projectId := projectId s;
     notebookId := notebookId s; guideId := guideId s;
     publishedGuideConfig := publishedGuideConfig s; conversationStarters := conversationStarters s;
     publishedGuideAvatarUrl := publishedGuideAvatarUrl s;
     conversationContext := conversationContext s; messages := messages s; authError := authError s;
     inlineError := inlineError s; isStreaming := isStreaming s; streamingAssistantMessageId := v;
     sanitizedMessageContent := sanitizedMessageContent s; displayMode := displayMode s;
     enableTurnNavigation := enableTurnNavigation s; activeTurnIndex := activeTurnIndex s;
     collapsible := collapsible s; isCollapsed := isCollapsed s; commandMode := commandMode s;
     conversationStartersEnabled := conversationStartersEnabled s;
     attachmentsEnabled := attachmentsEnabled s; pendingAttachments := pendingAttachments s;
     toolRegistry := toolRegistry s; streamEventCallback := streamEventCallback s;
     contextProvider := contextProvider s; attachmentProvider := attachmentProvider s;
     hostAttributes := hostAttributes s; inputEl := inputEl s; threadEl := threadEl s |}.

Definition set_sanitizedMessageContent (v : option string) (s : State) : State :=
  {| pubId := pubId s; conversationId := conversationId s; projectId := projectId s;
     notebookId := notebookId s; guideId := guideId s;
     publishedGuideConfig := publishedGuideConfig s; conversationStarters := conversationStarters s;
     publishedGuideAvatarUrl := publishedGuideAvatarUrl s;
     conversationContext := conversationContext s; messages := messages s; authError := authError s;
     inlineError := inlineError s; isStreaming := isStreaming s;
     streamingAssistantMessageId := streamingAssistantMessageId s; sanitizedMessageContent := v;
     displayMode := displayMode s; enableTurnNavigation := enableTurnNavigation s;
     activeTurnIndex := activeTurnIndex s; collapsible := collapsible s;
     isCollapsed := isCollapsed s; commandMode := commandMode s;
     conversationStartersEnabled := conversationStartersEnabled s;
     attachmentsEnabled := attachmentsEnabled s; pendingAttachments := pendingAttachments s;
     toolRegistry := toolRegistry s; streamEventCallback := streamEventCallback s;
     contextProvider := contextProvider s; attachmentProvider := attachmentProvider s;
     hostAttributes := hostAttributes s; inputEl := inputEl s; threadEl := threadEl s |}.

Definition set_displayMode (v : DisplayMode) (s : State) : State :=
  {| pubId := pubId s; conversationId := conversationId s; projectId := projectId s;
     notebookId := notebookId s; guideId := guideId s;
     publishedGuideConfig := publishedGuideConfig s; conversationStarters := conversationStarters s;
     publishedGuideAvatarUrl := publishedGuideAvatarUrl s;
     conversationContext := conversationContext s; messages := messages s; authError := authError s;
     inlineError := inlineError s; isStreaming := isStreaming s;
     streamingAssistantMessageId := streamingAssistantMessageId s;
     sanitizedMessageContent := sanitizedMessageContent s; displayMode := v;
     enableTurnNavigation := enableTurnNavigation s; activeTurnIndex := activeTurnIndex s;
     collapsible := collapsible s; isCollapsed := isCollapsed s; commandMode := commandMode s;
     conversationStartersEnabled := conversationStartersEnabled s;
     attachmentsEnabled := attachmentsEnabled s; pendingAttachments := pendingAttachments s;
     toolRegistry := toolRegistry s; streamEventCallback := streamEventCallback s;
     contextProvider := contextProvider s; attachmentProvider := attachmentProvider s;
     hostAttributes := hostAttributes s; inputEl := inputEl s; threadEl := threadEl s |}.

Definition set_enableTurnNavigation (v : bool) (s : State) : State :=
  {| pubId := pubId s; conversationId := conversationId s; projectId := projectId s;
     notebookId := notebookId s; guideId := guideId s;
     publishedGuideConfig := publishedGuideConfig s; conversationStarters := conversationStarters s;
     publishedGuideAvatarUrl := publishedGuideAvatarUrl s;
     conversationContext := conversationContext s; messages := messages s; authError := authError s;
     inlineError := inlineError s; isStreaming := isStreaming s;
     streamingAssistantMessageId := streamingAssistantMessageId s;
     sanitizedMessageContent := sanitizedMessageContent s; displayMode := displayMode s;
     enableTurnNavigation := v; activeTurnIndex := activeTurnIndex s; collapsible := collapsible s;
     isCollapsed := isCollapsed s; commandMode := commandMode s;
     conversationStartersEnabled := conversationStartersEnabled s;
     attachmentsEnabled := attachmentsEnabled s; pendingAttachments := pendingAttachments s;
     toolRegistry := toolRegistry s; streamEventCallback := streamEventCallback s;
     contextProvider := contextProvider s; attachmentProvider := attachmentProvider s;
     hostAttributes := hostAttributes s; inputEl := inputEl s; threadEl := threadEl s |}.

Definition set_activeTurnIndex (v : option Z) (s : State) : State :=
  {| pubId := pubId s; conversationId := conversationId s; projectId := projectId s;
     notebookId := notebookId s; guideId := guideId s;
     publishedGuideConfig := publishedGuideConfig s; conversationStarters := conversationStarters s;
     publishedGuideAvatarUrl := publishedGuideAvatarUrl s;
     conversationContext := conversationContext s; messages := messages s; authError := authError s;
     inlineError := inlineError s; isStreaming := isStreaming s;
     streamingAssistantMessageId := streamingAssistantMessageId s;
     sanitizedMessageContent := sanitizedMessageContent s; displayMode := displayMode s;
     enableTurnNavigation := enableTurnNavigation s; activeTurnIndex := v;
     collapsible := collapsible s; isCollapsed := isCollapsed s; commandMode := commandMode s;
     conversationStartersEnabled := conversationStartersEnabled s;
     attachmentsEnabled := attachmentsEnabled s; pendingAttachments := pendingAttachments s;
     toolRegistry := toolRegistry s; streamEventCallback := streamEventCallback s;
     contextProvider := contextProvider s; attachmentProvider := attachmentProvider s;
     hostAttributes := hostAttributes s; inputEl := inputEl s; threadEl := threadEl s |}.

Definition set_collapsible (v : bool) (s : State) : State :=
  {| pubId := pubId s; conversationId := conversationId s; projectId := projectId s;
     notebookId := notebookId s; guideId := guideId s;
     publishedGuideConfig := publishedGuideConfig s; conversationStarters := conversationStarters s;
     publishedGuideAvatarUrl := publishedGuideAvatarUrl s;
     conversationContext := conversationContext s; messages := messages s; authError := authError s;
     inlineError := inlineError s; isStreaming := isStreaming s;
     streamingAssistantMessageId := streamingAssistantMessageId s;
     sanitizedMessageContent := sanitizedMessageContent s; displayMode := displayMode s;
     enableTurnNavigation := enableTurnNavigation s; activeTurnIndex := activeTurnIndex s;
     collapsible := v; isCollapsed := isCollapsed s; commandMode := commandMode s;
     conversationStartersEnabled := conversationStartersEnabled s;
     attachmentsEnabled := attachmentsEnabled s; pendingAttachments := pendingAttachments s;
     toolRegistry := toolRegistry s; streamEventCallback := streamEventCallback s;
     contextProvider := contextProvider s; attachmentProvider := attachmentProvider s;
     hostAttributes := hostAttributes s; inputEl := inputEl s; threadEl := threadEl s |}.

Definition set_isCollapsed (v : bool) (s : State) : State :=
  {| pubId := pubId s; conversationId := conversationId s; projectId := projectId s;
     notebookId := notebookId s; guideId := guideId s;
     publishedGuideConfig := publishedGuideConfig s; conversationStarters := conversationStarters s;
     publishedGuideAvatarUrl := publishedGuideAvatarUrl s;
     conversationContext := conversationContext s; messages := messages s; authError := authError s;
     inlineError := inlineError s; isStreaming := isStreaming s;
     streamingAssistantMessageId := streamingAssistantMessageId s;
     sanitizedMessageContent := sanitizedMessageContent s; displayMode := displayMode s;
     enableTurnNavigation := enableTurnNavigation s; activeTurnIndex := activeTurnIndex s;
     collapsible := collapsible s; isCollapsed := v; commandMode := commandMode s;
     conversationStartersEnabled := conversationStartersEnabled s;
     attachmentsEnabled := attachmentsEnabled s; pendingAttachments := pendingAttachments s;
     toolRegistry := toolRegistry s; streamEventCallback := streamEventCallback s;
     contextProvider := contextProvider s; attachmentProvider := attachmentProvider s;
     hostAttributes := hostAttributes s; inputEl := inputEl s; threadEl := threadEl s |}.

Definition set_commandMode (v : bool) (s : State) : State :=
  {| pubId := pubId s; conversationId := conversationId s; projectId := projectId s;
     notebookId := notebookId s; guideId := guideId s;
     publishedGuideConfig := publishedGuideConfig s; conversationStarters := conversationStarters s;
     publishedGuideAvatarUrl := publishedGuideAvatarUrl s;
     conversationContext := conversationContext s; messages := messages s; authError := authError s;
     inlineError := inlineError s; isStreaming := isStreaming s;
     streamingAssistantMessageId := streamingAssistantMessageId s;
     sanitizedMessageContent := sanitizedMessageContent s; displayMode := displayMode s;
     enableTurnNavigation := enableTurnNavigation s; activeTurnIndex := activeTurnIndex s;
     collapsible := collapsible s; isCollapsed := isCollapsed s; commandMode := v;
     conversationStartersEnabled := conversationStartersEnabled s;
     attachmentsEnabled := attachmentsEnabled s; pendingAttachments := pendingAttachments s;
     toolRegistry := toolRegistry s; streamEventCallback := streamEventCallback s;
     contextProvider := contextProvider s; attachmentProvider := attachmentProvider s;
     hostAttributes := hostAttributes s; inputEl := inputEl s; threadEl := threadEl s |}.

Definition set_conversationStartersEnabled (v : bool) (s : State) : State :=
  {| pubId := pubId s; conversationId := conversationId s; projectId := projectId s;
     notebookId := notebookId s; guideId := guideId s;
     publishedGuideConfig := publishedGuideConfig s; conversationStarters := conversationStarters s;
     publishedGuideAvatarUrl := publishedGuideAvatarUrl s;
     conversationContext := conversationContext s; messages := messages s; authError := authError s;
     inlineError := inlineError s; isStreaming := isStreaming s;
     streamingAssistantMessageId := streamingAssistantMessageId s;
     sanitizedMessageContent := sanitizedMessageContent s; displayMode := displayMode s;
     enableTurnNavigation := enableTurnNavigation s; activeTurnIndex := activeTurnIndex s;
     collapsible := collapsible s; isCollapsed := isCollapsed s; commandMode := commandMode s;
     conversationStartersEnabled := v; attachmentsEnabled := attachmentsEnabled s;
     pendingAttachments := pendingAttachments s; toolRegistry := toolRegistry s;
     streamEventCallback := streamEventCallback s; contextProvider := contextProvider s;
     attachmentProvider := attachmentProvider s; hostAttributes := hostAttributes s;
     inputEl := inputEl s; threadEl := threadEl s |}.

Definition set_attachmentsEnabled (v : bool) (s : State) : State :=
  {| pubId := pubId s; conversationId := conversationId s; projectId := projectId s;
     notebookId := notebookId s; guideId := guideId s;
     publishedGuideConfig := publishedGuideConfig s; conversationStarters := conversationStarters s;
     publishedGuideAvatarUrl := publishedGuideAvatarUrl s;
     conversationContext := conversationContext s; messages := messages s; authError := authError s;
     inlineError := inlineError s; isStreaming := isStreaming s;
     streamingAssistantMessageId := streamingAssistantMessageId s;
     sanitizedMessageContent := sanitizedMessageContent s; displayMode := displayMode s;
     enableTurnNavigation := enableTurnNavigation s; activeTurnIndex := activeTurnIndex s;
     collapsible := collapsible s; isCollapsed := isCollapsed s; commandMode := commandMode s;
     conversationStartersEnabled := conversationStartersEnabled s; attachmentsEnabled := v;
     pendingAttachments := pendingAttachments s; toolRegistry := toolRegistry s;
     streamEventCallback := streamEventCallback s; contextProvider := contextProvider s;
     attachmentProvider := attachmentProvider s; hostAttributes := hostAttributes s;
     inputEl := inputEl s; threadEl := threadEl s |}.

Definition set_pendingAttachments (v : list PendingAttachment) (s : State) : State :=
  {| pubId := pubId s; conversationId := conversationId s; projectId := projectId s;
     notebookId := notebookId s; guideId := guideId s;
     publishedGuideConfig := publishedGuideConfig s; conversationStarters := conversationStarters s;
     publishedGuideAvatarUrl := publishedGuideAvatarUrl s;
     conversationContext := conversationContext s; messages := messages s; authError := authError s;
     inlineError := inlineError s; isStreaming := isStreaming s;
     streamingAssistantMessageId := streamingAssistantMessageId s;
     sanitizedMessageContent := sanitizedMessageContent s; displayMode := displayMode s;
     enableTurnNavigation := enableTurnNavigation s; activeTurnIndex := activeTurnIndex s;
     collapsible := collapsible s; isCollapsed := isCollapsed s; commandMode := commandMode s;
     conversationStartersEnabled := conversationStartersEnabled s;
     attachmentsEnabled := attachmentsEnabled s; pendingAttachments := v;
     toolRegistry := toolRegistry s; streamEventCallback := streamEventCallback s;
     contextProvider := contextProvider s; attachmentProvider := attachmentProvider s;
     hostAttributes := hostAttributes s; inputEl := inputEl s; threadEl := threadEl s |}.

Definition set_toolRegistry (v : gmap string ToolHandler) (s : State) : State :=
  {| pubId := pubId s; conversationId := conversationId s; projectId := projectId s;
     notebookId := notebookId s; guideId := guideId s;
     publishedGuideConfig := publishedGuideConfig s; conversationStarters := conversationStarters s;
     publishedGuideAvatarUrl := publishedGuideAvatarUrl s;
     conversationContext := conversationContext s; messages := messages s; authError := authError s;
     inlineError := inlineError s; isStreaming := isStreaming s;
     streamingAssistantMessageId := streamingAssistantMessageId s;
     sanitizedMessageContent := sanitizedMessageContent s; displayMode := displayMode s;
     enableTurnNavigation := enableTurnNavigation s; activeTurnIndex := activeTurnIndex s;
     collapsible := collapsible s; isCollapsed := isCollapsed s; commandMode := commandMode s;
     conversationStartersEnabled := conversationStartersEnabled s;
     attachmentsEnabled := attachmentsEnabled s; pendingAttachments := pendingAttachments s;
     toolRegistry := v; streamEventCallback := streamEventCallback s;
     contextProvider := contextProvider s; attachmentProvider := attachmentProvider s;
     hostAttributes := hostAttributes s; inputEl := inputEl s; threadEl := threadEl s |}.

Definition set_hostAttributes (v : gset string) (s : State) : State :=
  {| pubId := pubId s; conversationId := conversationId s; projectId := projectId s;
     notebookId := notebookId s; guideId := guideId s;
     publishedGuideConfig := publishedGuideConfig s; conversationStarters := conversationStarters s;
     publishedGuideAvatarUrl := publishedGuideAvatarUrl s;
     conversationContext := conversationContext s; messages := messages s; authError := authError s;
     inlineError := inlineError s; isStreaming := isStreaming s;
     streamingAssistantMessageId := streamingAssistantMessageId s;
     sanitizedMessageContent := sanitizedMessageContent s; displayMode := displayMode s;
     enableTurnNavigation := enableTurnNavigation s; activeTurnIndex := activeTurnIndex s;
     collapsible := collapsible s; isCollapsed := isCollapsed s; commandMode := commandMode s;
     conversationStartersEnabled := conversationStartersEnabled s;
     attachmentsEnabled := attachmentsEnabled s; pendingAttachments := pendingAttachments s;
     toolRegistry := toolRegistry s; streamEventCallback := streamEventCallback s;
     contextProvider := contextProvider s; attachmentProvider := attachmentProvider s;
     hostAttributes := v; inputEl := inputEl s; threadEl := threadEl s |}.

Definition set_inputEl (v : option string) (s : State) : State :=
  {| pubId := pubId s; conversationId := conversationId s; projectId := projectId s;
     notebookId := notebookId s; guideId := guideId s;
     publishedGuideConfig := publishedGuideConfig s; conversationStarters := conversationStarters s;
     publishedGuideAvatarUrl := publishedGuideAvatarUrl s;
     conversationContext := conversationContext s; messages := messages s; authError := authError s;
     inlineError := inlineError s; isStreaming := isStreaming s;
     streamingAssistantMessageId := streamingAssistantMessageId s;
     sanitizedMessageContent := sanitizedMessageContent s; displayMode := displayMode s;
     enableTurnNavigation := enableTurnNavigation s; activeTurnIndex := activeTurnIndex s;
     collapsible := collapsible s; isCollapsed := isCollapsed s; commandMode := commandMode s;
     conversationStartersEnabled := conversationStartersEnabled s;
     attachmentsEnabled := attachmentsEnabled s; pendingAttachments := pendingAttachments s;
     toolRegistry := toolRegistry s; streamEventCallback := streamEventCallback s;
     contextProvider := contextProvider s; attachmentProvider := attachmentProvider s;
     hostAttributes := hostAttributes s; inputEl := v; threadEl := threadEl s |}.

(** ** The environment

    What the network, the clock and the host's providers answer; each answer
    is indexed by the number of environment interactions made before it. *)

Inductive Res (A : Type) :=
| Ok (a : A)
| Rejected (e : JsError).
Arguments Ok {A} a.
Arguments Rejected {A} e.

(** An opened event stream: the events it delivers, in order, and whether
    it then ends or fails. A request that fails before any event delivers
    none. *)
Record StreamOutcome := {
  delivered : list StreamEvent;
  failure : option JsError
}.

Record Env := {
  (* [Date.now()], [new Date()] *)
  Date_now : nat -> Z;
  (* [Date.prototype.toISOString] *)
  toISOString : Z -> string;
  (* [getPublishedGuideConfig], [GuideantsChatService.fetchAvatarUrl] *)
  getPublishedGuideConfig : nat -> Res PublishedGuideConfig;
  fetchAvatarUrl : nat -> option string;
  (* [createConversation], [getConversation], [deleteLastTurn] *)
  createConversation : nat -> Res string;
  getConversation : nat -> Res (list Message);
  deleteLastTurn : nat -> Res DeleteResult;
  (* [streamAssistantMessage]; the request and read loop of
     [GuideantsChatService.submitToolResults], which throws plain errors *)
  streamAssistantMessage : nat -> StreamOutcome;
  resumeStream : nat -> list StreamEvent * option Thrown;
  (* the host's context provider and attachment provider *)
  callContextProvider : nat -> Res (option string);
  callAttachmentProvider : nat -> Res (list PublishedAttachment)
}.

(** ** The controller monad: state, effect log, rejection *)

Record World := {
  ctl : State;
  effects : list Effect;
  ticks : nat
}.

Definition M (A : Type) : Type := World -> Res A * World.

#[global] Instance M_ret : MRet M := fun A a w => (Ok a, w).

#[global] Instance M_bind : MBind M := fun A B f m w =>
  match m w with
  | (Ok a, w') => f a w'
  | (Rejected e, w') => (Rejected e, w')
  end.

Definition throw {A : Type} (e : JsError) : M A := fun w => (Rejected e, w).

Definition gets {A : Type} (f : State -> A) : M A := fun w => (Ok (f (ctl w)), w).

Definition modify (f : State -> State) : M unit := fun w =>
  (Ok tt, {| ctl := f (ctl w); effects := effects w; ticks := ticks w |}).

Definition emit (e : Effect) : M unit := fun w =>
  (Ok tt, {| ctl := ctl w; effects := effects w ++ [e]; ticks := ticks w |}).

(** One interaction with the environment. *)
Definition ask {A : Type} (f : nat -> A) : M A := fun w =>
  (Ok (f (ticks w)), {| ctl := ctl w; effects := effects w; ticks := Datatypes.S (ticks w) |}).

(** [await] of an environment promise. *)
Definition await {A : Type} (f : nat -> Res A) : M A := fun w =>
  (f (ticks w), {| ctl := ctl w; effects := effects w; ticks := Datatypes.S (ticks w) |}).

(** [try { m } catch (err) { h err }]. *)
Definition try_catch {A : Type} (m : M A) (h : JsError -> M A) : M A := fun w =>
  match m w with
  | (Ok a, w') => (Ok a, w')
  | (Rejected e, w') => h e w'
  end.

(** [try { m } finally { f }]. *)
Definition finally {A : Type} (m : M A) (f : M unit) : M A := fun w =>
  match m w with
  | (r, w') =>
      match f w' with
      | (Ok _, w'') => (r, w'')
      | (Rejected e, w'') => (Rejected e, w'')
      end
  end.

Definition when (b : bool) (m : M unit) : M unit := if b then m else mret tt.

(** [for (const x of xs) body(x)]. *)
Fixpoint for_each {A : Type} (xs : list A) (body : A -> M unit) : M unit :=
  match xs with
  | [] => mret tt
  | x :: rest => body x;; for_each rest body
  end.

(** ** Pure helpers of the controller and the view *)

Definition is_some {A : Type} (o : option A) : bool :=
  match o with Some _ => true | None => false end.

(** Truthiness of a [number | undefined]. *)
Definition truthyZ (o : option Z) : bool :=
  match o with Some n => negb (Z.eqb n 0) | None => false end.

Definition is_temp (m : Message) : bool := Js.startsWith "temp-" (id m).

Definition has_id (i : string) (m : Message) : bool := String.eqb (id m) i.

(** [const msg = xs.find(p); if (msg) msg = f(msg)], on the list that holds
    the message. *)
Fixpoint update_first (p : Message -> bool) (f : Message -> Message)
  (xs : list Message) : list Message :=
  match xs with
  | [] => []
  | m :: rest => if p m then f m :: rest else m :: update_first p f rest
  end.

Definition set_content (c : string) (m : Message) : Message :=
  {| id := id m; role := role m; content := c; created := created m;
     isEdited := isEdited m; attachments := attachments m |}.

Definition append_content (delta : string) (m : Message) : Message :=
  set_content (content m ++ delta) m.

(** The loop of [loadConversation] that finds the last [Assistant] message,
    and the assignment to its content. *)
Fixpoint override_last_assistant (c : string) (xs : list Message) : list Message :=
  match xs with
  | [] => []
  | m :: rest =>
      if existsb isAssistant rest then m :: override_last_assistant c rest
      else if isAssistant m then set_content c m :: rest
      else m :: rest
  end.

(** [GuideantsChatController.normalizeAttachments]. *)
Definition normalizeAttachments (given : option (list PublishedAttachment))
  : option (list PublishedAttachment) :=
  match given with
  | None | Some [] => None
  | Some atts =>
      let normalized :=
        flat_map (fun att =>
          let i := Js.trim (notebookFileId att) in
          if String.eqb i EmptyString then []
          else [{| notebookFileId := i; uploadType := uploadType att; fileName := None |}])
          atts in
      match normalized with [] => None | _ => Some normalized end
  end.

(** [GuideantsChatView.getDisplayTurns]. *)
Definition getDisplayTurns (s : State) (turns : list Turn) : list Turn :=
  if DisplayMode_eqb (displayMode s) LastTurn && negb (Nat.eqb (length turns) 0) then
    let targetTurnNumber :=
      match activeTurnIndex s with Some k => k | None => Z.of_nat (length turns) end in
    let turnArrayIndex := (targetTurnNumber - 1)%Z in
    if (0 <=? turnArrayIndex)%Z && (turnArrayIndex <? Z.of_nat (length turns))%Z then
      match nth_error turns (Z.to_nat turnArrayIndex) with
      | Some t => [t]
      | None => []
      end
    else
      match nth_error turns (length turns - 1) with
      | Some t => [t]
      | None => []
      end
  else turns.

(** The missing tool names of an [external_tool_call]. *)
Definition toolName_of (call : ToolCall) : option string :=
  match function call with
  | Some f => fn_name f
  | None => None
  end.

Definition missingHandlers (registry : gmap string ToolHandler) (calls : list ToolCall)
  : list string :=
  flat_map (fun call =>
    match toolName_of call with
    | Some toolName =>
        if Js.truthy (Some toolName) && negb (is_some (registry !! toolName))
        then [toolName] else []
    | None => []
    end) calls.

(** [call.function?.arguments || {}]. *)
Definition arguments_of (call : ToolCall) : ToolArguments :=
  match function call with
  | Some f =>
      match fn_arguments f with
      | Some (ArgText s) => if String.eqb s EmptyString then ArgObject "{}" else ArgText s
      | Some (ArgObject o) => ArgObject o
      | None => ArgObject "{}"
      end
  | None => ArgObject "{}"
  end.

(** [err?.message || fallback]. *)
Definition message_or (e : JsError) (fallback : string) : string :=
  Js.or_else (err_message e) fallback.

(** ** The controller ([GuideantsChatController]) *)

Section Controller.

Context (env : Env).

Definition get : M State := gets (fun s => s).

Definition dispatch (type : string) (detail : Detail) : M unit :=
  emit (Dispatched type detail).

(** [setInlineError], [showError]. *)
Definition setInlineError (msg : option string) : M unit :=
  modify (set_inlineError msg).

Definition showError (msg : string) : M unit := setInlineError (Some msg).

(** [GuideantsChatView.updateThread]: of the rendering, the notification of
    [emitTurnsHiddenEvent] (dispatched on the shadow root, composed). *)
Definition updateThread : M unit :=
  s ← get;
  if negb (threadEl s) then mret tt
  else if is_some (authError s) then mret tt
  else if Nat.eqb (length (messages s)) 0 then mret tt
  else
    let turns := groupMessagesIntoTurns (messages s) in
    let totalTurns := length turns in
    let displayedCount := length (getDisplayTurns s turns) in
    when (DisplayMode_eqb (displayMode s) LastTurn
          && Nat.ltb 0 totalTurns && Nat.ltb displayedCount totalTurns)
      (dispatch "wf-turns-hidden"
         (TurnsHiddenDetail (Z.of_nat totalTurns)
            (match activeTurnIndex s with Some k => k | None => Z.of_nat totalTurns end)
            (Z.of_nat totalTurns - 1))).

(** [renderFullState]. *)
Definition renderFullState : M unit := updateThread.

(** [handleAuthError]. *)
Definition handleAuthError (errorCode errorMessage : string) (requiresAuth : bool)
  : M unit :=
  modify (set_authError (Some (errorCode, errorMessage)));;
  setInlineError (Some errorMessage);;
  updateThread;;
  dispatch "wf-auth-error" (AuthErrorDetail errorCode errorMessage requiresAuth).

(** *** Configuration *)

(** [GuideantsChatService.ensureResolvedIds] (synchronous). *)
Definition service_ensureResolvedIds : M unit :=
  s ← get;
  if negb (Js.truthy (projectId s)) || negb (Js.truthy (notebookId s))
  then throw (Error "Missing guide configuration")
  else mret tt.

(** [GuideantsChatService.fetchConfig]. *)
Definition service_fetchConfig : M PublishedGuideConfig :=
  s ← get;
  if negb (Js.truthy (pubId s)) then throw (Error "Missing pub-id")
  else emit (Requested FetchConfig);; await (getPublishedGuideConfig env).

(** [GuideantsChatService.fetchAvatarUrl]. *)
Definition service_fetchAvatarUrl : M (option string) :=
  s ← get;
  if negb (Js.truthy (pubId s)) then mret None
  else emit (Requested FetchAvatarUrl);; ask (fetchAvatarUrl env).

(** [initializeConversationStartersFromConfig]. *)
Definition initializeConversationStartersFromConfig : M unit :=
  s ← get;
  if Nat.ltb 0 (length (conversationStarters s)) then mret tt
  else
    match publishedGuideConfig s with
    | Some cfg =>
        match cfg_conversationStarters cfg with
        | Some starters =>
            when (Nat.ltb 0 (length starters)) (modify (set_conversationStarters starters))
        | None => mret tt
        end
    | None => mret tt
    end.

(** [applyConfigToComponentProps]. *)
Definition applyConfigToComponentProps : M unit :=
  s ← get;
  match publishedGuideConfig s with
  | None => mret tt
  | Some cfg =>
      let hasAttribute (a : string) := bool_decide (a ∈ hostAttributes s) in
      match cfg_displayMode cfg with
      | Some mode => when (negb (hasAttribute "display-mode")) (modify (set_displayMode mode))
      | None => mret tt
      end;;
      match showTurnNavigation cfg with
      | Some b =>
          when (negb (hasAttribute "enable-turn-navigation"))
            (modify (set_enableTurnNavigation b))
      | None => mret tt
      end;;
      match cfg_collapsible cfg with
      | Some b => when (negb (hasAttribute "collapsible")) (modify (set_collapsible b))
      | None => mret tt
      end;;
      match showConversationStarters cfg with
      | Some b =>
          when (negb (hasAttribute "conversation-starters-enabled"))
            (modify (set_conversationStartersEnabled b))
      | None => mret tt
      end;;
      match showAttachments cfg with
      | Some b =>
          when (negb (hasAttribute "attachments-enabled")) (modify (set_attachmentsEnabled b))
      | None => mret tt
      end;;
      match cfg_commandMode cfg with
      | Some b => when (negb (hasAttribute "command-mode")) (modify (set_commandMode b))
      | None => mret tt
      end
  end.

(** [initialize]. *)
Definition initialize : M unit :=
  s ← get;
  if Js.truthy (projectId s) && Js.truthy (notebookId s) && Js.truthy (guideId s)
     && is_some (publishedGuideConfig s)
  then applyConfigToComponentProps;; renderFullState
  else if negb (Js.truthy (pubId s)) then mret tt
  else
    try_catch
      (cfg ← service_fetchConfig;
       modify (set_publishedGuideConfig (Some cfg));;
       avatarUrl ← service_fetchAvatarUrl;
       modify (set_publishedGuideAvatarUrl
                 (if Js.truthy avatarUrl then avatarUrl else None));;
       modify (set_projectId (Some (cfg_projectId cfg)));;
       modify (set_notebookId (Some (cfg_notebookId cfg)));;
       modify (set_guideId (Some (cfg_guideId cfg)));;
       initializeConversationStartersFromConfig;;
       applyConfigToComponentProps;;
       renderFullState)
      (fun _ => mret tt).

(** [ensureResolvedIds]. *)
Definition ensureResolvedIds : M unit :=
  s ← get;
  if Js.truthy (projectId s) && Js.truthy (notebookId s) && Js.truthy (guideId s)
  then mret tt
  else
    initialize;;
    s' ← get;
    if negb (Js.truthy (projectId s')) || negb (Js.truthy (notebookId s'))
    then throw (Error "Missing guide configuration")
    else mret tt.

(** *** Conversation *)

(** [GuideantsChatService.fetchHistory]. *)
Definition service_fetchHistory : M (list Message) :=
  s ← get;
  if negb (Js.truthy (conversationId s)) then mret []
  else
    service_ensureResolvedIds;;
    emit (Requested FetchHistory);;
    await (getConversation env).

(** [loadConversation]. *)
Definition loadConversation : M unit :=
  s ← get;
  if negb (Js.truthy (conversationId s)) then mret tt
  else
    ensureResolvedIds;;
    loadedMessages ← service_fetchHistory;
    s1 ← get;
    (match sanitizedMessageContent s1 with
     | Some c =>
         if Js.truthy (Some c) then
           modify (set_sanitizedMessageContent None);;
           modify (set_messages (override_last_assistant c loadedMessages))
         else modify (set_messages loadedMessages)
     | None => modify (set_messages loadedMessages)
     end);;
    s2 ← get;
    when (negb (isStreaming s2)) updateThread.

(** [GuideantsChatService.startConversation]. *)
Definition service_startConversation : M string :=
  service_ensureResolvedIds;;
  emit (Requested StartConversation);;
  await (createConversation env).

(** [ensureConversation]. *)
Definition ensureConversation : M unit :=
  s ← get;
  if Js.truthy (conversationId s) then loadConversation
  else
    ensureResolvedIds;;
    s1 ← get;
    when (contextProvider s1 && negb (is_some (conversationContext s1)))
      (try_catch
         (emit ContextAsked;;
          result ← await (callContextProvider env);
          match result with
          | Some r =>
              when (Nat.ltb 0 (String.length (Js.trim r)))
                (modify (set_conversationContext (Some (Js.trim r))))
          | None => mret tt
          end)
         (fun _ => mret tt));;
    _ ← ask (Date_now env);
    convId ← service_startConversation;
    modify (set_conversationId (Some convId));;
    (if negb (Js.truthy (Some convId))
     then throw (Error "conversation id missing from start response")
     else loadConversation).

(** [clearConversation]. *)
Definition clearConversation : M unit :=
  modify (set_conversationId None);;
  modify (set_conversationContext None);;
  modify (set_messages []);;
  modify (set_authError None);;
  modify (set_activeTurnIndex None);;
  updateThread.

(** *** The Stream Event Interpreter ([handleSseEvent]) *)

(** Pushes [{ id: `temp-assistant-${Date.now()}`, role: 'Assistant',
    content: '', created: new Date().toISOString(), isEdited: false }] and
    makes it the streaming message. *)
Definition pushAssistantPlaceholder : M unit :=
  now ← ask (Date_now env);
  created ← ask (Date_now env);
  let assistantMessageId := ("temp-assistant-" ++ Js.string_of_Z now)%string in
  modify (fun s => set_messages
    (messages s ++
       [{| id := assistantMessageId; role := Assistant; content := EmptyString;
           created := toISOString env created; isEdited := false;
           attachments := None |}]) s);;
  modify (set_streamingAssistantMessageId (Some assistantMessageId)).

(** [const msg = messages.find(m => m.id === streamingAssistantMessageId);
    if (msg) { change msg; updateThread() }]. *)
Definition withStreamingMessage (change : Message -> Message) : M unit :=
  s ← get;
  match streamingAssistantMessageId s with
  | Some i =>
      if existsb (has_id i) (messages s) then
        modify (set_messages (update_first (has_id i) change (messages s)));;
        updateThread
      else mret tt
  | None => mret tt
  end.

Definition on_token (data : EventData) : M unit :=
  let delta := Js.or_else (contentDelta data) EmptyString in
  s ← get;
  when (negb (Js.truthy (streamingAssistantMessageId s)))
    (modify (set_isStreaming true);;
     pushAssistantPlaceholder;;
     updateThread);;
  when (negb (String.eqb delta EmptyString))
    (withStreamingMessage (append_content delta)).

Definition on_assistant_message (data : EventData) : M unit :=
  let c := Js.or_else (data_content data) EmptyString in
  s ← get;
  when (negb (Js.truthy (streamingAssistantMessageId s)))
    (modify (set_isStreaming true);;
     pushAssistantPlaceholder);;
  when (negb (String.eqb c EmptyString))
    (withStreamingMessage (set_content c)).

Definition on_external_tool_call (data : EventData) : M unit :=
  modify (set_isStreaming false);;
  let calls := match toolCalls data with Some cs => cs | None => [] end in
  if Nat.eqb (length calls) 0 then mret tt
  else
    s ← get;
    let missing := missingHandlers (toolRegistry s) calls in
    if Nat.ltb 0 (length missing) then
      let msg := ("No handler registered for tool(s): " ++ Js.join ", " missing)%string in
      showError msg;;
      dispatch "wf-error" (ErrorDetail (Error msg))
    else
      emit (Spawned calls);;
      when (streamEventCallback s)
        (emit (CalledBack {| evt_type := "external_tool_call"; evt_data := data |})).

Definition on_message (data : EventData) : M unit :=
  let c := Js.or_else (data_content data) EmptyString in
  when (negb (String.eqb c EmptyString))
    (modify (set_sanitizedMessageContent (Some c));;
     s ← get;
     when (negb (Js.truthy (streamingAssistantMessageId s))) pushAssistantPlaceholder;;
     withStreamingMessage (set_content c)).

Definition on_error (data : EventData) : M unit :=
  showError (Js.or_else (data_message data) "stream error").

Definition on_complete : M unit :=
  modify (set_isStreaming false);;
  modify (set_streamingAssistantMessageId None);;
  modify (set_sanitizedMessageContent None);;
  updateThread.

Definition handleSseEvent (evt : StreamEvent) : M unit :=
  (if String.eqb (evt_type evt) "token" then on_token (evt_data evt)
   else if String.eqb (evt_type evt) "assistant_message"
   then on_assistant_message (evt_data evt)
   else if String.eqb (evt_type evt) "external_tool_call"
   then on_external_tool_call (evt_data evt)
   else if String.eqb (evt_type evt) "message" then on_message (evt_data evt)
   else if String.eqb (evt_type evt) "error" then on_error (evt_data evt)
   else if String.eqb (evt_type evt) "complete" || String.eqb (evt_type evt) "cancelled"
   then on_complete
   else mret tt);;
  when (negb (String.eqb (evt_type evt) "external_tool_call"))
    (dispatch ("wf-" ++ evt_type evt)%string (DataDetail (evt_data evt))).

(** [ingestStreamEvent]. *)
Definition ingestStreamEvent (eventType : string) (data : EventData) : M unit :=
  handleSseEvent {| evt_type := eventType; evt_data := data |}.

(** *** Collapse, display mode, turn navigation *)

(** [host.setAttribute(a, _)], [host.removeAttribute(a)]. *)
Definition setAttribute (a : string) : M unit :=
  modify (fun s => set_hostAttributes ({[ a ]} ∪ hostAttributes s) s).

Definition removeAttribute (a : string) : M unit :=
  modify (fun s => set_hostAttributes (hostAttributes s ∖ {[ a ]}) s).

Definition expand : M unit :=
  s ← get;
  if negb (collapsible s) then mret tt
  else
    modify (set_isCollapsed false);;
    updateThread;;
    dispatch "wf-expanded" NoDetail.

Definition collapse : M unit :=
  s ← get;
  if negb (collapsible s) then mret tt
  else
    modify (set_isCollapsed true);;
    updateThread;;
    dispatch "wf-collapsed" NoDetail.

Definition toggleCollapse : M unit :=
  s ← get;
  if negb (collapsible s) then mret tt
  else if isCollapsed s then expand else collapse.

Definition setCollapsible (enabled : bool) : M unit :=
  modify (set_collapsible enabled);;
  (if enabled then setAttribute "collapsible"
   else removeAttribute "collapsible";; modify (set_isCollapsed false)).

Definition setDisplayMode (mode : DisplayMode) : M unit :=
  modify (set_displayMode mode);;
  setAttribute "display-mode";;
  updateThread.

Definition setCommandMode (enabled : bool) : M unit :=
  modify (set_commandMode enabled);;
  (if enabled then setAttribute "command-mode" else removeAttribute "command-mode");;
  updateThread.

(** [GuideantsChatState.getTurnCount]. *)
Definition getTurnCount (s : State) : Z := Z.of_nat (countUser (messages s)).

Definition goToTurn (turnIndex : Z) : M unit :=
  s ← get;
  if negb (DisplayMode_eqb (displayMode s) LastTurn) then mret tt
  else
    let maxTurn := getTurnCount s in
    if (turnIndex <? 1)%Z || (turnIndex >? maxTurn)%Z then mret tt
    else
      modify (set_activeTurnIndex (Some turnIndex));;
      updateThread;;
      dispatch "wf-turn-navigation" (TurnNavigationDetail turnIndex maxTurn).

Definition goToNextTurn : M unit :=
  s ← get;
  if negb (DisplayMode_eqb (displayMode s) LastTurn) then mret tt
  else
    let maxTurn := getTurnCount s in
    let currentTurn := match activeTurnIndex s with Some k => k | None => maxTurn end in
    when (currentTurn <? maxTurn)%Z (goToTurn (currentTurn + 1)).

Definition goToPreviousTurn : M unit :=
  s ← get;
  if negb (DisplayMode_eqb (displayMode s) LastTurn) then mret tt
  else
    let currentTurn :=
      match activeTurnIndex s with Some k => k | None => getTurnCount s end in
    when (currentTurn >? 1)%Z (goToTurn (currentTurn - 1)).

(** *** Sending *)

(** [GuideantsChatService.streamResponse]: the request, then each delivered
    event is handed to [handleSseEvent], then the promise settles. *)
Definition service_streamResponse (instructions : string)
  (atts : list PublishedAttachment) : M unit :=
  service_ensureResolvedIds;;
  s ← get;
  emit (Requested (StreamResponse instructions
          (if Nat.ltb 0 (length atts) then Some atts else None)
          (if Js.truthy (conversationContext s) then conversationContext s else None)));;
  out ← ask (streamAssistantMessage env);
  for_each (delivered out) handleSseEvent;;
  match failure out with
  | Some e => throw e
  | None => mret tt
  end.

(** [streamMessage]. *)
Definition streamMessage (instructions : string) (atts : list PublishedAttachment)
  : M unit :=
  ensureResolvedIds;;
  service_streamResponse instructions atts;;
  loadConversation;;
  dispatch "wf-complete" NoDetail.

(** The [finally] block shared by [performSend] and
    [submitExternalToolResults]. *)
Definition endStreaming : M unit :=
  modify (set_isStreaming false);;
  modify (set_streamingAssistantMessageId None);;
  modify (set_sanitizedMessageContent None);;
  updateThread.

(** The [catch] of an operation boundary: authentication errors apart, the
    message is shown and [eventType] dispatched with the error. *)
Definition surface (fallback eventType : string) (err : JsError) : M unit :=
  match err with
  | AuthenticationError c m r => handleAuthError c m r
  | OtherError _ =>
      showError (message_or err fallback);;
      dispatch eventType (ErrorDetail err)
  end.

(** The [try] block of [performSend] before [streamMessage]: the
    conversation is ensured, then the optimistic [User] message and the
    [Assistant] placeholder are pushed. *)
Definition performSend_optimistic (instructions : string)
  (allAttachments : list PublishedAttachment) : M unit :=
  ensureConversation;;
  modify (fun s => match inputEl s with
                   | Some _ => set_inputEl (Some EmptyString) s
                   | None => s
                   end);;
  now ← ask (Date_now env);
  created ← ask (Date_now env);
  modify (fun s => set_messages
    (messages s ++
       [{| id := ("temp-user-" ++ Js.string_of_Z now)%string; role := User;
           content := instructions; created := toISOString env created;
           isEdited := false; attachments := Some allAttachments |}]) s);;
  s ← get;
  when (DisplayMode_eqb (displayMode s) LastTurn) (modify (set_activeTurnIndex None));;
  pushAssistantPlaceholder;;
  updateThread.

(** The [try] block of [performSend]. *)
Definition performSend_try (instructions : string)
  (allAttachments : list PublishedAttachment) : M unit :=
  performSend_optimistic instructions allAttachments;;
  streamMessage instructions allAttachments.

(** The [catch] block of [performSend]. *)
Definition performSend_catch (pending : list PendingAttachment) (err : JsError)
  : M unit :=
  modify (fun s => set_messages (List.filter (fun m => negb (is_temp m)) (messages s)) s);;
  when (Nat.ltb 0 (length pending)) (modify (set_pendingAttachments pending));;
  surface "Request failed" "wf-error" err;;
  updateThread.

(** The two limits of the published guide that [performSend] checks. *)
Definition lengthExceeded (s : State) (instructions : string) : option Z :=
  match publishedGuideConfig s with
  | Some cfg =>
      match maxUserMessageLength cfg with
      | Some n =>
          if truthyZ (Some n) && (Z.of_nat (String.length instructions) >? n)%Z
          then Some n else None
      | None => None
      end
  | None => None
  end.

Definition turnsExhausted (s : State) : option Z :=
  match publishedGuideConfig s with
  | Some cfg =>
      match maxTurns cfg with
      | Some n => if truthyZ (Some n) && (getTurnCount s >=? n)%Z then Some n else None
      | None => None
      end
  | None => None
  end.

(** The reset with which [performSend] starts in command mode. *)
Definition resetForCommand : M unit :=
  modify (set_conversationId None);;
  modify (set_conversationContext None);;
  modify (set_messages []);;
  modify (set_authError None);;
  modify (set_activeTurnIndex None);;
  updateThread.

(** [performSend] from [ensureResolvedIds] to its last guard: [None] when it
    returned early, else the pending attachments it took and the attachments
    to send. *)
Definition performSend_limits (instructions : string)
  (given : option (list PublishedAttachment))
  : M (option (list PendingAttachment * list PublishedAttachment)) :=
  let normalizedAttachments := normalizeAttachments given in
  resolved ← try_catch (ensureResolvedIds;; mret true)
    (fun err =>
       match err with
       | AuthenticationError c m r => handleAuthError c m r
       | OtherError _ =>
           showError (message_or err "Failed to load published guide configuration")
       end;;
       mret false);
  if negb resolved then mret None
  else
    s2 ← get;
    let pending := pendingAttachments s2 in
    modify (set_pendingAttachments []);;
    let allAttachments :=
      (match normalizedAttachments with Some l => l | None => [] end ++
       map (fun p => {| notebookFileId := notebookFileId (published p);
                        uploadType := uploadType (published p);
                        fileName := Some (file_name p) |}) pending)%list in
    match lengthExceeded s2 instructions with
    | Some n =>
        showError ("Message exceeds maximum length of " ++ Js.string_of_Z n
                   ++ " characters")%string;;
        modify (set_pendingAttachments pending);;
        mret None
    | None =>
        match turnsExhausted s2 with
        | Some n =>
            showError ("This conversation has reached the maximum of "
                       ++ Js.string_of_Z n ++ " turns")%string;;
            mret None
        | None => mret (Some (pending, allAttachments))
        end
    end.

(** [performSend] up to its last guard. *)
Definition performSend_guards (instructions : string)
  (given : option (list PublishedAttachment))
  : M (option (list PendingAttachment * list PublishedAttachment)) :=
  s ← get;
  if negb (Js.truthy (pubId s)) then showError "Missing pub-id attribute";; mret None
  else
    when (collapsible s && isCollapsed s) expand;;
    s1 ← get;
    when (commandMode s1) resetForCommand;;
    performSend_limits instructions given.

(** [performSend] from [this.state.isStreaming = true] on: the
    [try] / [catch] / [finally] statement. *)
Definition performSend_stream (instructions : string)
  (pending : list PendingAttachment) (allAttachments : list PublishedAttachment)
  : M unit :=
  modify (set_isStreaming true);;
  dispatch "wf-stream-start" NoDetail;;
  finally
    (try_catch (performSend_try instructions allAttachments)
       (performSend_catch pending))
    endStreaming.

(** [performSend]. *)
Definition performSend (instructions : string)
  (given : option (list PublishedAttachment)) : M unit :=
  passed ← performSend_guards instructions given;
  match passed with
  | Some (pending, allAttachments) =>
      performSend_stream instructions pending allAttachments
  | None => mret tt
  end.

(** [sendMessageWithAttachments]. *)
Definition sendMessageWithAttachments (instructions : string)
  (atts : list PublishedAttachment) : M unit :=
  s ← get;
  if negb (attachmentsEnabled s)
  then throw (Error "Attachments are disabled on this component")
  else if isStreaming s then throw (Error "Cannot send a new message while streaming")
  else
    let trimmed := Js.trim instructions in
    if String.eqb trimmed EmptyString then throw (Error "Message content is required")
    else performSend trimmed (Some atts).

(** [onSend]: the send button and the Enter key. *)
Definition onSend : M unit :=
  s ← get;
  if negb (Js.truthy (pubId s)) then showError "Missing pub-id attribute"
  else
    let instructions := Js.trim (Js.or_else (inputEl s) EmptyString) in
    if String.eqb instructions EmptyString then mret tt
    else if isStreaming s then mret tt
    else if attachmentsEnabled s && attachmentProvider s then
      provided ← try_catch
        (emit AttachmentsAsked;;
         l ← await (callAttachmentProvider env);
         mret (Some (normalizeAttachments (Some l))))
        (fun err =>
           showError (message_or err "Failed to process attachments");;
           mret None);
      match provided with
      | Some atts => performSend instructions atts
      | None => mret tt
      end
    else performSend instructions None.

(** *** Undo and restart *)

(** [GuideantsChatService.deleteLastTurn]. *)
Definition service_deleteLastTurn : M DeleteResult :=
  s ← get;
  if negb (Js.truthy (conversationId s)) then mret NoneDeleted
  else
    service_ensureResolvedIds;;
    emit (Requested DeleteLastTurn);;
    await (deleteLastTurn env).

Definition onUndo : M unit :=
  s ← get;
  if commandMode s then mret tt
  else if isStreaming s || Nat.eqb (length (messages s)) 0 then mret tt
  else if negb (Js.truthy (conversationId s)) then mret tt
  else
    ensureResolvedIds;;
    try_catch
      (result ← service_deleteLastTurn;
       match result with
       | Conflict => showError "Cannot undo while conversation is streaming"
       | _ => loadConversation;; dispatch "wf-undo-complete" NoDetail
       end)
      (surface "Failed to undo" "wf-undo-error").

Definition onRestart : M unit :=
  s ← get;
  if commandMode s then mret tt
  else if isStreaming s then mret tt
  else
    clearConversation;;
    modify (fun s => match inputEl s with
                     | Some _ => set_inputEl (Some EmptyString) s
                     | None => s
                     end);;
    setInlineError None;;
    updateThread;;
    dispatch "wf-restart" NoDetail.

(** *** The Tool-Call Coordinator *)

Definition registerTool (toolName : string) (handler : ToolHandler) : M unit :=
  modify (fun s => set_toolRegistry (<[ toolName := handler ]> (toolRegistry s)) s).

(** [beginResumeStream]. *)
Definition beginResumeStream : M unit :=
  s ← get;
  if isStreaming s && Js.truthy (streamingAssistantMessageId s) then mret tt
  else
    modify (set_isStreaming true);;
    when (negb (Js.truthy (streamingAssistantMessageId s)))
      (pushAssistantPlaceholder;; updateThread).

(** [GuideantsChatService.submitToolResults]: the request to the resume
    endpoint, then each delivered event is handed to [handleSseEvent]. *)
Definition service_submitToolResults (results : list ToolResult) : M unit :=
  service_ensureResolvedIds;;
  emit (Requested (SubmitToolResults results));;
  out ← ask (resumeStream env);
  for_each (fst out) handleSseEvent;;
  match snd out with
  | Some t => throw (OtherError t)
  | None => mret tt
  end.

(** The first statements of the [try] block of [submitExternalToolResults]:
    the conversation is loaded and a placeholder pushed. *)
Definition openResumeSlot : M unit :=
  ensureConversation;;
  pushAssistantPlaceholder;;
  updateThread.

(** [submitExternalToolResults]. *)
Definition submitExternalToolResults (results : list ToolResult) : M unit :=
  s ← get;
  if Nat.eqb (length results) 0 then mret tt
  else if isStreaming s then mret tt
  else
    modify (set_isStreaming true);;
    dispatch "wf-stream-start" NoDetail;;
    finally
      (try_catch
         (openResumeSlot;;
          service_submitToolResults results;;
          loadConversation;;
          dispatch "wf-complete" NoDetail)
         (fun err => surface "Submit tool results failed" "wf-error" err;; updateThread))
      endStreaming.

(** The result pushed when a handler throws. *)
Definition errorResult (call : ToolCall) (toolName : string) (err : JsError)
  : ToolResult :=
  {| toolCallId := call_id call;
     name := toolName;
     result_content :=
       json_error_object (Js.or_else (err_message err) (err_toString err)) |}.

(** The loop of [handleRegisteredTools]; [results] is the array built so
    far. *)
Fixpoint runHandlers (calls : list ToolCall) (results : list ToolResult)
  : M (list ToolResult) :=
  match calls with
  | [] => mret results
  | call :: rest =>
      match toolName_of call with
      | Some toolName =>
          if negb (Js.truthy (Some toolName)) then runHandlers rest results
          else
            s ← get;
            match toolRegistry s !! toolName with
            | None => runHandlers rest results
            | Some handler =>
                let arg := {| hc_id := call_id call; hc_name := toolName;
                              hc_arguments := arguments_of call |} in
                emit (Invoked toolName arg);;
                match handler arg with
                | Resolves (Some result) => runHandlers rest (results ++ [result])
                | Resolves None => runHandlers rest results
                | Throws err => runHandlers rest (results ++ [errorResult call toolName err])
                end
            end
      | None => runHandlers rest results
      end
  end.

(** [handleRegisteredTools]. *)
Definition handleRegisteredTools (calls : list ToolCall) : M unit :=
  results ← runHandlers calls [];
  when (Nat.ltb 0 (length results)) (submitExternalToolResults results).

(** The task that [handleSseEvent] starts on [external_tool_call]:
    [handleRegisteredTools(toolCalls).catch(...)]. *)
Definition toolTask (calls : list ToolCall) : M unit :=
  try_catch (handleRegisteredTools calls)
    (fun err =>
       showError ("Tool execution error: "
                  ++ Js.or_else (err_message err) (err_toString err))%string;;
       dispatch "wf-error" (ErrorDetail err)).

(** *** The public control surface

    The operations of the component that act on the controller, the
    handlers of its buttons, and the task of the Tool-Call Coordinator. *)

Inductive Operation :=
| Send (instructions : string) (atts : list PublishedAttachment)
| ClickSend
| Undo
| Restart
| ClearConversation
| SetDisplayMode (mode : DisplayMode)
| GoToTurn (turnIndex : Z)
| GoToNextTurn
| GoToPreviousTurn
| SetCollapsible (enabled : bool)
| Collapse
| Expand
| ToggleCollapse
| SetCommandMode (enabled : bool)
| RegisterTool (toolName : string) (handler : ToolHandler)
| SubmitExternalToolResults (results : list ToolResult)
| BeginResumeStream
| IngestStreamEvent (eventType : string) (data : EventData)
| ToolTask (calls : list ToolCall).

Definition run (op : Operation) : M unit :=
  match op with
  | Send instructions atts => sendMessageWithAttachments instructions atts
  | ClickSend => onSend
  | Undo => onUndo
  | Restart => onRestart
  | ClearConversation => clearConversation
  | SetDisplayMode mode => setDisplayMode mode
  | GoToTurn k => goToTurn k
  | GoToNextTurn => goToNextTurn
  | GoToPreviousTurn => goToPreviousTurn
  | SetCollapsible enabled => setCollapsible enabled
  | Collapse => collapse
  | Expand => expand
  | ToggleCollapse => toggleCollapse
  | SetCommandMode enabled => setCommandMode enabled
  | RegisterTool toolName handler => registerTool toolName handler
  | SubmitExternalToolResults results => submitExternalToolResults results
  | BeginResumeStream => beginResumeStream
  | IngestStreamEvent eventType data => ingestStreamEvent eventType data
  | ToolTask calls => toolTask calls
  end.

End Controller.

(** ** Example states

    [new GuideantsChatState()] held by a new controller whose view has been
    rendered, and states built from it by assignments. *)

Definition initialState : State :=
  {| pubId := None; conversationId := None; projectId := None; notebookId := None;
     guideId := None; publishedGuideConfig := None; conversationStarters := [];
     publishedGuideAvatarUrl := None; conversationContext := None; messages := [];
     authError := None; inlineError := None; isStreaming := false;
     streamingAssistantMessageId := None; sanitizedMessageContent := None;
     displayMode := Full; enableTurnNavigation := false; activeTurnIndex := None;
     collapsible := false; isCollapsed := false; commandMode := false;
     conversationStartersEnabled := false; attachmentsEnabled := false;
     pendingAttachments := []; toolRegistry := ∅; streamEventCallback := false;
     contextProvider := false; attachmentProvider := false; hostAttributes := ∅;
     inputEl := Some EmptyString; threadEl := true |}.

Definition world_of (s : State) : World := {| ctl := s; effects := []; ticks := 0 |}.

(** A message as the server returns it. *)
Definition message_of (i : string) (r : Role) (c : string) : Message :=
  {| id := i; role := r; content := c; created := "2025-01-01T00:00:00.000Z";
     isEdited := false; attachments := None |}.

(** A state with a publication id whose guide ids have been resolved. *)
Definition resolvedState : State :=
  {| pubId := Some "pub"; conversationId := None; projectId := Some "project";
     notebookId := Some "notebook"; guideId := Some "guide";
     publishedGuideConfig := None; conversationStarters := [];
     publishedGuideAvatarUrl := None; conversationContext := None; messages := [];
     authError := None; inlineError := None; isStreaming := false;
     streamingAssistantMessageId := None; sanitizedMessageContent := None;
     displayMode := Full; enableTurnNavigation := false; activeTurnIndex := None;
     collapsible := false; isCollapsed := false; commandMode := false;
     conversationStartersEnabled := false; attachmentsEnabled := false;
     pendingAttachments := []; toolRegistry := ∅; streamEventCallback := false;
     contextProvider := false; attachmentProvider := false; hostAttributes := ∅;
     inputEl := Some EmptyString; threadEl := true |}.

(** Event data with one field set. *)
Definition no_data : EventData :=
  {| contentDelta := None; data_content := None; toolCalls := None; data_message := None |}.

Definition token_data (delta : string) : EventData :=
  {| contentDelta := Some delta; data_content := None; toolCalls := None;
     data_message := None |}.

Definition tool_call_data (calls : list ToolCall) : EventData :=
  {| contentDelta := None; data_content := None; toolCalls := Some calls;
     data_message := None |}.

Definition tool_call (i toolName : string) : ToolCall :=
  {| call_id := i;
     function := Some {| fn_name := Some toolName; fn_arguments := None |} |}.

(** A handler that answers, and one that throws. *)
Definition answering : ToolHandler := fun call =>
  Resolves (Some {| toolCallId := hc_id call; name := hc_name call;
                    result_content := "ok" |}).

Definition throwing : ToolHandler := fun _ => Throws (Error "boom").

(** A guide configuration with the given limits. *)
Definition guideConfig (maxLength maxTurnsAllowed : option Z) : PublishedGuideConfig :=
  {| cfg_projectId := "project"; cfg_notebookId := "notebook"; cfg_guideId := "guide";
     maxUserMessageLength := maxLength; maxTurns := maxTurnsAllowed;
     cfg_conversationStarters := None; cfg_displayMode := None; cfg_commandMode := None;
     showTurnNavigation := None; cfg_collapsible := None;
     showConversationStarters := None; showAttachments := None |}.

(** An environment whose requests all succeed with empty answers, at a
    clock that advances by one millisecond per reading. *)
Definition quietEnv : Env :=
  {| Date_now := fun n => (1700000000000 + Z.of_nat n)%Z;
     toISOString := fun t => Js.string_of_Z t;
     getPublishedGuideConfig := fun _ => Rejected (Error "HTTP 404");
     fetchAvatarUrl := fun _ => None;
     createConversation := fun _ => Ok "conversation-1";
     getConversation := fun _ => Ok [];
     deleteLastTurn := fun _ => Ok NoneDeleted;
     streamAssistantMessage := fun _ => {| delivered := []; failure := None |};
     resumeStream := fun _ => ([], None);
     callContextProvider := fun _ => Ok None;
     callAttachmentProvider := fun _ => Ok [] |}.

(** Stream events. *)
Definition token (delta : string) : StreamEvent :=
  {| evt_type := "token"; evt_data := token_data delta |}.

Definition complete : StreamEvent := {| evt_type := "complete"; evt_data := no_data |}.

(** The world in which [performSend] opens the stream of a first message
    [Hello]: the conversation has been started, the two optimistic messages
    pushed. *)
Definition openedWorld : World :=
  snd (performSend_optimistic quietEnv "Hello" []
         (world_of (set_isStreaming true resolvedState))).

Definition helloUser : Message :=
  {| id := "temp-user-1700000000003"; role := User; content := "Hello";
     created := "1700000000004"; isEdited := false; attachments := Some [] |}.

Definition helloAssistant : Message :=
  {| id := "temp-assistant-1700000000005"; role := Assistant; content := EmptyString;
     created := "1700000000006"; isEdited := false; attachments := None |}.

(** A service that streams [Hi], [ there], [complete] and then has the two
    messages in its history. *)
Definition helloEnv : Env :=
  {| Date_now := Date_now quietEnv;
     toISOString := toISOString quietEnv;
     getPublishedGuideConfig := getPublishedGuideConfig quietEnv;
     fetchAvatarUrl := fetchAvatarUrl quietEnv;
     createConversation := createConversation quietEnv;
     getConversation := fun n =>
       if Nat.ltb n 5 then Ok []
       else Ok [message_of "m1" User "Hello"; message_of "m2" Assistant "Hi there"];
     deleteLastTurn := deleteLastTurn quietEnv;
     streamAssistantMessage := fun _ =>
       {| delivered := [token "Hi"; token " there"; complete]; failure := None |};
     resumeStream := resumeStream quietEnv;
     callContextProvider := callContextProvider quietEnv;
     callAttachmentProvider := callAttachmentProvider quietEnv |}.

(** ** Definitions used in the statements *)

(** The turns once the loop of [groupMessagesIntoTurns] ends with the
    accumulator [acc]. *)
Definition close_turns (acc : list Turn * option Turn) : list Turn :=
  match snd acc with
  | Some t => fst acc ++ [t]
  | None => fst acc
  end.

(** The complete lines of a stream: those its reader has seen a line feed
    for. *)
Definition complete_lines (chunks : list string) : list string :=
  removelast (Js.split_lines (fold_right String.append EmptyString chunks)).

Definition no_line_feed (s : string) : Prop := Js.split_lines s = [s].

Definition line_feed : string := String Js.newline EmptyString.

(** [c] in front of the first line of [ls]. *)
Definition cons_first (c : ascii) (ls : list string) : list string :=
  match ls with
  | h :: t => String c h :: t
  | [] => [String c EmptyString]
  end.

(** The message of the error of a tool-call batch with missing handlers. *)
Definition missingHandlersMessage (missing : list string) : string :=
  "No handler registered for tool(s): " ++ Js.join ", " missing.

(** The message that [pushAssistantPlaceholder] pushes in the world [w]. *)
Definition placeholderId (env : Env) (w : World) : string :=
  "temp-assistant-" ++ Js.string_of_Z (Date_now env (ticks w)).

Definition placeholder (env : Env) (w : World) : Message :=
  {| id := placeholderId env w; role := Assistant; content := EmptyString;
     created := toISOString env (Date_now env (Datatypes.S (ticks w)));
     isEdited := false; attachments := None |}.

(** The guide ids that [ensureResolvedIds] wants are set. *)
Definition resolved (s : State) : Prop :=
  Js.truthy (projectId s) = true /\ Js.truthy (notebookId s) = true
  /\ Js.truthy (guideId s) = true.

(** The notifications of the view's rendering and of [expand]. *)
Definition turns_hidden (e : Effect) : Prop :=
  exists d, e = Dispatched "wf-turns-hidden" d.

Definition collapse_notification (e : Effect) : Prop :=
  e = Dispatched "wf-expanded" NoDetail \/ turns_hidden e.

(** The message list a send works on: in command mode [performSend] first
    empties it. *)
Definition sendList (s : State) : list Message :=
  if commandMode s then [] else messages s.

Definition maxTurnsMessage (n : Z) : string :=
  "This conversation has reached the maximum of " ++ Js.string_of_Z n ++ " turns".

(** ** A program logic for the controller

    [wp m Q w]: running [m] in the world [w] gives a result and a world that
    satisfy [Q]. *)
Definition wp {A : Type} (m : M A) (Q : Res A -> World -> Prop) (w : World) : Prop :=
  Q (fst (m w)) (snd (m w)).

(** [m] keeps the property [I] of worlds. *)
Definition keeps {A : Type} (I : World -> Prop) (m : M A) : Prop :=
  forall w, I w -> wp m (fun _ w1 => I w1) w.

(** The Stream Cursor as the code keeps it: while [isStreaming], there is a
    streaming message id. *)
Definition cursor_ok (w : World) : Prop :=
  isStreaming (ctl w) = true ->
  Js.truthy (streamingAssistantMessageId (ctl w)) = true.

(** The Stream Cursor is cleared. *)
Definition cursor_cleared (w : World) : Prop :=
  isStreaming (ctl w) = false /\ streamingAssistantMessageId (ctl w) = None.

(** The Stream Cursor invariant in the spec's words: the id is null exactly
    when [isStreaming] is false. *)
Definition spec_cursor_invariant (s : State) : Prop :=
  streamingAssistantMessageId s = None <-> isStreaming s = false.

(** A world in which the answer to [Hello] is streaming into its
    placeholder, with a handler registered for the tool [lookup]. *)
Definition streamingWorld : World :=
  world_of
    (set_toolRegistry {[ "lookup" := answering ]}
       (set_streamingAssistantMessageId (Some "temp-assistant-2")
          (set_isStreaming true
             (set_conversationId (Some "conversation-1")
                (set_messages [message_of "temp-user-1" User "Hello";
                               message_of "temp-assistant-2" Assistant "Let me look"]
                   resolvedState))))).

(** The argument that [handleRegisteredTools] passes to the handler of
    [call]. *)
Definition handlerCall (call : ToolCall) (toolName : string) : HandlerCall :=
  {| hc_id := call_id call; hc_name := toolName; hc_arguments := arguments_of call |}.

(** [call] names a tool that has a handler in [registry]. *)
Definition registered (registry : gmap string ToolHandler) (call : ToolCall) : Prop :=
  exists toolName handler,
    toolName_of call = Some toolName /\ Js.truthy (Some toolName) = true
    /\ registry !! toolName = Some handler.

(** The world [w] with [log] added to what the controller did. *)
Definition logging (log : list Effect) (w : World) : World :=
  {| ctl := ctl w; effects := effects w ++ log; ticks := ticks w |}.

(** What is left of the [try] block of [submitExternalToolResults] once the
    resume endpoint has answered with [out]: the events are handled, then
    the history is loaded. *)
Definition resumedStream (env : Env) (out : list StreamEvent * option Thrown) : M unit :=
  (for_each (fst out) (handleSseEvent env);;
   match snd out with
   | Some t => throw (OtherError t)
   | None => mret tt
   end);;
  loadConversation env;;
  dispatch "wf-complete" NoDetail.

(** The [catch] block of [submitExternalToolResults]. *)
Definition submitFailed (err : JsError) : M unit :=
  surface "Submit tool results failed" "wf-error" err;; updateThread.

(** The world in which [submitExternalToolResults] starts its [try] block. *)
Definition streamStarted (w : World) : World :=
  {| ctl := set_isStreaming true (ctl w);
     effects := effects w ++ [Dispatched "wf-stream-start" NoDetail];
     ticks := ticks w |}.

(** The world [w1] once the placeholder is pushed and made the streaming
    message. *)
Definition slotOpened (env : Env) (w1 : World) : State :=
  set_streamingAssistantMessageId (Some (placeholderId env w1))
    (set_messages (messages (ctl w1) ++ [placeholder env w1]) (ctl w1)).

(** Two registered tools, of which [paint] throws. *)
Definition twoTools : World :=
  world_of (set_toolRegistry {[ "lookup" := answering; "paint" := throwing ]}
              (set_conversationId (Some "conversation-1") resolvedState)).

(** The streaming world once an [external_tool_call] for [lookup] has been
    handled. *)
Definition toolCallWorld : World :=
  snd (run quietEnv
         (IngestStreamEvent "external_tool_call"
            (tool_call_data [tool_call "call-1" "lookup"]))
         streamingWorld).

Definition lookupResult : ToolResult :=
  {| toolCallId := "call-1"; name := "lookup"; result_content := "ok" |}.

(** A service that has the user's message in its history, and whose resumed
    stream delivers the token [Done] and then breaks. *)
Definition resumingEnv : Env :=
  {| Date_now := Date_now quietEnv;
     toISOString := toISOString quietEnv;
     getPublishedGuideConfig := getPublishedGuideConfig quietEnv;
     fetchAvatarUrl := fetchAvatarUrl quietEnv;
     createConversation := createConversation quietEnv;
     getConversation := fun _ => Ok [message_of "m1" User "Hello"];
     deleteLastTurn := deleteLastTurn quietEnv;
     streamAssistantMessage := streamAssistantMessage quietEnv;
     resumeStream := fun _ =>
       ([token "Done"], Some {| message := Some "network"; toString := "Error: network" |});
     callContextProvider := callContextProvider quietEnv;
     callAttachmentProvider := callAttachmentProvider quietEnv |}.

(** The streaming message at the re-entry of the event loop in the spec's
    words: the slot that exists, else the fresh placeholder. *)
Definition spec_resume_slot (s : State) (fresh : string) : option string :=
  if Js.truthy (streamingAssistantMessageId s) then streamingAssistantMessageId s
  else Some fresh.

(** The messages that are not optimistic ones: what the [catch] of
    [performSend] keeps. *)
Definition settled (ms : list Message) : list Message :=
  List.filter (fun m => negb (is_temp m)) ms.

(** The state in which [performSend] opens the stream, from the world [w1]
    in which the conversation is ensured. *)
Definition optimistic (env : Env) (instructions : string)
  (allAttachments : list PublishedAttachment) (w1 : World) : State :=
  let userMessage :=
    {| id := "temp-user-" ++ Js.string_of_Z (Date_now env (ticks w1)); role := User;
       content := instructions;
       created := toISOString env (Date_now env (Datatypes.S (ticks w1)));
       isEdited := false; attachments := Some allAttachments |} in
  let cleared :=
    match inputEl (ctl w1) with
    | Some _ => set_inputEl (Some EmptyString) (ctl w1)
    | None => ctl w1
    end in
  let pushed := set_messages (messages cleared ++ [userMessage])%list cleared in
  let turned :=
    if DisplayMode_eqb (displayMode pushed) LastTurn then set_activeTurnIndex None pushed
    else pushed in
  slotOpened env {| ctl := turned; effects := effects w1;
                    ticks := Datatypes.S (Datatypes.S (ticks w1)) |}.

(** While a send streams: the messages that are not optimistic ones are
    [kept], and the streaming message is an optimistic one. *)
Definition optimistic_only (kept : list Message) (w : World) : Prop :=
  settled (messages (ctl w)) = kept
  /\ forall i, streamingAssistantMessageId (ctl w) = Some i -> Js.startsWith "temp-" i = true.

(** The error [e] has been surfaced by the [catch] of a send. *)
Definition surfaced (e : JsError) (w : World) : Prop :=
  match e with
  | AuthenticationError c m r =>
      authError (ctl w) = Some (c, m) /\ inlineError (ctl w) = Some m
      /\ In (Dispatched "wf-auth-error" (AuthErrorDetail c m r)) (effects w)
  | OtherError _ =>
      inlineError (ctl w) = Some (message_or e "Request failed")
      /\ In (Dispatched "wf-error" (ErrorDetail e)) (effects w)
  end.

(** A program that never rejects. *)
Definition succeeds {A : Type} (m : M A) : Prop :=
  forall w, exists a, fst (m w) = Ok a.

(** The rollback in the spec's words: the list is as long as before the
    call. *)
Definition spec_rollback (before after : State) : Prop :=
  length (messages after) = length (messages before).

(** A service with the given history whose stream request rejects at
    once. *)
Definition failingEnv (history : list Message) : Env :=
  {| Date_now := Date_now quietEnv;
     toISOString := toISOString quietEnv;
     getPublishedGuideConfig := getPublishedGuideConfig quietEnv;
     fetchAvatarUrl := fetchAvatarUrl quietEnv;
     createConversation := createConversation quietEnv;
     getConversation := fun _ => Ok history;
     deleteLastTurn := deleteLastTurn quietEnv;
     streamAssistantMessage := fun _ =>
       {| delivered := []; failure := Some (Error "HTTP 500") |};
     resumeStream := resumeStream quietEnv;
     callContextProvider := callContextProvider quietEnv;
     callAttachmentProvider := callAttachmentProvider quietEnv |}.

(** The first turn of a conversation. *)
Definition firstTurn : list Message :=
  [message_of "m1" User "Hello"; message_of "m2" Assistant "Hi there"].

(** A component that shows the first turn, with the next message typed. *)
Definition talkWorld : World :=
  world_of
    (set_inputEl (Some "again")
       (set_conversationId (Some "conversation-1") (set_messages firstTurn resolvedState))).

(** The same component in command mode. *)
Definition commandWorld : World :=
  world_of (set_commandMode true (ctl talkWorld)).

(** Running the controller's programs: the monad's operations unfolded,
    then the fields of updated states read. *)
Ltac state_simpl :=
  cbn [fst snd ctl effects ticks negb andb orb is_some
       pubId conversationId projectId notebookId guideId publishedGuideConfig
       conversationStarters publishedGuideAvatarUrl conversationContext messages
       authError inlineError isStreaming streamingAssistantMessageId
       sanitizedMessageContent displayMode enableTurnNavigation activeTurnIndex
       collapsible isCollapsed commandMode conversationStartersEnabled attachmentsEnabled
       pendingAttachments toolRegistry streamEventCallback contextProvider
       attachmentProvider hostAttributes inputEl threadEl set_conversationId
       set_projectId set_notebookId set_guideId set_publishedGuideConfig
       set_conversationStarters set_publishedGuideAvatarUrl set_conversationContext
       set_messages set_authError set_inlineError set_isStreaming
       set_streamingAssistantMessageId set_sanitizedMessageContent set_displayMode
       set_enableTurnNavigation set_activeTurnIndex set_collapsible set_isCollapsed
       set_commandMode set_conversationStartersEnabled set_attachmentsEnabled
       set_pendingAttachments set_toolRegistry set_hostAttributes set_inputEl set_content].

Ltac mrun :=
  cbv [mbind M_bind mret M_ret get gets modify emit ask await throw try_catch finally
       when dispatch showError setInlineError];
  state_simpl.

(** * More of the view and the controller

    Functions of [GuideantsChatView], [GuideantsChatState] and
    [GuideantsChatController] beside those above, and the definitions used
    to state what they do. *)

(** ** The view ([GuideantsChatView], [GuideantsChatState]) *)

(** [GuideantsChatState.getCurrentTurnIndex]. *)
Definition getCurrentTurnIndex (s : State) : option Z :=
  if negb (DisplayMode_eqb (displayMode s) LastTurn) then None
  else Some (match activeTurnIndex s with Some k => k | None => getTurnCount s end).

(** What [updateTurnNavigation] shows: the indicator and the [disabled]
    flags of the four buttons. *)
Record TurnNav := {
  indicator : string;
  firstDisabled : bool;
  prevDisabled : bool;
  nextDisabled : bool;
  lastDisabled : bool
}.

(** [GuideantsChatView.updateTurnNavigation(totalTurns?)]: [None] when the
    navigation bar is absent or hidden. [isRecording] and [isTranscribing]
    are the speech flags of the state. *)
Definition updateTurnNavigation (turnNavEl isRecording isTranscribing : bool)
  (totalTurns : option Z) (s : State) : option TurnNav :=
  if negb turnNavEl then None
  else
    let effectiveTotalTurns :=
      match totalTurns with Some n => n | None => getTurnCount s end in
    let shouldShowNav :=
      DisplayMode_eqb (displayMode s) LastTurn && enableTurnNavigation s
      && (effectiveTotalTurns >? 1)%Z && negb (commandMode s) && negb (isCollapsed s)
      && negb (isStreaming s) && negb isRecording && negb isTranscribing in
    if shouldShowNav then
      let currentTurn :=
        match activeTurnIndex s with Some k => k | None => effectiveTotalTurns end in
      Some {| indicator := Js.string_of_Z currentTurn ++ " of "
                           ++ Js.string_of_Z effectiveTotalTurns;
              firstDisabled := (currentTurn <=? 1)%Z;
              prevDisabled := (currentTurn <=? 1)%Z;
              nextDisabled := (currentTurn >=? effectiveTotalTurns)%Z;
              lastDisabled := (currentTurn =? effectiveTotalTurns)%Z |}
    else None.

(** The [disabled] flags that [GuideantsChatView.updateButtons] gives the
    undo and the restart button. *)
Definition undoDisabled (s : State) : bool :=
  isStreaming s || Nat.eqb (length (messages s)) 0 || commandMode s.

Definition restartDisabled (s : State) : bool :=
  isStreaming s || commandMode s.

(** [renderAssistantTurn]: the filter that removes a message whose content
    is that of the next one. *)
Fixpoint uniqueAssistants (assistants : list Message) : list Message :=
  match assistants with
  | [] => []
  | msg :: rest =>
      match rest with
      | [] => [msg]
      | next :: _ =>
          if negb (String.eqb (content msg) (content next))
          then msg :: uniqueAssistants rest
          else uniqueAssistants rest
      end
  end.

Definition blank_line : string := String Js.newline (String Js.newline EmptyString).

(** [uniqueAssistants.map(m => m.content).filter(c => c != null &&
    c.trim() !== '').join('\n\n')]. *)
Definition mergedContent (assistants : list Message) : string :=
  Js.join blank_line
    (List.filter (fun c => negb (String.eqb (Js.trim c) EmptyString))
       (map content (uniqueAssistants assistants))).

(** The message that [renderAssistantTurn] renders for the [Assistant]
    messages [assistants] of a turn, of which [lastAssistant] is the last. *)
Definition mergedMessage (assistants : list Message) (lastAssistant : Message) : Message :=
  {| id := id lastAssistant; role := Assistant; content := mergedContent assistants;
     created := created lastAssistant; isEdited := isEdited lastAssistant;
     attachments := None |}.

(** ** The controller ([GuideantsChatController]) *)

(** [this.view.onTurnNav], as [bindViewEvents] sets it. *)
Inductive TurnNavAction := NavFirst | NavPrev | NavNext | NavLast.

Definition onTurnNav (action : TurnNavAction) : M unit :=
  match action with
  | NavFirst => goToTurn 1
  | NavPrev => goToPreviousTurn
  | NavNext => goToNextTurn
  | NavLast => modify (set_activeTurnIndex None);; updateThread
  end.

(** [testAuthentication]. *)
Definition testAuthentication (env : Env) : M PublishedGuideConfig :=
  s ← get;
  if negb (Js.truthy (pubId s))
  then throw (Error "pub-id must be set before testing authentication")
  else
    config ← service_fetchConfig env;
    modify (set_publishedGuideConfig (Some config));;
    avatarUrl ← service_fetchAvatarUrl env;
    modify (set_publishedGuideAvatarUrl avatarUrl);;
    initializeConversationStartersFromConfig;;
    mret config.

(** ** Definitions used in the statements *)

(** A [data: ] line and an [event: ] line of an event stream. *)
Definition data_line (payload : string) : string := "data: " ++ payload.
Definition event_line (type : string) : string := "event: " ++ type.

(** The type under which a [data: ] line is given to the callback. *)
Definition delivered_type (currentEventType : string) : string :=
  if String.eqb currentEventType EmptyString then "data" else currentEventType.

(** The callback called for the payload of one [data: ] line, if
    [JSON.parse] accepts it. *)
Definition deliver {D S : Type} (JSON_parse : string -> option D)
  (onEvent : string -> D -> S -> S) (type : string) (sigma : S) (payload : string) : S :=
  match JSON_parse payload with
  | Some parsed => onEvent (delivered_type type) parsed sigma
  | None => sigma
  end.

(** The bytes of a stream. *)
Definition stream_text (chunks : list string) : string :=
  fold_right String.append EmptyString chunks.

(** The active turn, when set, is one of the turns. *)
Definition nav_ok (s : State) : Prop :=
  match activeTurnIndex s with
  | Some k => (1 <= k <= getTurnCount s)%Z
  | None => True
  end.

(** The [wf-turns-hidden] notification of a rendering of the thread. *)
Definition turnsHiddenNotice (s : State) : list Effect :=
  let n := getTurnCount s in
  if threadEl s && negb (is_some (authError s))
     && DisplayMode_eqb (displayMode s) LastTurn && (1 <? n)%Z
  then [Dispatched "wf-turns-hidden"
          (TurnsHiddenDetail n (match activeTurnIndex s with Some k => k | None => n end)
             (n - 1))]
  else [].

(** No two neighbours have the same content. *)
Fixpoint no_repeat (ms : list Message) : Prop :=
  match ms with
  | [] => True
  | m :: rest =>
      match rest with
      | [] => True
      | next :: _ => content m <> content next /\ no_repeat rest
      end
  end.

(** The message of the error of a message over the length limit. *)
Definition maxLengthMessage (n : Z) : string :=
  "Message exceeds maximum length of " ++ Js.string_of_Z n ++ " characters".

(** An attachment as [normalizeAttachments] leaves it. *)
Definition normal_attachment (a : PublishedAttachment) : Prop :=
  notebookFileId a <> EmptyString /\ Js.trim (notebookFileId a) = notebookFileId a
  /\ fileName a = None.

(** The context that [ensureConversation] captures in the world [w] when it
    starts a conversation. *)
Definition capturedContext (env : Env) (w : World) : option string :=
  if contextProvider (ctl w) && negb (is_some (conversationContext (ctl w))) then
    match callContextProvider env (ticks w) with
    | Ok (Some r) =>
        if Nat.ltb 0 (String.length (Js.trim r)) then Some (Js.trim r) else None
    | _ => None
    end
  else conversationContext (ctl w).

(** The number of the turn that last-turn mode shows among [totalTurns]
    turns: the active turn if it is one of them, else the last. *)
Definition shownTurn (s : State) (totalTurns : Z) : Z :=
  match activeTurnIndex s with
  | Some k => if (1 <=? k)%Z && (k <=? totalTurns)%Z then k else totalTurns
  | None => totalTurns
  end.

(** The world after [goToTurn turnIndex] when it navigates. *)
Definition navigated (turnIndex : Z) (w : World) : World :=
  let s := set_activeTurnIndex (Some turnIndex) (ctl w) in
  {| ctl := s;
     effects := effects w ++ turnsHiddenNotice s
                ++ [Dispatched "wf-turn-navigation"
                      (TurnNavigationDetail turnIndex (getTurnCount (ctl w)))];
     ticks := ticks w |}.

(** Only a collapsible component is collapsed. *)
Definition collapsed_ok (s : State) : Prop :=
  isCollapsed s = true -> collapsible s = true.

(** The project and the notebook of the guide are known. *)
Definition ids_known (s : State) : bool :=
  Js.truthy (projectId s) && Js.truthy (notebookId s).

(** [initialize] has nothing to fetch, or nothing to fetch with. *)
Definition initialized (s : State) : bool :=
  Js.truthy (projectId s) && Js.truthy (notebookId s) && Js.truthy (guideId s)
  && is_some (publishedGuideConfig s).

(** The field [f] of the state has the value [a]. *)
Definition unchanged {A : Type} (f : State -> A) (a : A) (w : World) : Prop :=
  f (ctl w) = a.

(** ** Components used as examples *)

(** Two turns. *)
Definition twoTurns : list Message :=
  firstTurn ++ [message_of "m3" User "More"; message_of "m4" Assistant "Sure"].

(** A component in last-turn mode that shows the first of two turns, with
    the navigation bar. *)
Definition browsingWorld : World :=
  world_of
    (set_activeTurnIndex (Some 1%Z)
       (set_enableTurnNavigation true
          (set_displayMode LastTurn (set_messages twoTurns (ctl talkWorld))))).

(** The navigation bar of that component. *)
Definition browsingNav : TurnNav :=
  {| indicator := "1 of 2"; firstDisabled := true; prevDisabled := true;
     nextDisabled := false; lastDisabled := false |}.

(** A component whose guide allows messages of three characters. *)
Definition limitedWorld : World :=
  world_of (set_publishedGuideConfig (Some (guideConfig (Some 3%Z) None)) (ctl talkWorld)).

(** A tool whose handler resolves with no result. *)
Definition silentWorld : World :=
  world_of (set_toolRegistry {[ "lookup" := fun _ => Resolves None ]} resolvedState).

(** A [message] event with the content [c]. *)
Definition message_data (c : string) : EventData :=
  {| contentDelta := None; data_content := Some c; toolCalls := None; data_message := None |}.

Definition message_event (c : string) : StreamEvent :=
  {| evt_type := "message"; evt_data := message_data c |}.

(** The component of [talkWorld] after a [message] event has cached the
    content [Hi!]. *)
Definition overriddenWorld : World :=
  world_of (set_sanitizedMessageContent (Some "Hi!") (ctl talkWorld)).
(** * Properties *)

(** ** Turn grouping *)

Lemma groupMessagesIntoTurns_close (messages : list Message) :
  groupMessagesIntoTurns messages = close_turns (fold_left group_step messages ([], None)).
Proof.
  unfold groupMessagesIntoTurns, close_turns.
  destruct (fold_left group_step messages ([], None)) as [turns cur]; reflexivity.
Qed.

Lemma close_turns_count (messages : list Message) :
  forall acc,
    length (close_turns (fold_left group_step messages acc))
    = length (close_turns acc) + countUser messages.
Proof.
  unfold countUser.
  induction messages as [|m rest IH]; intros [turns cur]; simpl.
  - lia.
  - rewrite IH. unfold group_step, isUser.
    destruct (role m); destruct cur; unfold close_turns; simpl;
      rewrite ?length_app; simpl; lia.
Qed.

Lemma turns_concat_app (a b : list Turn) :
  turns_concat (a ++ b) = turns_concat a ++ turns_concat b.
Proof. unfold turns_concat. apply flat_map_app. Qed.

Lemma close_turns_concat (messages : list Message) :
  forall turns cur,
    turns_concat (close_turns (fold_left group_step messages (turns, cur)))
    = turns_concat (close_turns (turns, cur))
      ++ List.filter in_turn_role
           (match cur with Some _ => messages | None => from_first_user messages end).
Proof.
  induction messages as [|m rest IH]; intros turns cur.
  - destruct cur; simpl; rewrite app_nil_r; reflexivity.
  - cbn [fold_left from_first_user List.filter].
    assert (Hkeep : in_turn_role m = isUser m || isAssistant m) by reflexivity.
    unfold group_step. unfold isUser, isAssistant in *.
    destruct (role m) eqn:Hrole; destruct cur as [t|]; cbn [Role_eqb orb] in *;
      rewrite IH; cbn [List.filter]; rewrite ?Hkeep;
      unfold close_turns; cbn [fst snd];
      rewrite ?turns_concat_app; unfold turns_concat; cbn [flat_map];
      unfold turn_messages; cbn [user assistants]; rewrite ?app_nil_r, <- ?app_assoc;
      cbn [app]; reflexivity.
Qed.

Lemma filter_all (A : Type) (p : A -> bool) (l : list A) :
  Forall (fun x => p x = true) l -> List.filter p l = l.
Proof.
  induction 1 as [|x xs Hx _ IH]; simpl; [reflexivity|].
  rewrite Hx, IH; reflexivity.
Qed.

Lemma spec_drop_is_from_first_user (messages : list Message) :
  Forall (fun m => in_turn_role m = true) messages ->
  List.filter in_turn_role (from_first_user messages) = spec_drop_leading_assistants messages.
Proof.
  induction 1 as [|m rest Hm Hrest IH]; [reflexivity|].
  cbn [from_first_user spec_drop_leading_assistants].
  unfold in_turn_role in Hm. unfold isUser, isAssistant in *.
  destruct (role m) eqn:Hrole; cbn [Role_eqb orb] in *; try discriminate.
  - apply filter_all. constructor; [|exact Hrest].
    unfold in_turn_role, isUser. rewrite Hrole. reflexivity.
  - exact IH.
Qed.

Lemma turns_count_groupMessagesIntoTurns (messages : list Message) :
  length (groupMessagesIntoTurns messages) = countUser messages.
Proof. rewrite groupMessagesIntoTurns_close, close_turns_count. reflexivity. Qed.

Lemma turns_concat_groupMessagesIntoTurns (messages : list Message) :
  turns_concat (groupMessagesIntoTurns messages)
  = List.filter in_turn_role (from_first_user messages).
Proof. rewrite groupMessagesIntoTurns_close, close_turns_concat. reflexivity. Qed.

(** C4 (as amended). The number of turns is the number of [User] messages,
    and the turns' messages, concatenated in order, are the [User] and
    [Assistant] messages from the first [User] message on, in their original
    order: messages before the first [User] message, and [System] and [Tool]
    messages anywhere, are in no turn. *)
Theorem turn_grouping (messages : list Message) :
  length (groupMessagesIntoTurns messages) = countUser messages
  /\ turns_concat (groupMessagesIntoTurns messages)
     = List.filter in_turn_role (from_first_user messages).
Proof.
  split.
  - apply turns_count_groupMessagesIntoTurns.
  - apply turns_concat_groupMessagesIntoTurns.
Qed.

(** When every message is a [User] or an [Assistant] message, the
    concatenation is the original list without its leading [Assistant]
    messages. *)
Corollary turn_grouping_two_roles (messages : list Message) :
  Forall (fun m => in_turn_role m = true) messages ->
  turns_concat (groupMessagesIntoTurns messages) = spec_drop_leading_assistants messages.
Proof.
  intros H. rewrite turns_concat_groupMessagesIntoTurns.
  apply spec_drop_is_from_first_user, H.
Qed.

(** C4 as stated fails: a [Tool] message between a [User] message and its
    [Assistant] answer is in no turn, so the concatenation is not the
    original list without its leading [Assistant] messages. *)
Lemma turn_grouping_drops_tool_messages :
  let m r c := {| id := c; role := r; content := c; created := EmptyString;
                  isEdited := false; attachments := None |} in
  let messages := [m User "q"; m Tool "t"; m Assistant "a"] in
  turns_concat (groupMessagesIntoTurns messages) = [m User "q"; m Assistant "a"]
  /\ spec_drop_leading_assistants messages = messages
  /\ turns_concat (groupMessagesIntoTurns messages)
     <> spec_drop_leading_assistants messages.
Proof.
  cbv zeta. split; [reflexivity|]. split; [reflexivity|].
  intros H. vm_compute in H. discriminate H.
Qed.

(** ** Turn navigation *)



(** ** The rules of the program logic *)

Local Open Scope string_scope.

Section Rules.
Context {A B : Type}.

Lemma wp_ret (a : A) (Q : Res A -> World -> Prop) (w : World) :
  Q (Ok a) w -> wp (mret a) Q w.
Proof. exact (fun H => H). Qed.

Lemma wp_bind (m : M A) (f : A -> M B) (Q : Res B -> World -> Prop) (w : World) :
  wp m (fun r w1 => match r with
                    | Ok a => wp (f a) Q w1
                    | Rejected e => Q (Rejected e) w1
                    end) w ->
  wp (m ≫= f) Q w.
Proof.
  unfold wp, mbind, M_bind. destruct (m w) as [[a|e] w1]; exact (fun H => H).
Qed.

Lemma wp_throw (e : JsError) (Q : Res A -> World -> Prop) (w : World) :
  Q (Rejected e) w -> wp (throw e) Q w.
Proof. exact (fun H => H). Qed.

Lemma wp_gets (f : State -> A) (Q : Res A -> World -> Prop) (w : World) :
  Q (Ok (f (ctl w))) w -> wp (gets f) Q w.
Proof. exact (fun H => H). Qed.

Lemma wp_ask (f : nat -> A) (Q : Res A -> World -> Prop) (w : World) :
  Q (Ok (f (ticks w)))
    {| ctl := ctl w; effects := effects w; ticks := Datatypes.S (ticks w) |} ->
  wp (ask f) Q w.
Proof. exact (fun H => H). Qed.

Lemma wp_await (f : nat -> Res A) (Q : Res A -> World -> Prop) (w : World) :
  Q (f (ticks w))
    {| ctl := ctl w; effects := effects w; ticks := Datatypes.S (ticks w) |} ->
  wp (await f) Q w.
Proof. exact (fun H => H). Qed.

Lemma wp_try_catch (m : M A) (h : JsError -> M A) (Q : Res A -> World -> Prop)
  (w : World) :
  wp m (fun r w1 => match r with
                    | Ok a => Q (Ok a) w1
                    | Rejected e => wp (h e) Q w1
                    end) w ->
  wp (try_catch m h) Q w.
Proof.
  unfold wp, try_catch. destruct (m w) as [[a|e] w1]; exact (fun H => H).
Qed.

Lemma wp_finally (m : M A) (f : M unit) (Q : Res A -> World -> Prop) (w : World) :
  wp m (fun r w1 => wp f (fun r2 w2 => match r2 with
                                       | Ok _ => Q r w2
                                       | Rejected e => Q (Rejected e) w2
                                       end) w1) w ->
  wp (finally m f) Q w.
Proof.
  unfold wp, finally. destruct (m w) as [r w1]. cbn [fst snd].
  destruct (f w1) as [[u|e] w2]; exact (fun H => H).
Qed.

Lemma wp_mono (m : M A) (Q Q' : Res A -> World -> Prop) (w : World) :
  wp m Q w -> (forall r w1, Q r w1 -> Q' r w1) -> wp m Q' w.
Proof. unfold wp. intros H HQ. apply HQ, H. Qed.

End Rules.

Lemma wp_get (Q : Res State -> World -> Prop) (w : World) :
  Q (Ok (ctl w)) w -> wp get Q w.
Proof. exact (fun H => H). Qed.

Lemma wp_modify (f : State -> State) (Q : Res unit -> World -> Prop) (w : World) :
  Q (Ok tt) {| ctl := f (ctl w); effects := effects w; ticks := ticks w |} -> wp (modify f) Q w.
Proof. exact (fun H => H). Qed.

Lemma wp_emit (e : Effect) (Q : Res unit -> World -> Prop) (w : World) :
  Q (Ok tt) {| ctl := ctl w; effects := (effects w ++ [e])%list; ticks := ticks w |} ->
  wp (emit e) Q w.
Proof. exact (fun H => H). Qed.

Lemma wp_dispatch (type : string) (d : Detail) (Q : Res unit -> World -> Prop) (w : World) :
  Q (Ok tt)
    {| ctl := ctl w; effects := (effects w ++ [Dispatched type d])%list;
       ticks := ticks w |} ->
  wp (dispatch type d) Q w.
Proof. exact (fun H => H). Qed.

Lemma wp_setInlineError (msg : option string) (Q : Res unit -> World -> Prop) (w : World) :
  Q (Ok tt)
    {| ctl := set_inlineError msg (ctl w); effects := effects w; ticks := ticks w |} ->
  wp (setInlineError msg) Q w.
Proof. exact (fun H => H). Qed.

Lemma wp_showError (msg : string) (Q : Res unit -> World -> Prop) (w : World) :
  Q (Ok tt)
    {| ctl := set_inlineError (Some msg) (ctl w); effects := effects w;
       ticks := ticks w |} ->
  wp (showError msg) Q w.
Proof. exact (fun H => H). Qed.

Lemma wp_when (b : bool) (m : M unit) (Q : Res unit -> World -> Prop) (w : World) :
  (if b then wp m Q w else Q (Ok tt) w) -> wp (when b m) Q w.
Proof. destruct b; exact (fun H => H). Qed.

Lemma wp_eq {A : Type} (m : M A) (Q : Res A -> World -> Prop) (w : World) r w1 :
  m w = (r, w1) -> Q r w1 -> wp m Q w.
Proof. unfold wp. intros ->. exact (fun H => H). Qed.


Ltac wp_step :=
  lazymatch goal with
  | |- wp (mbind _ _) _ _ => apply wp_bind
  | |- wp (mret _) _ _ => apply wp_ret
  | |- wp get _ _ => apply wp_get
  | |- wp (gets _) _ _ => apply wp_gets
  | |- wp (modify _) _ _ => apply wp_modify
  | |- wp (emit _) _ _ => apply wp_emit
  | |- wp (dispatch _ _) _ _ => apply wp_dispatch
  | |- wp (showError _) _ _ => apply wp_showError
  | |- wp (setInlineError _) _ _ => apply wp_setInlineError
  | |- wp (throw _) _ _ => apply wp_throw
  | |- wp (ask _) _ _ => apply wp_ask
  | |- wp (await _) _ _ => apply wp_await
  | |- wp (try_catch _ _) _ _ => apply wp_try_catch
  | |- wp (finally _ _) _ _ => apply wp_finally
  | |- wp (when _ _) _ _ => apply wp_when
  end; cbv beta iota; state_simpl.

Ltac wp_steps := repeat wp_step.

(** ** The view's and the configuration's steps *)

Lemma updateThread_run (w : World) :
  exists extra,
    updateThread w = (Ok tt, {| ctl := ctl w; effects := effects w ++ extra; ticks := ticks w |})
    /\ Forall turns_hidden extra.
Proof.
  unfold updateThread. mrun.
  assert (Hnil : (Ok tt, w)
                 = (Ok tt, {| ctl := ctl w; effects := effects w ++ []; ticks := ticks w |})).
  { rewrite app_nil_r. destruct w; reflexivity. }
  destruct (threadEl (ctl w)); cbn [negb]; [|exists []; split; [exact Hnil|constructor]].
  destruct (authError (ctl w)); cbn [is_some]; [exists []; split; [exact Hnil|constructor]|].
  destruct (length (messages (ctl w)) =? 0)%nat; [exists []; split; [exact Hnil|constructor]|].
  match goal with |- context [if ?c then _ else _] => destruct c end.
  - eexists [_]. split; [reflexivity|]. constructor; [|constructor]. eexists. reflexivity.
  - exists []; split; [exact Hnil|constructor].
Qed.

Lemma updateThread_no_messages (w : World) :
  messages (ctl w) = [] -> updateThread w = (Ok tt, w).
Proof.
  intros H. unfold updateThread. mrun. rewrite H.
  destruct (threadEl (ctl w)); [|reflexivity].
  destruct (authError (ctl w)); reflexivity.
Qed.

Lemma ensureResolvedIds_resolved (env : Env) (w : World) :
  resolved (ctl w) -> ensureResolvedIds env w = (Ok tt, w).
Proof.
  intros (Hp & Hn & Hg). unfold ensureResolvedIds. mrun. rewrite Hp, Hn, Hg. reflexivity.
Qed.

Lemma wp_updateThread (Q : Res unit -> World -> Prop) (w : World) :
  (forall extra, Forall turns_hidden extra ->
     Q (Ok tt) {| ctl := ctl w; effects := (effects w ++ extra)%list; ticks := ticks w |}) ->
  wp updateThread Q w.
Proof.
  intros H. destruct (updateThread_run w) as (extra & Hrun & Hextra).
  eapply wp_eq; [exact Hrun|]. apply H, Hextra.
Qed.

Lemma wp_updateThread_no_messages (Q : Res unit -> World -> Prop) (w : World) :
  messages (ctl w) = [] -> Q (Ok tt) w -> wp updateThread Q w.
Proof.
  intros Hm H. eapply wp_eq; [apply updateThread_no_messages, Hm|exact H].
Qed.

Lemma wp_ensureResolvedIds_resolved (env : Env) (Q : Res unit -> World -> Prop) (w : World) :
  resolved (ctl w) -> Q (Ok tt) w -> wp (ensureResolvedIds env) Q w.
Proof.
  intros Hr H. eapply wp_eq; [apply ensureResolvedIds_resolved, Hr|exact H].
Qed.

Lemma wp_expand (Q : Res unit -> World -> Prop) (w : World) :
  (if collapsible (ctl w)
   then forall extra, Forall collapse_notification extra ->
          Q (Ok tt) {| ctl := set_isCollapsed false (ctl w);
                       effects := (effects w ++ extra)%list; ticks := ticks w |}
   else Q (Ok tt) w) ->
  wp expand Q w.
Proof.
  intros H. unfold expand. wp_steps.
  destruct (collapsible (ctl w)); state_simpl; [|wp_steps; exact H].
  wp_steps. apply wp_updateThread. intros extra Hextra. state_simpl. wp_steps.
  rewrite <- app_assoc. apply H. apply Forall_app. split.
  - eapply Forall_impl; [exact Hextra|]. intros e He. right. exact He.
  - constructor; [left; reflexivity|constructor].
Qed.

(** ** Properties that programs keep *)

Lemma wp_trivial {A : Type} (m : M A) (w : World) : wp m (fun _ _ => True) w.
Proof. exact I. Qed.

Lemma wp_keeps {A : Type} (I : World -> Prop) (m : M A) (Q : Res A -> World -> Prop)
  (w : World) :
  keeps I m -> I w -> (forall r w1, I w1 -> Q r w1) -> wp m Q w.
Proof. intros Hk Hw HQ. eapply wp_mono; [apply Hk, Hw|]. intros r w1. apply HQ. Qed.

Lemma brings_about_keeps {A : Type} (I : World -> Prop) (m : M A) :
  (forall w, wp m (fun _ w1 => I w1) w) -> keeps I m.
Proof. intros H w _. apply H. Qed.

Section Keeps.
Context (I : World -> Prop).

Lemma keeps_ret {A : Type} (a : A) : keeps I (mret a).
Proof. intros w Hw. exact Hw. Qed.

Lemma keeps_throw {A : Type} (e : JsError) : keeps I (throw (A := A) e).
Proof. intros w Hw. exact Hw. Qed.

Lemma keeps_gets {A : Type} (f : State -> A) : keeps I (gets f).
Proof. intros w Hw. exact Hw. Qed.

Lemma keeps_get : keeps I get.
Proof. intros w Hw. exact Hw. Qed.

Lemma keeps_bind {A B : Type} (m : M A) (f : A -> M B) :
  keeps I m -> (forall a, keeps I (f a)) -> keeps I (m ≫= f).
Proof.
  intros Hm Hf w Hw. apply wp_bind. eapply wp_mono; [apply Hm, Hw|].
  intros [a|e] w1 Hw1; [apply Hf, Hw1|exact Hw1].
Qed.

Lemma keeps_try_catch {A : Type} (m : M A) (h : JsError -> M A) :
  keeps I m -> (forall e, keeps I (h e)) -> keeps I (try_catch m h).
Proof.
  intros Hm Hh w Hw. apply wp_try_catch. eapply wp_mono; [apply Hm, Hw|].
  intros [a|e] w1 Hw1; [exact Hw1|apply Hh, Hw1].
Qed.

Lemma keeps_finally {A : Type} (m : M A) (f : M unit) :
  keeps I m -> keeps I f -> keeps I (finally m f).
Proof.
  intros Hm Hf w Hw. apply wp_finally. eapply wp_mono; [apply Hm, Hw|].
  intros r w1 Hw1. eapply wp_mono; [apply Hf, Hw1|].
  intros [u|e] w2 Hw2; exact Hw2.
Qed.

(** A [finally] block that brings [I] about, whatever happened before. *)
Lemma finally_brings_about {A : Type} (m : M A) (f : M unit) (w : World) :
  (forall w1, wp f (fun _ w2 => I w2) w1) -> wp (finally m f) (fun _ w2 => I w2) w.
Proof.
  intros Hf. apply wp_finally. eapply wp_mono; [exact (wp_trivial m w)|].
  intros r w1 _. eapply wp_mono; [apply Hf|].
  intros [u|e] w2 Hw2; exact Hw2.
Qed.

Lemma keeps_when (b : bool) (m : M unit) : keeps I m -> keeps I (when b m).
Proof. intros Hm. destruct b; [exact Hm|apply keeps_ret]. Qed.

Lemma keeps_for_each {A : Type} (body : A -> M unit) (xs : list A) :
  (forall x, keeps I (body x)) -> keeps I (for_each xs body).
Proof.
  intros Hbody. induction xs as [|x xs IH]; cbn [for_each].
  - apply keeps_ret.
  - apply keeps_bind; [apply Hbody|intros _; exact IH].
Qed.

Lemma keeps_modify (f : State -> State) :
  (forall w, I w -> I {| ctl := f (ctl w); effects := effects w; ticks := ticks w |}) ->
  keeps I (modify f).
Proof. intros H w Hw. apply wp_modify, H, Hw. Qed.

Lemma keeps_emit (e : Effect) :
  (forall w, I w -> I {| ctl := ctl w; effects := (effects w ++ [e])%list; ticks := ticks w |}) ->
  keeps I (emit e).
Proof. intros H w Hw. apply wp_emit, H, Hw. Qed.

Lemma keeps_ask {A : Type} (f : nat -> A) :
  (forall w, I w -> I {| ctl := ctl w; effects := effects w; ticks := Datatypes.S (ticks w) |}) ->
  keeps I (ask f).
Proof. intros H w Hw. apply wp_ask, H, Hw. Qed.

Lemma keeps_await {A : Type} (f : nat -> Res A) :
  (forall w, I w -> I {| ctl := ctl w; effects := effects w; ticks := Datatypes.S (ticks w) |}) ->
  keeps I (await f).
Proof. intros H w Hw. apply wp_await, H, Hw. Qed.

End Keeps.

Create HintDb keeps discriminated.

(** The side condition of a primitive: the property of the updated world
    from that of the world. *)
Ltac head_of t :=
  lazymatch t with
  | ?f _ => head_of f
  | _ => t
  end.

Ltac keeps_side :=
  let w := fresh "w" in let H := fresh "H" in
  intros w H;
  first [ exact H
        | lazymatch goal with |- ?G => let I := head_of G in unfold I in H |- * end;
          state_simpl;
          first [ exact H | intros _; reflexivity | intro; discriminate
                | match goal with
                  | |- context [match ?x with _ => _ end] => destruct x
                  end; state_simpl; exact H ] ].

Ltac keeps_go :=
  cbv zeta;
  lazymatch goal with
  | |- keeps _ (mbind _ _) => apply keeps_bind; [ keeps_go | intro; keeps_go ]
  | |- keeps _ (mret _) => apply keeps_ret
  | |- keeps _ (throw _) => apply keeps_throw
  | |- keeps _ get => apply keeps_get
  | |- keeps _ (gets _) => apply keeps_gets
  | |- keeps _ (modify _) => apply keeps_modify; keeps_side
  | |- keeps _ (setInlineError _) => apply keeps_modify; keeps_side
  | |- keeps _ (showError _) => apply keeps_modify; keeps_side
  | |- keeps _ (emit _) => apply keeps_emit; keeps_side
  | |- keeps _ (dispatch _ _) => apply keeps_emit; keeps_side
  | |- keeps _ (ask _) => apply keeps_ask; keeps_side
  | |- keeps _ (await _) => apply keeps_await; keeps_side
  | |- keeps _ (try_catch _ _) => apply keeps_try_catch; [ keeps_go | intro; keeps_go ]
  | |- keeps _ (finally _ _) => apply keeps_finally; [ keeps_go | keeps_go ]
  | |- keeps _ (when _ _) => apply keeps_when; keeps_go
  | |- keeps _ (for_each _ _) => apply keeps_for_each; intro; keeps_go
  | |- keeps _ (if ?c then _ else _) => destruct c; keeps_go
  | |- keeps _ (match ?x with _ => _ end) => destruct x; keeps_go
  | |- keeps _ _ => solve [ auto with keeps ]
  end.


(** ** Tool calls without a handler *)

Lemma missingHandlers_In (registry : gmap string ToolHandler) (calls : list ToolCall)
  (toolName : string) :
  In toolName (missingHandlers registry calls) <->
  exists call, In call calls /\ toolName_of call = Some toolName
               /\ toolName <> EmptyString /\ registry !! toolName = None.
Proof.
  unfold missingHandlers. rewrite in_flat_map. split.
  - intros [call [Hin Hn]]. exists call. split; [exact Hin|].
    destruct (toolName_of call) as [n|]; [|destruct Hn].
    unfold Js.truthy in Hn.
    destruct (String.eqb n EmptyString) eqn:He; cbn in Hn; [destruct Hn|].
    destruct (registry !! n) eqn:Hr; cbn in Hn; [destruct Hn|].
    destruct Hn as [<-|[]]. apply String.eqb_neq in He. auto.
  - intros [call [Hin [Hn [Hne Hr]]]]. exists call. split; [exact Hin|].
    rewrite Hn. unfold Js.truthy. apply String.eqb_neq in Hne. rewrite Hne, Hr.
    cbn. auto.
Qed.

(** C1. When an [external_tool_call] event asks for a tool that has no
    registered handler, the interpreter only sets [isStreaming] to false,
    shows the error that names the missing tools and dispatches it as
    [wf-error]: the effect log gains nothing else, so no handler is invoked,
    no task is started and nothing is sent to the service. *)
Theorem missing_handler_aborts (env : Env) (w : World) (data : EventData)
  (calls : list ToolCall) (call : ToolCall) (toolName : string) :
  toolCalls data = Some calls ->
  In call calls ->
  toolName_of call = Some toolName ->
  toolName <> EmptyString ->
  toolRegistry (ctl w) !! toolName = None ->
  let missing := missingHandlers (toolRegistry (ctl w)) calls in
  In toolName missing
  /\ handleSseEvent env {| evt_type := "external_tool_call"; evt_data := data |} w
     = (Ok tt,
        {| ctl := set_inlineError (Some (missingHandlersMessage missing))
                    (set_isStreaming false (ctl w));
           effects := effects w
                      ++ [Dispatched "wf-error"
                            (ErrorDetail (Error (missingHandlersMessage missing)))];
           ticks := ticks w |}).
Proof.
  intros Hcalls Hin Hname Hne Hreg missing.
  assert (Hmiss : In toolName missing).
  { apply missingHandlers_In. exists call. auto. }
  split; [exact Hmiss|].
  unfold handleSseEvent, on_external_tool_call.
  cbn [evt_type evt_data String.eqb Ascii.eqb Bool.eqb].
  rewrite Hcalls. destruct calls as [|c0 cs]; [destruct Hin|].
  mrun. cbn [negb length Nat.eqb]. mrun. fold missing.
  destruct missing as [|n0 ns] eqn:Hm; [destruct Hmiss|].
  cbn [length Nat.ltb Nat.leb]. reflexivity.
Qed.

(** Two requested calls, of which only [lookup] has a handler, while a
    message is streaming. *)
Lemma missing_handler_aborts_witness :
  let w := world_of (set_toolRegistry {[ "lookup" := answering ]}
                       (set_isStreaming true resolvedState)) in
  let calls := [tool_call "call-1" "lookup"; tool_call "call-2" "paint"] in
  handleSseEvent quietEnv
    {| evt_type := "external_tool_call"; evt_data := tool_call_data calls |} w
  = (Ok tt,
     {| ctl := set_inlineError (Some "No handler registered for tool(s): paint")
                 (set_isStreaming false (ctl w));
        effects := [Dispatched "wf-error"
                      (ErrorDetail (Error "No handler registered for tool(s): paint"))];
        ticks := 0 |}).
Proof.
  cbv zeta.
  exact (proj2 (missing_handler_aborts quietEnv
    (world_of (set_toolRegistry {[ "lookup" := answering ]}
                 (set_isStreaming true resolvedState)))
    (tool_call_data [tool_call "call-1" "lookup"; tool_call "call-2" "paint"])
    [tool_call "call-1" "lookup"; tool_call "call-2" "paint"]
    (tool_call "call-2" "paint") "paint"
    eq_refl (or_intror (or_introl eq_refl)) eq_refl
    ltac:(discriminate) ltac:(vm_compute; reflexivity))).
Defined.

(** ** Reading an event stream *)

Local Open Scope string_scope.

Lemma split_lines_nonempty (s : string) : Js.split_lines s <> [].
Proof.
  destruct s as [|c r]; simpl; [discriminate|].
  destruct (Ascii.eqb c Js.newline); [discriminate|].
  destruct (Js.split_lines r); discriminate.
Qed.

Lemma split_lines_String (c : ascii) (r : string) :
  Js.split_lines (String c r)
  = if Ascii.eqb c Js.newline then EmptyString :: Js.split_lines r
    else cons_first c (Js.split_lines r).
Proof. reflexivity. Qed.

Lemma removelast_cons_first (c : ascii) (ls : list string) :
  ls <> [] ->
  removelast (cons_first c ls)
  = match removelast ls with
    | [] => []
    | _ => cons_first c (removelast ls)
    end.
Proof.
  destruct ls as [|h [|h' t]]; intros H; [congruence| reflexivity | reflexivity].
Qed.

Lemma split_lines_app (x y : string) :
  Js.split_lines (x ++ y)
  = (removelast (Js.split_lines x)
     ++ Js.split_lines (List.last (Js.split_lines x) EmptyString ++ y))%list.
Proof.
  induction x as [|c x IH]; [reflexivity|].
  change (String c x ++ y) with (String c (x ++ y)).
  rewrite !split_lines_String.
  pose proof (split_lines_nonempty x) as Hne.
  destruct (Ascii.eqb c Js.newline) eqn:Hc.
  - rewrite IH. destruct (Js.split_lines x) as [|h t]; [congruence|]. reflexivity.
  - rewrite IH. destruct (Js.split_lines x) as [|h [|h' t]]; [congruence| |].
    + cbn [removelast List.last cons_first app].
      change (String c h ++ y) with (String c (h ++ y)).
      rewrite split_lines_String, Hc. reflexivity.
    + reflexivity.
Qed.

Lemma last_split_lines_no_line_feed (x : string) :
  no_line_feed (List.last (Js.split_lines x) EmptyString).
Proof.
  unfold no_line_feed.
  induction x as [|c x IH]; [reflexivity|].
  rewrite split_lines_String.
  pose proof (split_lines_nonempty x) as Hne.
  destruct (Ascii.eqb c Js.newline) eqn:Hc.
  - destruct (Js.split_lines x) as [|h t]; [congruence|]. exact IH.
  - destruct (Js.split_lines x) as [|h [|h' t]]; [congruence| |].
    + cbn [cons_first List.last] in *. rewrite split_lines_String, Hc, IH. reflexivity.
    + exact IH.
Qed.

Lemma string_app_String (c : ascii) (a b : string) : String c a ++ b = String c (a ++ b).
Proof. reflexivity. Qed.

Lemma string_app_nil_r (s : string) : s ++ EmptyString = s.
Proof.
  induction s as [|c s IH]; [reflexivity|].
  rewrite string_app_String, IH. reflexivity.
Qed.

Lemma string_app_assoc (a b c : string) : (a ++ b) ++ c = a ++ (b ++ c).
Proof.
  induction a as [|x a IH]; [reflexivity|].
  rewrite !string_app_String, IH. reflexivity.
Qed.

Section Reader.
Context {D : Type} (JSON_parse : string -> option D).
Context {S : Type} (onEvent : string -> D -> S -> S).

Lemma sse_chunks_lines (chunks : list string) :
  forall r,
    no_line_feed (buffer r) ->
    owner (fold_left (sse_chunk JSON_parse onEvent) chunks r)
    = snd (fold_left (sse_line JSON_parse onEvent)
             (removelast (Js.split_lines (buffer r ++ fold_right String.append EmptyString chunks)))
             (currentEventType r, owner r)).
Proof.
  induction chunks as [|chunk rest IH]; intros r Hb.
  - cbn [fold_left fold_right]. rewrite string_app_nil_r, Hb. reflexivity.
  - cbn [fold_left]. rewrite IH.
    + unfold sse_chunk at 1 2 3.
      destruct (fold_left (sse_line JSON_parse onEvent)
                  (removelast (Js.split_lines (buffer r ++ chunk)))
                  (currentEventType r, owner r)) as [cur sigma] eqn:Hfold.
      cbn [buffer currentEventType owner].
      cbn [fold_right]. rewrite <- string_app_assoc, (split_lines_app (buffer r ++ chunk)).
      rewrite removelast_app by apply split_lines_nonempty.
      rewrite fold_left_app, Hfold. reflexivity.
    + unfold sse_chunk.
      destruct (fold_left _ _ _). cbn [buffer]. apply last_split_lines_no_line_feed.
Qed.

Lemma sse_read_lines (chunks : list string) (sigma : S) :
  sse_read JSON_parse onEvent chunks sigma
  = snd (fold_left (sse_line JSON_parse onEvent) (complete_lines chunks)
           (EmptyString, sigma)).
Proof.
  unfold sse_read, complete_lines.
  rewrite sse_chunks_lines; reflexivity.
Qed.

Lemma substring_all (s : string) : String.substring 0 (String.length s) s = s.
Proof. induction s as [|c s IH]; [reflexivity|]. cbn. rewrite IH. reflexivity. Qed.

Lemma slice_data_line (payload : string) : Js.slice 6 ("data: " ++ payload) = payload.
Proof.
  unfold Js.slice. rewrite !string_app_String.
  change (EmptyString ++ payload) with payload.
  cbn [String.length Nat.sub String.substring]. rewrite Nat.sub_0_r. apply substring_all.
Qed.

Lemma startsWith_data_line (payload : string) :
  Js.startsWith "data: " ("data: " ++ payload) = true.
Proof.
  unfold Js.startsWith. rewrite !string_app_String.
  change (EmptyString ++ payload) with payload.
  destruct payload; reflexivity.
Qed.

Lemma sse_line_malformed (st : string * S) (payload : string) :
  JSON_parse payload = None ->
  sse_line JSON_parse onEvent st ("data: " ++ payload) = st.
Proof.
  intros H. unfold sse_line. destruct st as [cur sigma].
  change (Js.startsWith "event: " ("data: " ++ payload)) with false.
  rewrite startsWith_data_line.
  cbv iota. rewrite slice_data_line, H. reflexivity.
Qed.

End Reader.


(** The events of that stream: the [token] event after the malformed line
    is delivered, with the type set before it. *)
Example malformed_then_token :
  sse_read (fun s : string => if String.eqb s "{}" then Some tt else None)
    (fun (type : string) (_ : unit) (seen : list string) => (seen ++ [type])%list)
    [("event: token" ++ line_feed ++ "data: {ba")%string;
     ("d" ++ line_feed ++ "data: {}" ++ line_feed ++ line_feed ++ "event: co")%string] []
  = ["token"].
Proof. vm_compute. reflexivity. Qed.

(** ** The limits of a send *)

Local Open Scope string_scope.

Lemma wp_resetForCommand (Q : Res unit -> World -> Prop) (w : World) :
  Q (Ok tt)
    {| ctl := set_activeTurnIndex None
                (set_authError None
                   (set_messages []
                      (set_conversationContext None (set_conversationId None (ctl w)))));
       effects := effects w; ticks := ticks w |} ->
  wp resetForCommand Q w.
Proof.
  intros H. unfold resetForCommand. wp_steps.
  apply wp_updateThread_no_messages; [reflexivity|exact H].
Qed.

(** The last guard: with resolved ids and a message within the length
    limit, a conversation that has used up its turns gets the error and
    nothing else. *)
Lemma wp_performSend_limits_exhausted (env : Env) (instructions : string)
  (given : option (list PublishedAttachment)) (n : Z)
  (Q : Res (option (list PendingAttachment * list PublishedAttachment)) -> World -> Prop)
  (w : World) :
  resolved (ctl w) ->
  lengthExceeded (ctl w) instructions = None ->
  turnsExhausted (ctl w) = Some n ->
  Q (Ok None)
    {| ctl := set_inlineError (Some (maxTurnsMessage n)) (set_pendingAttachments [] (ctl w));
       effects := effects w; ticks := ticks w |} ->
  wp (performSend_limits env instructions given) Q w.
Proof.
  intros Hres Hlen Hexh H. unfold performSend_limits. cbv zeta. wp_steps.
  apply wp_ensureResolvedIds_resolved; [exact Hres|]. wp_steps.
  rewrite Hlen, Hexh. wp_steps. exact H.
Qed.

Lemma turnsExhausted_reached (s : State) (cfg : PublishedGuideConfig) (n : Z) :
  publishedGuideConfig s = Some cfg ->
  maxTurns cfg = Some n ->
  n <> 0%Z ->
  (n <= getTurnCount s)%Z ->
  turnsExhausted s = Some n.
Proof.
  intros Hcfg Hmax Hn Hturns. unfold turnsExhausted. rewrite Hcfg, Hmax. unfold truthyZ.
  destruct (Z.eqb_spec n 0) as [|_]; [contradiction|]. cbn [negb andb].
  destruct (Z.geb_spec (getTurnCount s) n) as [|Hlt]; [reflexivity|lia].
Qed.



(** ** Tokens *)

Local Open Scope string_scope.

Lemma update_first_found (p : Message -> bool) (f : Message -> Message)
  (pre post : list Message) (m : Message) :
  Forall (fun x => p x = false) pre -> p m = true ->
  update_first p f (pre ++ m :: post) = (pre ++ f m :: post)%list.
Proof.
  intros Hpre Hm. induction Hpre as [|x xs Hx _ IH]; cbn [app update_first].
  - rewrite Hm. reflexivity.
  - rewrite Hx, IH. reflexivity.
Qed.

Lemma existsb_found (p : Message -> bool) (pre post : list Message) (m : Message) :
  p m = true -> existsb p (pre ++ m :: post) = true.
Proof.
  intros Hm. rewrite existsb_app. cbn [existsb]. rewrite Hm. apply orb_true_r.
Qed.

Lemma wp_withStreamingMessage (change : Message -> Message) (i : string)
  (pre post : list Message) (m : Message) (Q : Res unit -> World -> Prop) (w : World) :
  streamingAssistantMessageId (ctl w) = Some i ->
  messages (ctl w) = (pre ++ m :: post)%list ->
  Forall (fun x => has_id i x = false) pre ->
  has_id i m = true ->
  (forall extra, Forall turns_hidden extra ->
     Q (Ok tt) {| ctl := set_messages (pre ++ change m :: post) (ctl w);
                  effects := (effects w ++ extra)%list; ticks := ticks w |}) ->
  wp (withStreamingMessage change) Q w.
Proof.
  intros Hid Hmsgs Hpre Hm H. unfold withStreamingMessage. wp_steps.
  rewrite Hid, Hmsgs, existsb_found by exact Hm. wp_steps.
  rewrite update_first_found by assumption.
  apply wp_updateThread. exact H.
Qed.

Lemma or_else_empty (s : string) : Js.or_else (Some s) EmptyString = s.
Proof.
  unfold Js.or_else, Js.truthy. destruct (String.eqb_spec s EmptyString) as [->|]; reflexivity.
Qed.

Lemma append_content_empty (m : Message) : append_content EmptyString m = m.
Proof.
  unfold append_content, set_content. destruct m as [i r c cr e a]. cbn.
  replace (c ++ EmptyString) with c; [reflexivity|].
  induction c as [|x c IH]; [reflexivity|]. cbn.
  change (String x c ++ EmptyString) with (String x (c ++ EmptyString)).
  rewrite <- IH. reflexivity.
Qed.

(** token, a streaming message is active *)
Lemma wp_on_token_active (env : Env) (delta i : string) (pre post : list Message)
  (m : Message) (Q : Res unit -> World -> Prop) (w : World) :
  streamingAssistantMessageId (ctl w) = Some i ->
  i <> EmptyString ->
  messages (ctl w) = (pre ++ m :: post)%list ->
  Forall (fun x => has_id i x = false) pre ->
  has_id i m = true ->
  (forall extra, Forall turns_hidden extra ->
     Q (Ok tt) {| ctl := set_messages (pre ++ append_content delta m :: post) (ctl w);
                  effects := (effects w ++ extra)%list; ticks := ticks w |}) ->
  wp (on_token env (token_data delta)) Q w.
Proof.
  intros Hid Hne Hmsgs Hpre Hm H. unfold on_token. cbn [token_data contentDelta].
  rewrite or_else_empty. wp_steps. rewrite Hid. unfold Js.truthy.
  apply String.eqb_neq in Hne. rewrite Hne. state_simpl. wp_steps.
  destruct (String.eqb_spec delta EmptyString) as [->|Hd]; state_simpl.
  - wp_steps. specialize (H [] (List.Forall_nil _)).
    rewrite append_content_empty, app_nil_r, <- Hmsgs in H.
    replace {| ctl := set_messages (messages (ctl w)) (ctl w); effects := effects w;
               ticks := ticks w |} with w in H; [exact H|].
    destruct w as [s l t]. destruct s. reflexivity.
  - eapply wp_withStreamingMessage; eauto.
Qed.

Lemma placeholderId_truthy (env : Env) (w : World) :
  Js.truthy (Some (placeholderId env w)) = true.
Proof. reflexivity. Qed.

Lemma wp_pushAssistantPlaceholder (env : Env) (Q : Res unit -> World -> Prop) (w : World) :
  Q (Ok tt)
    {| ctl := set_streamingAssistantMessageId (Some (placeholderId env w))
                (set_messages (messages (ctl w) ++ [placeholder env w]) (ctl w));
       effects := effects w; ticks := Datatypes.S (Datatypes.S (ticks w)) |} ->
  wp (pushAssistantPlaceholder env) Q w.
Proof. intros H. unfold pushAssistantPlaceholder. wp_steps. exact H. Qed.

Lemma has_id_placeholder (env : Env) (w : World) :
  has_id (placeholderId env w) (placeholder env w) = true.
Proof. unfold has_id. cbn [placeholder id]. apply String.eqb_refl. Qed.

Lemma wp_on_token_inactive (env : Env) (delta : string) (Q : Res unit -> World -> Prop)
  (w : World) :
  Js.truthy (streamingAssistantMessageId (ctl w)) = false ->
  Forall (fun x => has_id (placeholderId env w) x = false) (messages (ctl w)) ->
  (forall w1,
     messages (ctl w1) = (messages (ctl w) ++ [set_content delta (placeholder env w)])%list ->
     streamingAssistantMessageId (ctl w1) = Some (placeholderId env w) ->
     isStreaming (ctl w1) = true ->
     Q (Ok tt) w1) ->
  wp (on_token env (token_data delta)) Q w.
Proof.
  intros Hid Hfresh H. unfold on_token. cbn [token_data contentDelta].
  rewrite or_else_empty. wp_steps. rewrite Hid. state_simpl. wp_steps.
  apply wp_pushAssistantPlaceholder. wp_steps.
  apply wp_updateThread. intros extra Hextra. state_simpl. wp_steps.
  destruct (String.eqb_spec delta EmptyString) as [->|Hd]; state_simpl.
  - wp_steps. apply H; reflexivity.
  - eapply wp_withStreamingMessage with (pre := messages (ctl w)) (post := []).
    + reflexivity.
    + reflexivity.
    + exact Hfresh.
    + apply has_id_placeholder.
    + intros extra' Hextra'. apply H; reflexivity.
Qed.

Lemma wp_handleSseEvent_token (env : Env) (delta : string) (Q : Res unit -> World -> Prop)
  (w : World) :
  wp (on_token env (token_data delta))
    (fun r w1 =>
       match r with
       | Ok _ => Q (Ok tt)
                   {| ctl := ctl w1;
                      effects := (effects w1 ++ [Dispatched "wf-token" (DataDetail (token_data delta))])%list;
                      ticks := ticks w1 |}
       | Rejected e => Q (Rejected e) w1
       end) w ->
  wp (handleSseEvent env (token delta)) Q w.
Proof.
  intros H. unfold handleSseEvent.
  cbn [token evt_type evt_data String.eqb Ascii.eqb Bool.eqb]. wp_steps.
  eapply wp_mono; [exact H|]. intros [[]|e] w1 HQ; cbv beta iota; [|exact HQ].
  wp_steps. exact HQ.
Qed.

Lemma wp_handleSseEvent_complete (env : Env) (Q : Res unit -> World -> Prop) (w : World) :
  (forall extra, Forall turns_hidden extra ->
     Q (Ok tt)
       {| ctl := set_sanitizedMessageContent None
                   (set_streamingAssistantMessageId None (set_isStreaming false (ctl w)));
          effects := ((effects w ++ extra)
                      ++ [Dispatched "wf-complete" (DataDetail no_data)])%list;
          ticks := ticks w |}) ->
  wp (handleSseEvent env complete) Q w.
Proof.
  intros H. unfold handleSseEvent.
  cbn [complete evt_type evt_data String.eqb Ascii.eqb Bool.eqb orb]. wp_steps.
  unfold on_complete. wp_steps. apply wp_updateThread. intros extra Hextra.
  state_simpl. wp_steps. apply H, Hextra.
Qed.

Lemma countUser_app (a b : list Message) : countUser (a ++ b) = countUser a + countUser b.
Proof. unfold countUser. rewrite List.filter_app, length_app. reflexivity. Qed.



(** The whole send against a service that then has both messages: the
    events are dispatched in the order of their arrival, the list is the
    service's. *)
Example send_hello :
  let after := performSend helloEnv "Hello" None (world_of resolvedState) in
  fst after = Ok tt
  /\ messages (ctl (snd after))
     = [message_of "m1" User "Hello"; message_of "m2" Assistant "Hi there"]
  /\ isStreaming (ctl (snd after)) = false
  /\ streamingAssistantMessageId (ctl (snd after)) = None
  /\ getTurnCount (ctl (snd after)) = 1%Z
  /\ effects (snd after)
     = [Dispatched "wf-stream-start" NoDetail; Requested StartConversation;
        Requested FetchHistory; Requested (StreamResponse "Hello" None None);
        Dispatched "wf-token" (DataDetail (token_data "Hi"));
        Dispatched "wf-token" (DataDetail (token_data " there"));
        Dispatched "wf-complete" (DataDetail no_data);
        Requested FetchHistory; Dispatched "wf-complete" NoDetail].
Proof. vm_compute. repeat split; reflexivity. Qed.

(** ** The Stream Cursor *)

Local Open Scope string_scope.

Lemma updateThread_keeps_ctl (I : World -> Prop) :
  (forall s l t l', I {| ctl := s; effects := l; ticks := t |} ->
                    I {| ctl := s; effects := l'; ticks := t |}) ->
  keeps I updateThread.
Proof.
  intros Hblind w Hw. apply wp_updateThread. intros extra _.
  destruct w as [s l t]. apply (Hblind s l t), Hw.
Qed.

Lemma updateThread_cursor : keeps cursor_ok updateThread.
Proof. apply updateThread_keeps_ctl. intros s l t l' H. exact H. Qed.
#[local] Hint Resolve updateThread_cursor : keeps.

Lemma handleAuthError_cursor c m r : keeps cursor_ok (handleAuthError c m r).
Proof. unfold handleAuthError. keeps_go. Qed.
#[local] Hint Resolve handleAuthError_cursor : keeps.

Lemma applyConfigToComponentProps_cursor : keeps cursor_ok applyConfigToComponentProps.
Proof. unfold applyConfigToComponentProps. keeps_go. Qed.
#[local] Hint Resolve applyConfigToComponentProps_cursor : keeps.

Lemma initialize_cursor env : keeps cursor_ok (initialize env).
Proof.
  unfold initialize, renderFullState, service_fetchConfig, service_fetchAvatarUrl,
    initializeConversationStartersFromConfig. keeps_go.
Qed.
#[local] Hint Resolve initialize_cursor : keeps.

Lemma ensureResolvedIds_cursor env : keeps cursor_ok (ensureResolvedIds env).
Proof. unfold ensureResolvedIds. keeps_go. Qed.
#[local] Hint Resolve ensureResolvedIds_cursor : keeps.

Lemma service_ensureResolvedIds_cursor : keeps cursor_ok service_ensureResolvedIds.
Proof. unfold service_ensureResolvedIds. keeps_go. Qed.
#[local] Hint Resolve service_ensureResolvedIds_cursor : keeps.

Lemma loadConversation_cursor env : keeps cursor_ok (loadConversation env).
Proof. unfold loadConversation, service_fetchHistory. keeps_go. Qed.
#[local] Hint Resolve loadConversation_cursor : keeps.

Lemma ensureConversation_cursor env : keeps cursor_ok (ensureConversation env).
Proof. unfold ensureConversation, service_startConversation. keeps_go. Qed.
#[local] Hint Resolve ensureConversation_cursor : keeps.

Lemma clearConversation_cursor : keeps cursor_ok clearConversation.
Proof. unfold clearConversation. keeps_go. Qed.
#[local] Hint Resolve clearConversation_cursor : keeps.

Lemma expand_cursor : keeps cursor_ok expand.
Proof. unfold expand. keeps_go. Qed.
#[local] Hint Resolve expand_cursor : keeps.

Lemma collapse_cursor : keeps cursor_ok collapse.
Proof. unfold collapse. keeps_go. Qed.
#[local] Hint Resolve collapse_cursor : keeps.

Lemma goToTurn_cursor k : keeps cursor_ok (goToTurn k).
Proof. unfold goToTurn. keeps_go. Qed.
#[local] Hint Resolve goToTurn_cursor : keeps.

Lemma pushAssistantPlaceholder_cursor env : keeps cursor_ok (pushAssistantPlaceholder env).
Proof. unfold pushAssistantPlaceholder. keeps_go. Qed.
#[local] Hint Resolve pushAssistantPlaceholder_cursor : keeps.

Lemma withStreamingMessage_cursor change : keeps cursor_ok (withStreamingMessage change).
Proof. unfold withStreamingMessage. keeps_go. Qed.
#[local] Hint Resolve withStreamingMessage_cursor : keeps.

(** [isStreaming = true], then the placeholder: the cursor is set whatever
    it was. *)
Lemma startStreamingMessage_cursor env (rest : M unit) :
  keeps cursor_ok rest ->
  keeps cursor_ok (modify (set_isStreaming true);; pushAssistantPlaceholder env;; rest).
Proof.
  intros Hrest w _. wp_steps. apply wp_pushAssistantPlaceholder. wp_steps.
  apply Hrest. intros _. reflexivity.
Qed.

Lemma on_token_cursor env data : keeps cursor_ok (on_token env data).
Proof.
  unfold on_token. cbv zeta. apply keeps_bind; [apply keeps_get|]. intros s.
  apply keeps_bind; [|intros _; keeps_go].
  apply keeps_when, startStreamingMessage_cursor. auto with keeps.
Qed.

Lemma on_assistant_message_cursor env data : keeps cursor_ok (on_assistant_message env data).
Proof.
  unfold on_assistant_message. cbv zeta. apply keeps_bind; [apply keeps_get|]. intros s.
  apply keeps_bind; [|intros _; keeps_go].
  apply keeps_when.
  pose proof (startStreamingMessage_cursor env (mret tt) (keeps_ret _ tt)) as H.
  intros w Hw. specialize (H w Hw). revert H. unfold wp, mbind, M_bind, mret, M_ret.
  destruct (modify (set_isStreaming true) w) as [[[]|e] w1]; [|exact (fun H => H)].
  destruct (pushAssistantPlaceholder env w1) as [[[]|e] w2]; exact (fun H => H).
Qed.

Lemma on_external_tool_call_cursor data : keeps cursor_ok (on_external_tool_call data).
Proof. unfold on_external_tool_call. keeps_go. Qed.

Lemma on_message_cursor env data : keeps cursor_ok (on_message env data).
Proof. unfold on_message. keeps_go. Qed.

Lemma on_error_cursor data : keeps cursor_ok (on_error data).
Proof. unfold on_error. keeps_go. Qed.

Lemma on_complete_cursor : keeps cursor_ok on_complete.
Proof.
  intros w _. unfold on_complete. wp_steps. apply updateThread_cursor.
  intros H. discriminate H.
Qed.

Lemma handleSseEvent_cursor env evt : keeps cursor_ok (handleSseEvent env evt).
Proof.
  unfold handleSseEvent.
  pose proof (on_token_cursor env (evt_data evt)).
  pose proof (on_assistant_message_cursor env (evt_data evt)).
  pose proof (on_external_tool_call_cursor (evt_data evt)).
  pose proof (on_message_cursor env (evt_data evt)).
  pose proof (on_error_cursor (evt_data evt)).
  pose proof on_complete_cursor.
  apply keeps_bind; [|intros _; keeps_go].
  repeat match goal with |- keeps _ (if ?c then _ else _) => destruct c end;
    first [ assumption | apply keeps_ret ].
Qed.
#[local] Hint Resolve handleSseEvent_cursor : keeps.

Ltac wp_to_finally :=
  repeat lazymatch goal with
         | |- wp (finally _ _) _ _ => fail
         | |- _ => wp_step
         end.

(** The [finally] block of a send and of a submission clears the cursor. *)
Lemma endStreaming_cursor (w : World) : wp endStreaming (fun _ w1 => cursor_ok w1) w.
Proof.
  unfold endStreaming. wp_steps. apply updateThread_cursor. intros H. discriminate H.
Qed.

Lemma performSend_limits_cursor env instructions given :
  keeps cursor_ok (performSend_limits env instructions given).
Proof. unfold performSend_limits. keeps_go. Qed.

Lemma performSend_guards_cursor env instructions given :
  keeps cursor_ok (performSend_guards env instructions given).
Proof.
  pose proof (performSend_limits_cursor env instructions given).
  unfold performSend_guards, resetForCommand. keeps_go.
Qed.

Lemma performSend_stream_cursor env instructions pending atts :
  keeps cursor_ok (performSend_stream env instructions pending atts).
Proof.
  intros w _. unfold performSend_stream. wp_to_finally.
  apply finally_brings_about. exact endStreaming_cursor.
Qed.

Lemma performSend_cursor env instructions given :
  keeps cursor_ok (performSend env instructions given).
Proof.
  unfold performSend. apply keeps_bind; [apply performSend_guards_cursor|].
  intros [[pending atts]|]; [apply performSend_stream_cursor|apply keeps_ret].
Qed.
#[local] Hint Resolve performSend_cursor : keeps.

Lemma submitExternalToolResults_cursor env results :
  keeps cursor_ok (submitExternalToolResults env results).
Proof.
  intros w Hw. unfold submitExternalToolResults. wp_steps.
  destruct (length results =? 0)%nat; [wp_steps; exact Hw|].
  destruct (isStreaming (ctl w)) eqn:Hs; [wp_steps; exact Hw|].
  wp_to_finally. apply finally_brings_about. exact endStreaming_cursor.
Qed.
#[local] Hint Resolve submitExternalToolResults_cursor : keeps.

Lemma runHandlers_cursor calls : forall results, keeps cursor_ok (runHandlers calls results).
Proof.
  induction calls as [|call rest IH]; intros results; cbn [runHandlers].
  - apply keeps_ret.
  - destruct (toolName_of call) as [toolName|]; [|apply IH].
    destruct (negb (Js.truthy (Some toolName))); [apply IH|].
    apply keeps_bind; [apply keeps_get|]. intros s.
    destruct (toolRegistry s !! toolName) as [handler|]; [|apply IH].
    apply keeps_bind; [keeps_go|]. intros _.
    destruct (handler _) as [[result|]|err]; apply IH.
Qed.

Lemma toolTask_cursor env calls : keeps cursor_ok (toolTask env calls).
Proof.
  pose proof (runHandlers_cursor calls []).
  unfold toolTask, handleRegisteredTools. keeps_go.
Qed.

Lemma beginResumeStream_cursor env : keeps cursor_ok (beginResumeStream env).
Proof.
  intros w Hw. unfold beginResumeStream. wp_steps.
  destruct (isStreaming (ctl w) && Js.truthy (streamingAssistantMessageId (ctl w)));
    [wp_steps; exact Hw|].
  wp_steps. destruct (Js.truthy (streamingAssistantMessageId (ctl w))) eqn:Hid; state_simpl.
  - intros _. exact Hid.
  - wp_steps. apply wp_pushAssistantPlaceholder. wp_steps.
    apply updateThread_cursor. intros _. reflexivity.
Qed.

Lemma endStreaming_clears (w : World) : wp endStreaming (fun _ w1 => cursor_cleared w1) w.
Proof.
  unfold endStreaming. wp_steps. apply wp_updateThread. intros extra _. split; reflexivity.
Qed.

Lemma handleSseEvent_complete_clears env evt w :
  evt_type evt = "complete" \/ evt_type evt = "cancelled" ->
  wp (handleSseEvent env evt) (fun _ w1 => cursor_cleared w1) w.
Proof.
  intros Hty. unfold handleSseEvent.
  assert (Hsel : forall (a b c d e g : M unit),
    (if String.eqb (evt_type evt) "token" then a
     else if String.eqb (evt_type evt) "assistant_message" then b
     else if String.eqb (evt_type evt) "external_tool_call" then c
     else if String.eqb (evt_type evt) "message" then d
     else if String.eqb (evt_type evt) "error" then e
     else if String.eqb (evt_type evt) "complete" || String.eqb (evt_type evt) "cancelled"
     then on_complete else g) = on_complete).
  { intros. destruct Hty as [-> | ->]; reflexivity. }
  rewrite Hsel. clear Hsel.
  replace (negb (String.eqb (evt_type evt) "external_tool_call")) with true
    by (destruct Hty as [-> | ->]; reflexivity).
  unfold on_complete. wp_steps. apply wp_updateThread. intros extra _.
  state_simpl. wp_steps. split; reflexivity.
Qed.




(** A [message] event received while idle sets the streaming message id and
    leaves [isStreaming] false. *)
Example message_event_while_idle :
  let w1 := snd (run quietEnv
                   (IngestStreamEvent "message"
                      {| contentDelta := None; data_content := Some "Hello";
                         toolCalls := None; data_message := None |})
                   (world_of resolvedState)) in
  spec_cursor_invariant resolvedState
  /\ isStreaming (ctl w1) = false
  /\ streamingAssistantMessageId (ctl w1) = Some "temp-assistant-1700000000000"
  /\ cursor_ok w1.
Proof.
  cbv zeta. split; [split; reflexivity|].
  split; [vm_compute; reflexivity|]. split; [vm_compute; reflexivity|].
  intros H. vm_compute in H. discriminate H.
Qed.

(** ** The Tool-Call Coordinator *)

Local Open Scope string_scope.

Lemma runHandlers_run calls : forall s t,
  exists rs log,
    (forall acc l,
       runHandlers calls acc {| ctl := s; effects := l; ticks := t |}
       = (Ok (acc ++ rs)%list, {| ctl := s; effects := (l ++ log)%list; ticks := t |}))
    /\ (forall c n, In c calls -> toolName_of c = Some n -> Js.truthy (Some n) = true ->
                    is_some (toolRegistry s !! n) = true ->
                    In (Invoked n (handlerCall c n)) log)
    /\ ((forall c n h, In c calls -> toolName_of c = Some n -> toolRegistry s !! n = Some h ->
                       h (handlerCall c n) <> Resolves None) ->
        Forall (registered (toolRegistry s)) calls ->
        length rs = length calls).
Proof.
  induction calls as [|call rest IH]; intros s t.
  - exists [], []. split; [|split].
    + intros acc l. cbn [runHandlers]. rewrite !app_nil_r. reflexivity.
    + intros c n [].
    + reflexivity.
  - destruct (IH s t) as (rs & log & Hrun & Hinv & Hlen).
    assert (Hskip : (forall n, toolName_of call = Some n -> Js.truthy (Some n) = true ->
                               toolRegistry s !! n = None) ->
                    (forall acc l,
                       runHandlers (call :: rest) acc {| ctl := s; effects := l; ticks := t |}
                       = runHandlers rest acc {| ctl := s; effects := l; ticks := t |}) ->
      exists rs' log',
        (forall acc l,
           runHandlers (call :: rest) acc {| ctl := s; effects := l; ticks := t |}
           = (Ok (acc ++ rs')%list, {| ctl := s; effects := (l ++ log')%list; ticks := t |}))
        /\ (forall c n, In c (call :: rest) -> toolName_of c = Some n ->
                        Js.truthy (Some n) = true ->
                        is_some (toolRegistry s !! n) = true ->
                        In (Invoked n (handlerCall c n)) log')
        /\ ((forall c n h, In c (call :: rest) -> toolName_of c = Some n ->
                           toolRegistry s !! n = Some h ->
                           h (handlerCall c n) <> Resolves None) ->
            Forall (registered (toolRegistry s)) (call :: rest) ->
            length rs' = length (call :: rest))).
    { intros Hnone Heq. exists rs, log. split; [|split].
      - intros acc l. rewrite Heq. apply Hrun.
      - intros c n [<-|Hin] Hn Ht Hreg.
        + rewrite (Hnone n Hn Ht) in Hreg. discriminate Hreg.
        + apply (Hinv c n Hin Hn Ht Hreg).
      - intros _ Hall. inversion Hall as [|? ? (n & h & Hn & Ht & Hh) _]; subst.
        rewrite (Hnone n Hn Ht) in Hh. discriminate Hh. }
    destruct (toolName_of call) as [toolName|] eqn:Hname.
    2:{ apply Hskip; [intros n Hn; discriminate Hn|].
        intros acc l. cbn [runHandlers]. rewrite Hname. reflexivity. }
    destruct (Js.truthy (Some toolName)) eqn:Htruthy.
    2:{ apply Hskip; [intros n Hn Ht; injection Hn as <-; congruence|].
        intros acc l. cbn [runHandlers]. rewrite Hname, Htruthy. reflexivity. }
    destruct (toolRegistry s !! toolName) as [handler|] eqn:Hreg.
    2:{ apply Hskip; [intros n Hn Ht; injection Hn as <-; exact Hreg|].
        intros acc l. cbn [runHandlers]. rewrite Hname, Htruthy. mrun.
        fold ToolHandler. rewrite Hreg.
        reflexivity. }
    clear Hskip.
    assert (Hstep : forall acc l,
      runHandlers (call :: rest) acc {| ctl := s; effects := l; ticks := t |}
      = match handler (handlerCall call toolName) with
        | Resolves (Some result) =>
            runHandlers rest (acc ++ [result])
              {| ctl := s; effects := l ++ [Invoked toolName (handlerCall call toolName)];
                 ticks := t |}
        | Resolves None =>
            runHandlers rest acc
              {| ctl := s; effects := l ++ [Invoked toolName (handlerCall call toolName)];
                 ticks := t |}
        | Throws err =>
            runHandlers rest (acc ++ [errorResult call toolName err])
              {| ctl := s; effects := l ++ [Invoked toolName (handlerCall call toolName)];
                 ticks := t |}
        end%list).
    { intros acc l. cbn [runHandlers]. rewrite Hname, Htruthy. mrun. fold ToolHandler. rewrite Hreg.
      fold (handlerCall call toolName).
      destruct (handler (handlerCall call toolName)) as [[result|]|err]; reflexivity. }
    exists (match handler (handlerCall call toolName) with
            | Resolves (Some result) => result :: rs
            | Resolves None => rs
            | Throws err => errorResult call toolName err :: rs
            end),
           (Invoked toolName (handlerCall call toolName) :: log).
    split; [|split].
    + intros acc l. rewrite Hstep.
      destruct (handler (handlerCall call toolName)) as [[result|]|err];
        rewrite Hrun, <- ?app_assoc; reflexivity.
    + intros c n [<-|Hin] Hn Ht Hr.
      * left. congruence.
      * right. apply (Hinv c n Hin Hn Ht Hr).
    + intros Hsome Hall. inversion Hall as [|? ? _ Hall']; subst.
      assert (Hrest : length rs = length rest).
      { apply Hlen; [|exact Hall']. intros c n h Hin. apply Hsome. right. exact Hin. }
      pose proof (Hsome call toolName handler (or_introl eq_refl) Hname Hreg) as Hne.
      destruct (handler (handlerCall call toolName)) as [[result|]|err]; cbn [length];
        [rewrite Hrest; reflexivity|congruence|rewrite Hrest; reflexivity].
Qed.

Lemma runHandlers_app xs ys : forall acc w,
  runHandlers (xs ++ ys) acc w
  = match runHandlers xs acc w with
    | (Ok rs, w1) => runHandlers ys rs w1
    | (Rejected e, w1) => (Rejected e, w1)
    end.
Proof.
  induction xs as [|call rest IH]; intros acc w.
  - reflexivity.
  - cbn [runHandlers app].
    destruct (toolName_of call) as [toolName|]; [|apply IH].
    destruct (negb (Js.truthy (Some toolName))); [apply IH|].
    mrun. destruct (toolRegistry (ctl w) !! toolName) as [handler|]; [|apply IH].
    destruct (handler _) as [[result|]|err]; apply IH.
Qed.

Lemma runHandlers_one call toolName handler outcome acc w :
  toolName_of call = Some toolName ->
  Js.truthy (Some toolName) = true ->
  toolRegistry (ctl w) !! toolName = Some handler ->
  handler (handlerCall call toolName) = outcome ->
  forall rest,
    runHandlers (call :: rest) acc w
    = runHandlers rest
        (match outcome with
         | Resolves (Some result) => acc ++ [result]
         | Resolves None => acc
         | Throws err => acc ++ [errorResult call toolName err]
         end)%list
        (logging [Invoked toolName (handlerCall call toolName)] w).
Proof.
  intros Hname Htruthy Hreg Hout rest. cbn [runHandlers]. rewrite Hname, Htruthy. mrun.
  unfold ToolHandler in *. rewrite Hreg. fold (handlerCall call toolName). rewrite Hout.
  destruct outcome as [[result|]|err]; reflexivity.
Qed.




(** The scenario end to end: both handlers run, and one request carries the
    success and the synthesized error. *)
Example two_calls_one_throws :
  effects (snd (run quietEnv
                  (ToolTask [tool_call "call-1" "lookup"; tool_call "call-2" "paint"])
                  twoTools))
  = [Invoked "lookup" (handlerCall (tool_call "call-1" "lookup") "lookup");
     Invoked "paint" (handlerCall (tool_call "call-2" "paint") "paint");
     Dispatched "wf-stream-start" NoDetail;
     Requested FetchHistory;
     Requested (SubmitToolResults
                  [lookupResult;
                   {| toolCallId := "call-2"; name := "paint";
                      result_content := json_error_object "boom" |}]);
     Requested FetchHistory;
     Dispatched "wf-complete" NoDetail].
Proof. vm_compute. reflexivity. Qed.

Lemma mbind_ok {A B : Type} (m : M A) (k : A -> M B) (a : A) (w w1 : World) :
  m w = (Ok a, w1) -> (m ≫= k) w = k a w1.
Proof. intros H. unfold mbind, M_bind. rewrite H. reflexivity. Qed.

Lemma mbind_mbind_ok {A B C : Type} (m : M A) (f : A -> M B) (g : B -> M C) (a : A)
  (w w1 : World) :
  m w = (Ok a, w1) -> ((m ≫= f) ≫= g) w = (f a ≫= g) w1.
Proof. intros H. unfold mbind, M_bind. rewrite H. reflexivity. Qed.

Lemma try_catch_from {A : Type} (m m' : M A) (h : JsError -> M A) (w w1 : World) :
  m w = m' w1 -> try_catch m h w = try_catch m' h w1.
Proof. intros H. unfold try_catch. rewrite H. reflexivity. Qed.

Lemma finally_from {A : Type} (m m' : M A) (f : M unit) (w w1 : World) :
  m w = m' w1 -> finally m f w = finally m' f w1.
Proof. intros H. unfold finally. rewrite H. reflexivity. Qed.

Lemma service_ensureResolvedIds_resolved (w : World) :
  Js.truthy (projectId (ctl w)) = true -> Js.truthy (notebookId (ctl w)) = true ->
  service_ensureResolvedIds w = (Ok tt, w).
Proof.
  intros Hp Hn. unfold service_ensureResolvedIds. mrun. rewrite Hp, Hn. reflexivity.
Qed.

Lemma pushAssistantPlaceholder_run (env : Env) (w : World) :
  pushAssistantPlaceholder env w
  = (Ok tt, {| ctl := slotOpened env w; effects := effects w;
               ticks := Datatypes.S (Datatypes.S (ticks w)) |}).
Proof. reflexivity. Qed.

Lemma openResumeSlot_run (env : Env) (w0 w1 : World) :
  ensureConversation env w0 = (Ok tt, w1) ->
  exists extra,
    Forall turns_hidden extra
    /\ openResumeSlot env w0
       = (Ok tt, {| ctl := slotOpened env w1; effects := (effects w1 ++ extra)%list;
                    ticks := Datatypes.S (Datatypes.S (ticks w1)) |}).
Proof.
  intros Hensure.
  destruct (updateThread_run {| ctl := slotOpened env w1; effects := effects w1;
                                ticks := Datatypes.S (Datatypes.S (ticks w1)) |})
    as (extra & Hrun & Hextra).
  exists extra. split; [exact Hextra|].
  unfold openResumeSlot. rewrite (mbind_ok _ _ tt w0 w1 Hensure).
  rewrite (mbind_ok _ _ tt _ _ (pushAssistantPlaceholder_run env w1)).
  exact Hrun.
Qed.

Lemma set_isStreaming_same (s : State) : isStreaming s = true -> set_isStreaming true s = s.
Proof. intros H. destruct s. cbn in H. subst. reflexivity. Qed.

Lemma beginResumeStream_keeps_slot (env : Env) (w : World) :
  Js.truthy (streamingAssistantMessageId (ctl w)) = true ->
  beginResumeStream env w
  = (Ok tt, {| ctl := set_isStreaming true (ctl w); effects := effects w; ticks := ticks w |}).
Proof.
  intros Hid. unfold beginResumeStream. mrun. rewrite Hid.
  destruct (isStreaming (ctl w)) eqn:Hs; state_simpl.
  - rewrite (set_isStreaming_same _ Hs). destruct w; reflexivity.
  - reflexivity.
Qed.

Lemma beginResumeStream_opens_slot (env : Env) (w : World) :
  Js.truthy (streamingAssistantMessageId (ctl w)) = false ->
  exists extra,
    Forall turns_hidden extra
    /\ beginResumeStream env w
       = (Ok tt,
          {| ctl := slotOpened env {| ctl := set_isStreaming true (ctl w);
                                      effects := effects w; ticks := ticks w |};
             effects := (effects w ++ extra)%list;
             ticks := Datatypes.S (Datatypes.S (ticks w)) |}).
Proof.
  intros Hid.
  pose (w0 := {| ctl := set_isStreaming true (ctl w); effects := effects w; ticks := ticks w |}).
  destruct (updateThread_run {| ctl := slotOpened env w0; effects := effects w;
                                ticks := Datatypes.S (Datatypes.S (ticks w)) |})
    as (extra & Hrun & Hextra).
  exists extra. split; [exact Hextra|].
  unfold beginResumeStream.
  rewrite (mbind_ok get _ (ctl w) w w eq_refl). rewrite Hid, andb_false_r.
  cbv beta iota.
  rewrite (mbind_ok (modify (set_isStreaming true)) _ tt w w0 eq_refl). cbn [negb when].
  rewrite (mbind_ok _ _ tt _ _ (pushAssistantPlaceholder_run env w0)).
  exact Hrun.
Qed.





(** ** Rollback of a failed send *)

(** *** Programs that never reject *)

Lemma succeeds_ret {A : Type} (a : A) : succeeds (mret a).
Proof. intros w. exists a. reflexivity. Qed.

Lemma succeeds_gets {A : Type} (f : State -> A) : succeeds (gets f).
Proof. intros w. eexists. reflexivity. Qed.

Lemma succeeds_get : succeeds get.
Proof. apply succeeds_gets. Qed.

Lemma succeeds_modify (f : State -> State) : succeeds (modify f).
Proof. intros w. exists tt. reflexivity. Qed.

Lemma succeeds_emit (e : Effect) : succeeds (emit e).
Proof. intros w. exists tt. reflexivity. Qed.

Lemma succeeds_ask {A : Type} (f : nat -> A) : succeeds (ask f).
Proof. intros w. eexists. reflexivity. Qed.

Lemma succeeds_bind {A B : Type} (m : M A) (f : A -> M B) :
  succeeds m -> (forall a, succeeds (f a)) -> succeeds (m ≫= f).
Proof.
  intros Hm Hf w. destruct (Hm w) as (a & Ha). unfold mbind, M_bind.
  destruct (m w) as [r w1]. cbn [fst] in Ha. subst r. apply Hf.
Qed.

Lemma succeeds_when (b : bool) (m : M unit) : succeeds m -> succeeds (when b m).
Proof. intros Hm. destruct b; [exact Hm|apply succeeds_ret]. Qed.

Lemma succeeds_for_each {A : Type} (body : A -> M unit) (xs : list A) :
  (forall x, succeeds (body x)) -> succeeds (for_each xs body).
Proof.
  intros Hbody. induction xs as [|x rest IH]; cbn [for_each].
  - apply succeeds_ret.
  - apply succeeds_bind; [apply Hbody|intros _; exact IH].
Qed.

Create HintDb succeeds discriminated.

Ltac succeeds_go :=
  cbv zeta;
  lazymatch goal with
  | |- succeeds (mbind _ _) => apply succeeds_bind; [ succeeds_go | intro; succeeds_go ]
  | |- succeeds (mret _) => apply succeeds_ret
  | |- succeeds get => apply succeeds_get
  | |- succeeds (gets _) => apply succeeds_gets
  | |- succeeds (modify _) => apply succeeds_modify
  | |- succeeds (setInlineError _) => apply succeeds_modify
  | |- succeeds (showError _) => apply succeeds_modify
  | |- succeeds (emit _) => apply succeeds_emit
  | |- succeeds (dispatch _ _) => apply succeeds_emit
  | |- succeeds (ask _) => apply succeeds_ask
  | |- succeeds (when _ _) => apply succeeds_when; succeeds_go
  | |- succeeds (for_each _ _) => apply succeeds_for_each; intro; succeeds_go
  | |- succeeds (if ?c then _ else _) => destruct c; succeeds_go
  | |- succeeds (match ?x with _ => _ end) => destruct x; succeeds_go
  | |- succeeds _ => solve [ auto with succeeds ]
  end.

Lemma updateThread_succeeds : succeeds updateThread.
Proof. unfold updateThread. succeeds_go. Qed.
#[local] Hint Resolve updateThread_succeeds : succeeds.

Lemma pushAssistantPlaceholder_succeeds env : succeeds (pushAssistantPlaceholder env).
Proof. unfold pushAssistantPlaceholder. succeeds_go. Qed.
#[local] Hint Resolve pushAssistantPlaceholder_succeeds : succeeds.

Lemma withStreamingMessage_succeeds change : succeeds (withStreamingMessage change).
Proof. unfold withStreamingMessage. succeeds_go. Qed.
#[local] Hint Resolve withStreamingMessage_succeeds : succeeds.

Lemma handleSseEvent_succeeds env evt : succeeds (handleSseEvent env evt).
Proof.
  unfold handleSseEvent, on_token, on_assistant_message, on_external_tool_call, on_message,
    on_error, on_complete.
  succeeds_go.
Qed.

Lemma succeeds_unit (m : M unit) (w : World) : succeeds m -> fst (m w) = Ok tt.
Proof. intros H. destruct (H w) as ([] & Ha). exact Ha. Qed.

(** *** What streaming keeps of the message list *)

Lemma settled_app (a b : list Message) : settled (a ++ b) = (settled a ++ settled b)%list.
Proof. apply List.filter_app. Qed.

Lemma placeholder_is_temp (env : Env) (w : World) : is_temp (placeholder env w) = true.
Proof. reflexivity. Qed.

Lemma placeholderId_is_temp (env : Env) (w : World) :
  Js.startsWith "temp-" (placeholderId env w) = true.
Proof. reflexivity. Qed.

Lemma settled_update_first (i : string) (change : Message -> Message) (ms : list Message) :
  Js.startsWith "temp-" i = true ->
  (forall m, id (change m) = id m) ->
  settled (update_first (has_id i) change ms) = settled ms.
Proof.
  intros Htemp Hid. induction ms as [|m rest IH]; [reflexivity|].
  cbn [update_first]. destruct (has_id i m) eqn:Hm.
  - unfold has_id in Hm. apply String.eqb_eq in Hm.
    unfold settled. cbn [List.filter]. unfold is_temp. rewrite Hid, Hm, Htemp. reflexivity.
  - unfold settled in *. cbn [List.filter]. rewrite IH. reflexivity.
Qed.

Section Kept.
Context (kept : list Message).

Lemma updateThread_optimistic_only : keeps (optimistic_only kept) updateThread.
Proof. apply updateThread_keeps_ctl. intros s l t l' H. exact H. Qed.

Lemma pushAssistantPlaceholder_optimistic_only env :
  keeps (optimistic_only kept) (pushAssistantPlaceholder env).
Proof.
  intros w [Hkept _]. apply wp_pushAssistantPlaceholder. split; state_simpl.
  - rewrite settled_app, Hkept. unfold settled. cbn [List.filter].
    rewrite placeholder_is_temp. apply app_nil_r.
  - intros i Hi. injection Hi as <-. apply placeholderId_is_temp.
Qed.

Lemma withStreamingMessage_optimistic_only change :
  (forall m, id (change m) = id m) ->
  keeps (optimistic_only kept) (withStreamingMessage change).
Proof.
  intros Hid w [Hkept Htemp]. unfold withStreamingMessage. wp_steps.
  destruct (streamingAssistantMessageId (ctl w)) as [i|] eqn:Hi;
    [|wp_steps; split; [assumption|rewrite Hi; assumption]].
  destruct (existsb (has_id i) (messages (ctl w)));
    [|wp_steps; split; [assumption|rewrite Hi; assumption]].
  wp_steps. apply updateThread_optimistic_only. split; state_simpl.
  - rewrite settled_update_first; [exact Hkept|apply Htemp; reflexivity|exact Hid].
  - rewrite Hi. exact Htemp.
Qed.

End Kept.

Section KeptByEvents.
Context (kept : list Message).

#[local] Hint Resolve updateThread_optimistic_only pushAssistantPlaceholder_optimistic_only : keeps.

Lemma append_content_id delta m : id (append_content delta m) = id m.
Proof. reflexivity. Qed.

Lemma set_content_id c m : id (set_content c m) = id m.
Proof. reflexivity. Qed.

Lemma handleSseEvent_optimistic_only env evt :
  keeps (optimistic_only kept) (handleSseEvent env evt).
Proof.
  pose proof (fun delta => withStreamingMessage_optimistic_only kept (append_content delta)
                             (append_content_id delta)) as Happend.
  pose proof (fun c => withStreamingMessage_optimistic_only kept (set_content c)
                         (set_content_id c)) as Hset.
  assert (Hcomplete : keeps (optimistic_only kept) on_complete).
  { intros w [Hkept _]. unfold on_complete. wp_steps.
    apply updateThread_optimistic_only. split; state_simpl; [exact Hkept|].
    intros i Hi. discriminate Hi. }
  unfold handleSseEvent, on_token, on_assistant_message, on_external_tool_call, on_message,
    on_error.
  keeps_go.
Qed.

End KeptByEvents.
Lemma wp_performSend_optimistic (env : Env) (instructions : string)
  (atts : list PublishedAttachment) (Q : Res unit -> World -> Prop) (w w1 : World) :
  ensureConversation env w = (Ok tt, w1) ->
  (forall extra, Forall turns_hidden extra ->
     Q (Ok tt) {| ctl := optimistic env instructions atts w1;
                  effects := (effects w1 ++ extra)%list; ticks := 4 + ticks w1 |}) ->
  wp (performSend_optimistic env instructions atts) Q w.
Proof.
  intros Hensure H. unfold optimistic in H. cbv zeta in H.
  unfold performSend_optimistic. apply wp_bind.
  eapply wp_eq; [exact Hensure|]. cbv beta iota.
  wp_steps.
  destruct (inputEl (ctl w1)) as [typed|]; state_simpl;
    (destruct (DisplayMode_eqb (displayMode (ctl w1)) LastTurn) eqn:Hmode;
     wp_steps; apply wp_pushAssistantPlaceholder; apply wp_updateThread;
     intros extra Hextra; specialize (H extra Hextra); revert H; state_simpl;
     rewrite Hmode; exact (fun H => H)).
Qed.

Lemma wp_keeps_succeeds {A : Type} (I : World -> Prop) (m : M A)
  (Q : Res A -> World -> Prop) (w : World) :
  keeps I m -> succeeds m -> I w -> (forall a w1, I w1 -> Q (Ok a) w1) -> wp m Q w.
Proof.
  intros Hk Hs Hw HQ. specialize (Hk w Hw). destruct (Hs w) as (a & Ha).
  unfold wp in *. rewrite Ha. apply HQ, Hk.
Qed.

Lemma optimistic_resolved env instructions atts w1 :
  resolved (ctl w1) -> resolved (optimistic env instructions atts w1).
Proof.
  unfold optimistic, resolved, slotOpened. cbv zeta.
  destruct (inputEl (ctl w1)); state_simpl;
    destruct (DisplayMode_eqb (displayMode (ctl w1)) LastTurn); exact (fun H => H).
Qed.

Lemma optimistic_optimistic_only env instructions atts w1 l t :
  optimistic_only (settled (messages (ctl w1)))
    {| ctl := optimistic env instructions atts w1; effects := l; ticks := t |}.
Proof.
  unfold optimistic, optimistic_only, slotOpened. cbv zeta.
  destruct (inputEl (ctl w1)); state_simpl;
    destruct (DisplayMode_eqb (displayMode (ctl w1)) LastTurn); state_simpl;
    (split; [rewrite !settled_app; unfold settled at 2 3; cbn [List.filter];
             rewrite placeholder_is_temp; cbn [negb is_temp id]; rewrite !app_nil_r;
             reflexivity
            |intros i Hi; injection Hi as <-; reflexivity]).
Qed.



(** The send button, with a history in step with the list: the list is as
    long as before the failed send. *)
Example failed_send_keeps_the_list :
  let after := snd (run (failingEnv firstTurn) ClickSend talkWorld) in
  messages (ctl after) = firstTurn
  /\ inlineError (ctl after) = Some "HTTP 500"
  /\ spec_rollback (ctl talkWorld) (ctl after).
Proof. cbv zeta. repeat split; vm_compute; reflexivity. Qed.


Local Open Scope string_scope.


(** ** More on reading an event stream *)

Lemma stream_text_app (a b : list string) :
  stream_text (a ++ b) = stream_text a ++ stream_text b.
Proof.
  unfold stream_text. induction a as [|x a IH]; [reflexivity|].
  cbn [app fold_right]. rewrite IH. symmetry. apply string_app_assoc.
Qed.

Lemma no_line_feed_app (a b : string) :
  no_line_feed a -> no_line_feed b -> no_line_feed (a ++ b).
Proof.
  unfold no_line_feed. intros Ha Hb. rewrite split_lines_app, Ha.
  cbn [removelast List.last app].
  induction a as [|c a IH]; [exact Hb|].
  rewrite string_app_String, split_lines_String.
  rewrite split_lines_String in Ha.
  destruct (Ascii.eqb c Js.newline).
  - injection Ha as Ha _. discriminate Ha.
  - pose proof (split_lines_nonempty a) as Hne.
    destruct (Js.split_lines a) as [|h [|h' t]] eqn:Hsplit; [congruence| |].
    + cbn [cons_first] in Ha. injection Ha as Ha. subst h.
      rewrite IH; [reflexivity|reflexivity].
    + cbn [cons_first] in Ha. discriminate Ha.
Qed.

Section MoreReader.
Context {D : Type} (JSON_parse : string -> option D).
Context {S : Type} (onEvent : string -> D -> S -> S).

(** X1. The events read from a stream do not depend on how the network cut
    it into chunks: two chunk sequences with the same bytes give the same
    calls of the callback. *)
Theorem sse_read_chunking (chunks chunks' : list string) (sigma : S) :
  stream_text chunks = stream_text chunks' ->
  sse_read JSON_parse onEvent chunks sigma = sse_read JSON_parse onEvent chunks' sigma.
Proof.
  intros H. rewrite !sse_read_lines. unfold complete_lines.
  unfold stream_text in H. rewrite H. reflexivity.
Qed.

(** X2. What follows the last line feed of a stream is never handled: a
    last chunk without a line feed changes nothing. *)
Theorem sse_read_unterminated (chunks : list string) (rest : string) (sigma : S) :
  no_line_feed rest ->
  sse_read JSON_parse onEvent (chunks ++ [rest]) sigma
  = sse_read JSON_parse onEvent chunks sigma.
Proof.
  intros Hrest. rewrite !sse_read_lines. unfold complete_lines.
  change (fold_right String.append EmptyString) with stream_text.
  rewrite stream_text_app. unfold stream_text at 2. cbn [fold_right].
  rewrite string_app_nil_r, split_lines_app.
  rewrite (no_line_feed_app _ _ (last_split_lines_no_line_feed (stream_text chunks)) Hrest).
  rewrite removelast_last. reflexivity.
Qed.

Lemma sse_line_event (st : string * S) (type : string) :
  sse_line JSON_parse onEvent st (event_line type) = (type, snd st).
Proof.
  destruct st as [cur sigma]. unfold sse_line, event_line.
  replace (Js.startsWith "event: " ("event: " ++ type)) with true
    by (unfold Js.startsWith; rewrite !string_app_String;
        change (EmptyString ++ type) with type; destruct type; reflexivity).
  unfold Js.slice. rewrite !string_app_String.
  change (EmptyString ++ type) with type.
  cbn [String.length Nat.sub String.substring snd]. rewrite Nat.sub_0_r, substring_all.
  reflexivity.
Qed.

Lemma sse_line_data (cur : string) (sigma : S) (payload : string) :
  sse_line JSON_parse onEvent (cur, sigma) (data_line payload)
  = (cur, deliver JSON_parse onEvent cur sigma payload).
Proof.
  unfold sse_line, data_line, deliver, delivered_type.
  change (Js.startsWith "event: " ("data: " ++ payload)) with false.
  rewrite startsWith_data_line. cbv iota. rewrite slice_data_line.
  destruct (JSON_parse payload); reflexivity.
Qed.

Lemma sse_lines_data (cur : string) (payloads : list string) : forall sigma,
  fold_left (sse_line JSON_parse onEvent) (map data_line payloads) (cur, sigma)
  = (cur, fold_left (deliver JSON_parse onEvent cur) payloads sigma).
Proof.
  induction payloads as [|p rest IH]; intros sigma; [reflexivity|].
  cbn [map fold_left]. rewrite sse_line_data. apply IH.
Qed.

(** X3. An [event: ] line types every [data: ] line that follows it up to
    the next empty line: each of them is given to the callback on its own,
    under that type; after the empty line the type is forgotten, and
    [data: ] lines are delivered under the type [data]. *)
Theorem sse_event_block (cur type : string) (payloads later : list string) (sigma : S) :
  fold_left (sse_line JSON_parse onEvent)
    (event_line type :: map data_line payloads ++ EmptyString :: map data_line later)
    (cur, sigma)
  = (EmptyString,
     fold_left (deliver JSON_parse onEvent EmptyString) later
       (fold_left (deliver JSON_parse onEvent type) payloads sigma)).
Proof.
  cbn [fold_left]. rewrite sse_line_event. cbn [snd].
  rewrite fold_left_app, sse_lines_data. cbn [fold_left].
  change (sse_line JSON_parse onEvent
            (type, fold_left (deliver JSON_parse onEvent type) payloads sigma) EmptyString)
    with (EmptyString, fold_left (deliver JSON_parse onEvent type) payloads sigma).
  apply sse_lines_data.
Qed.

End MoreReader.

(** One stream, in one chunk and cut in three. *)
Lemma sse_read_chunking_witness :
  let JSON_parse (s : string) := if String.eqb s "{}" then Some tt else None in
  let onEvent (type : string) (_ : unit) (seen : list string) := (seen ++ [type])%list in
  sse_read JSON_parse onEvent
    [("event: token" ++ line_feed ++ "data: {}" ++ line_feed)%string] []
  = sse_read JSON_parse onEvent
      ["event: to"; ("ken" ++ line_feed ++ "da")%string; ("ta: {}" ++ line_feed)%string] [].
Proof.
  cbv zeta.
  apply (sse_read_chunking
           (fun s : string => if String.eqb s "{}" then Some tt else None)
           (fun (type : string) (_ : unit) (seen : list string) => (seen ++ [type])%list)).
  vm_compute. reflexivity.
Defined.

(** A stream that ends in the middle of a line. *)
Lemma sse_read_unterminated_witness :
  let JSON_parse (s : string) := if String.eqb s "{}" then Some tt else None in
  let onEvent (type : string) (_ : unit) (seen : list string) := (seen ++ [type])%list in
  sse_read JSON_parse onEvent
    ([("event: token" ++ line_feed ++ "data: {}" ++ line_feed)%string] ++ ["data: {}"]) []
  = sse_read JSON_parse onEvent
      [("event: token" ++ line_feed ++ "data: {}" ++ line_feed)%string] [].
Proof.
  cbv zeta.
  apply (sse_read_unterminated
           (fun s : string => if String.eqb s "{}" then Some tt else None)
           (fun (type : string) (_ : unit) (seen : list string) => (seen ++ [type])%list)).
  vm_compute. reflexivity.
Defined.


Local Open Scope string_scope.


(** ** Rendering the thread, and walking through the turns *)

Lemma getDisplayTurns_shown (s : State) (turns : list Turn) :
  displayMode s = LastTurn -> turns <> [] ->
  exists t,
    nth_error turns (Z.to_nat (shownTurn s (Z.of_nat (length turns)) - 1)) = Some t
    /\ getDisplayTurns s turns = [t].
Proof.
  intros Hmode Hne. unfold getDisplayTurns, shownTurn. rewrite Hmode.
  assert (Hlen : (0 < length turns)%nat) by (destruct turns; [congruence|cbn; lia]).
  destruct (Nat.eqb_spec (length turns) 0) as [|_]; [lia|]. cbn [DisplayMode_eqb negb andb].
  assert (Hlast : exists t, nth_error turns (length turns - 1) = Some t).
  { destruct (nth_error turns (length turns - 1)) as [t|] eqn:Hn; [exists t; reflexivity|].
    apply nth_error_None in Hn. lia. }
  destruct Hlast as (tl & Htl).
  assert (Hidx : Z.to_nat (Z.of_nat (length turns) - 1) = (length turns - 1)%nat) by lia.
  destruct (activeTurnIndex s) as [k|].
  - destruct (Z.leb_spec 0 (k - 1)) as [Hlo|Hlo];
      destruct (Z.ltb_spec (k - 1) (Z.of_nat (length turns))) as [Hhi|Hhi];
      destruct (Z.leb_spec 1 k) as [Hlo'|Hlo']; try lia;
      destruct (Z.leb_spec k (Z.of_nat (length turns))) as [Hhi'|Hhi']; try lia;
      cbn [andb].
    + destruct (nth_error turns (Z.to_nat (k - 1))) as [t|] eqn:Hn.
      * exists t. split; reflexivity.
      * apply nth_error_None in Hn. lia.
    + exists tl. rewrite Hidx, Htl. split; reflexivity.
    + exists tl. rewrite Hidx, Htl. split; reflexivity.
  - destruct (Z.leb_spec 0 (Z.of_nat (length turns) - 1)) as [_|]; [|lia].
    destruct (Z.ltb_spec (Z.of_nat (length turns) - 1) (Z.of_nat (length turns))) as [_|];
      [|lia].
    cbn [andb]. exists tl. rewrite Hidx, Htl. split; reflexivity.
Qed.



Lemma logging_nil (w : World) : logging [] w = w.
Proof. unfold logging. rewrite app_nil_r. destruct w; reflexivity. Qed.

Lemma updateThread_logs (w : World) :
  updateThread w = (Ok tt, logging (turnsHiddenNotice (ctl w)) w).
Proof.
  unfold updateThread, turnsHiddenNotice, getTurnCount. mrun.
  destruct (threadEl (ctl w)); cbn [negb andb]; [|rewrite logging_nil; reflexivity].
  destruct (authError (ctl w)); cbn [is_some negb andb]; [rewrite logging_nil; reflexivity|].
  destruct (Nat.eqb_spec (length (messages (ctl w))) 0) as [Hempty|Hsome].
  - assert (Hcount : countUser (messages (ctl w)) = 0%nat).
    { destruct (messages (ctl w)); [reflexivity|discriminate Hempty]. }
    rewrite Hcount. cbn [Z.of_nat Z.ltb Z.compare andb].
    rewrite andb_false_r, logging_nil. reflexivity.
  - rewrite turns_count_groupMessagesIntoTurns.
    destruct (displayMode (ctl w)) eqn:Hmode; cbn [DisplayMode_eqb andb];
      [rewrite logging_nil; reflexivity|].
    destruct (Nat.ltb_spec 0 (countUser (messages (ctl w)))) as [Hpos|Hzero]; cbn [andb].
    + destruct (getDisplayTurns_shown (ctl w) (groupMessagesIntoTurns (messages (ctl w))) Hmode)
        as (t & _ & Hshown).
      { intros Hnil. pose proof (turns_count_groupMessagesIntoTurns (messages (ctl w))) as Hl.
        rewrite Hnil in Hl. cbn in Hl. lia. }
      rewrite Hshown. cbn [length].
      destruct (Nat.ltb_spec 1 (countUser (messages (ctl w)))) as [Htwo|Hone];
        destruct (Z.ltb_spec 1 (Z.of_nat (countUser (messages (ctl w))))) as [Htwo'|Hone'];
        try lia; [reflexivity|rewrite logging_nil; reflexivity].
    + destruct (Z.ltb_spec 1 (Z.of_nat (countUser (messages (ctl w))))) as [Htwo'|Hone'];
        [lia|]. rewrite logging_nil. reflexivity.
Qed.




Lemma goToTurn_run (turnIndex : Z) (w : World) :
  goToTurn turnIndex w
  = if DisplayMode_eqb (displayMode (ctl w)) LastTurn
       && (1 <=? turnIndex)%Z && (turnIndex <=? getTurnCount (ctl w))%Z
    then (Ok tt, navigated turnIndex w)
    else (Ok tt, w).
Proof.
  unfold goToTurn.
  rewrite (mbind_ok get _ (ctl w) w w eq_refl).
  destruct (DisplayMode_eqb (displayMode (ctl w)) LastTurn); cbn [negb andb]; [|reflexivity].
  cbv zeta.
  destruct (Z.ltb_spec turnIndex 1) as [Hlo|Hlo];
    destruct (Z.leb_spec 1 turnIndex) as [Hlo'|Hlo']; try lia; cbn [orb andb];
    [reflexivity|].
  rewrite Z.gtb_ltb.
  destruct (Z.ltb_spec (getTurnCount (ctl w)) turnIndex) as [Hhi|Hhi];
    destruct (Z.leb_spec turnIndex (getTurnCount (ctl w))) as [Hhi'|Hhi']; try lia;
    [reflexivity|].
  rewrite (mbind_ok (modify (set_activeTurnIndex (Some turnIndex))) _ tt w
             {| ctl := set_activeTurnIndex (Some turnIndex) (ctl w); effects := effects w;
                ticks := ticks w |} eq_refl).
  rewrite (mbind_ok updateThread _ tt _ _ (updateThread_logs _)).
  unfold dispatch, emit, logging, navigated. cbn [ctl effects ticks].
  rewrite <- app_assoc. reflexivity.
Qed.

Lemma goToNextTurn_run (w : World) :
  goToNextTurn w
  = match displayMode (ctl w), activeTurnIndex (ctl w) with
    | LastTurn, Some k =>
        if (k <? getTurnCount (ctl w))%Z then goToTurn (k + 1) w else (Ok tt, w)
    | _, _ => (Ok tt, w)
    end.
Proof.
  unfold goToNextTurn. rewrite (mbind_ok get _ (ctl w) w w eq_refl).
  destruct (displayMode (ctl w)); cbn [DisplayMode_eqb negb]; [reflexivity|].
  cbv zeta. destruct (activeTurnIndex (ctl w)) as [k|].
  - destruct (k <? getTurnCount (ctl w))%Z; reflexivity.
  - rewrite Z.ltb_irrefl. reflexivity.
Qed.

Lemma goToPreviousTurn_run (w : World) :
  goToPreviousTurn w
  = match displayMode (ctl w) with
    | LastTurn =>
        let currentTurn :=
          match activeTurnIndex (ctl w) with Some k => k | None => getTurnCount (ctl w) end in
        if (currentTurn >? 1)%Z then goToTurn (currentTurn - 1) w else (Ok tt, w)
    | Full => (Ok tt, w)
    end.
Proof.
  unfold goToPreviousTurn. rewrite (mbind_ok get _ (ctl w) w w eq_refl).
  destruct (displayMode (ctl w)); cbn [DisplayMode_eqb negb]; [reflexivity|].
  cbv zeta. destruct (_ >? 1)%Z; reflexivity.
Qed.

Lemma goToTurn_navigates (turnIndex : Z) (w : World) :
  displayMode (ctl w) = LastTurn ->
  (1 <= turnIndex <= getTurnCount (ctl w))%Z ->
  goToTurn turnIndex w = (Ok tt, navigated turnIndex w).
Proof.
  intros Hmode [Hlo Hhi]. rewrite goToTurn_run, Hmode. cbn [DisplayMode_eqb andb].
  destruct (Z.leb_spec 1 turnIndex); [|lia].
  destruct (Z.leb_spec turnIndex (getTurnCount (ctl w))); [|lia]. reflexivity.
Qed.



Lemma nav_ok_navigated (k : Z) (w : World) :
  (1 <= k <= getTurnCount (ctl w))%Z -> nav_ok (ctl (navigated k w)).
Proof. intros H. exact H. Qed.

Lemma goToTurn_nav_ok (k : Z) (w : World) :
  nav_ok (ctl w) -> nav_ok (ctl (snd (goToTurn k w))).
Proof.
  intros Hok. rewrite goToTurn_run.
  destruct (DisplayMode_eqb (displayMode (ctl w)) LastTurn); cbn [andb]; [|exact Hok].
  destruct (Z.leb_spec 1 k); cbn [andb]; [|exact Hok].
  destruct (Z.leb_spec k (getTurnCount (ctl w))); [|exact Hok].
  apply nav_ok_navigated. lia.
Qed.


Lemma set_activeTurnIndex_same (s : State) (k : option Z) :
  activeTurnIndex s = k -> set_activeTurnIndex k s = s.
Proof. intros H. destruct s. cbn in H. subst. reflexivity. Qed.

(** X8. Next and back: in last-turn mode, from an active turn [k] that is
    not the last, [goToNextTurn] makes [k + 1] the active turn and
    [goToPreviousTurn] then gives back the state before both. *)
Theorem next_then_previous (k : Z) (w : World) :
  displayMode (ctl w) = LastTurn ->
  activeTurnIndex (ctl w) = Some k ->
  (1 <= k < getTurnCount (ctl w))%Z ->
  activeTurnIndex (ctl (snd (goToNextTurn w))) = Some (k + 1)%Z
  /\ ctl (snd (goToPreviousTurn (snd (goToNextTurn w)))) = ctl w.
Proof.
  intros Hmode Hk [Hlo Hhi].
  assert (Hnext : goToNextTurn w = (Ok tt, navigated (k + 1) w)).
  { rewrite goToNextTurn_run, Hmode, Hk.
    destruct (Z.ltb_spec k (getTurnCount (ctl w))); [|lia].
    apply goToTurn_navigates; [exact Hmode|lia]. }
  rewrite Hnext. cbn [snd]. split; [reflexivity|].
  rewrite goToPreviousTurn_run.
  change (displayMode (ctl (navigated (k + 1) w))) with (displayMode (ctl w)).
  rewrite Hmode. cbv zeta.
  change (activeTurnIndex (ctl (navigated (k + 1) w))) with (Some (k + 1)%Z).
  rewrite Z.gtb_ltb. destruct (Z.ltb_spec 1 (k + 1)); [|lia].
  rewrite goToTurn_navigates.
  - cbn [snd navigated ctl]. replace (k + 1 - 1)%Z with k by lia.
    destruct w as [s l t]. cbn [ctl] in *. destruct s. cbn in Hk. subst. reflexivity.
  - exact Hmode.
  - change (getTurnCount (ctl (navigated (k + 1) w))) with (getTurnCount (ctl w)). lia.
Qed.




(** ** The navigation at work: two turns, the first shown *)



Lemma next_then_previous_witness :
  activeTurnIndex (ctl (snd (goToNextTurn browsingWorld))) = Some (1 + 1)%Z
  /\ ctl (snd (goToPreviousTurn (snd (goToNextTurn browsingWorld)))) = ctl browsingWorld.
Proof.
  apply (next_then_previous 1 browsingWorld); [reflexivity|reflexivity|].
  vm_compute. split; [discriminate|reflexivity].
Defined.


Local Open Scope string_scope.


(** ** Collapsing *)

Lemma collapse_run (w : World) :
  collapse w
  = if collapsible (ctl w)
    then (Ok tt, {| ctl := set_isCollapsed true (ctl w);
                    effects := (effects w ++ turnsHiddenNotice (ctl w)
                                ++ [Dispatched "wf-collapsed" NoDetail])%list;
                    ticks := ticks w |})
    else (Ok tt, w).
Proof.
  unfold collapse. rewrite (mbind_ok get _ (ctl w) w w eq_refl).
  destruct (collapsible (ctl w)); cbn [negb]; [|reflexivity].
  rewrite (mbind_ok (modify (set_isCollapsed true)) _ tt w
             {| ctl := set_isCollapsed true (ctl w); effects := effects w;
                ticks := ticks w |} eq_refl).
  rewrite (mbind_ok updateThread _ tt _ _ (updateThread_logs _)).
  unfold dispatch, emit, logging. cbn [ctl effects ticks].
  rewrite <- app_assoc. reflexivity.
Qed.

Lemma expand_run (w : World) :
  expand w
  = if collapsible (ctl w)
    then (Ok tt, {| ctl := set_isCollapsed false (ctl w);
                    effects := (effects w ++ turnsHiddenNotice (ctl w)
                                ++ [Dispatched "wf-expanded" NoDetail])%list;
                    ticks := ticks w |})
    else (Ok tt, w).
Proof.
  unfold expand. rewrite (mbind_ok get _ (ctl w) w w eq_refl).
  destruct (collapsible (ctl w)); cbn [negb]; [|reflexivity].
  rewrite (mbind_ok (modify (set_isCollapsed false)) _ tt w
             {| ctl := set_isCollapsed false (ctl w); effects := effects w;
                ticks := ticks w |} eq_refl).
  rewrite (mbind_ok updateThread _ tt _ _ (updateThread_logs _)).
  unfold dispatch, emit, logging. cbn [ctl effects ticks].
  rewrite <- app_assoc. reflexivity.
Qed.

Lemma toggleCollapse_run (w : World) :
  toggleCollapse w
  = if collapsible (ctl w) then (if isCollapsed (ctl w) then expand w else collapse w)
    else (Ok tt, w).
Proof.
  unfold toggleCollapse. rewrite (mbind_ok get _ (ctl w) w w eq_refl).
  destruct (collapsible (ctl w)); cbn [negb]; [|reflexivity].
  destruct (isCollapsed (ctl w)); reflexivity.
Qed.

Lemma set_isCollapsed_twice (s : State) (b : bool) :
  set_isCollapsed (isCollapsed s) (set_isCollapsed b s) = s.
Proof. destruct s. reflexivity. Qed.



Local Open Scope string_scope.



(** ** Configuration *)

Lemma succeeds_try_catch {A : Type} (m : M A) (h : JsError -> M A) :
  (forall e, succeeds (h e)) -> succeeds (try_catch m h).
Proof.
  intros Hh w. unfold try_catch. destruct (m w) as [[a|e] w1].
  - exists a. reflexivity.
  - apply Hh.
Qed.

Lemma applyConfigToComponentProps_succeeds : succeeds applyConfigToComponentProps.
Proof. unfold applyConfigToComponentProps. succeeds_go. Qed.

Lemma initialize_succeeds (env : Env) : succeeds (initialize env).
Proof.
  pose proof applyConfigToComponentProps_succeeds.
  pose proof updateThread_succeeds.
  unfold initialize, renderFullState.
  apply succeeds_bind; [apply succeeds_get|]. intros s.
  destruct (_ && _ && _ && _); [succeeds_go|].
  destruct (negb _); [apply succeeds_ret|].
  apply succeeds_try_catch. intros e. apply succeeds_ret.
Qed.

Lemma ensureResolvedIds_after_initialize (env : Env) (w : World) :
  let after :=
    (initialize env ≫= λ _ : (), get ≫= λ s' : State,
       if negb (Js.truthy (projectId s')) || negb (Js.truthy (notebookId s'))
       then throw (Error "Missing guide configuration")
       else mret tt) w in
  match fst after with
  | Ok _ => ids_known (ctl (snd after)) = true
  | Rejected e =>
      e = Error "Missing guide configuration" /\ ids_known (ctl (snd after)) = false
  end.
Proof.
  cbv zeta. pose proof (succeeds_unit (initialize env) w (initialize_succeeds env)) as Hi.
  unfold mbind, M_bind, get, gets. cbv beta.
  destruct (initialize env w) as [r w1]. cbn [fst] in Hi. subst r. unfold ids_known.
  destruct (Js.truthy (projectId (ctl w1))) eqn:Hp1,
           (Js.truthy (notebookId (ctl w1))) eqn:Hn1;
    cbv [throw mret M_ret fst snd negb orb]; rewrite ?Hp1, ?Hn1;
    first [reflexivity | split; reflexivity].
Qed.

(** X12. [initialize] never rejects, whatever the service answers: a failed
    configuration request is swallowed. So [ensureResolvedIds] rejects with
    [Missing guide configuration] and nothing else, also when the request
    failed on authentication; and when it resolves, the project and the
    notebook of the guide are known. *)
Theorem ensureResolvedIds_outcome (env : Env) (w : World) :
  fst (initialize env w) = Ok tt
  /\ match fst (ensureResolvedIds env w) with
     | Ok _ => ids_known (ctl (snd (ensureResolvedIds env w))) = true
     | Rejected e =>
         e = Error "Missing guide configuration"
         /\ ids_known (ctl (snd (ensureResolvedIds env w))) = false
     end.
Proof.
  split; [apply succeeds_unit, initialize_succeeds|].
  pose proof (ensureResolvedIds_after_initialize env w) as Hafter. cbv zeta in Hafter.
  unfold ensureResolvedIds.
  rewrite (mbind_ok get _ (ctl w) w w eq_refl).
  destruct (Js.truthy (projectId (ctl w))) eqn:Hp; cbn [andb]; [|exact Hafter].
  destruct (Js.truthy (notebookId (ctl w))) eqn:Hn; cbn [andb]; [|exact Hafter].
  destruct (Js.truthy (guideId (ctl w))); [|exact Hafter].
  cbv [mret M_ret fst snd]. unfold ids_known. rewrite Hp, Hn. reflexivity.
Qed.

(** X13. When the configuration request fails, [initialize] leaves the
    state as it was: nothing of a configuration is stored, and the avatar
    is not asked for. *)
Theorem initialize_failure (env : Env) (w : World) (e : JsError) :
  initialized (ctl w) = false ->
  Js.truthy (pubId (ctl w)) = true ->
  getPublishedGuideConfig env (ticks w) = Rejected e ->
  initialize env w
  = (Ok tt, {| ctl := ctl w; effects := (effects w ++ [Requested FetchConfig])%list;
               ticks := Datatypes.S (ticks w) |}).
Proof.
  intros Hinit Hpub Hfail. unfold initialize, initialized in *.
  rewrite (mbind_ok get _ (ctl w) w w eq_refl), Hinit, Hpub. cbn [negb].
  unfold try_catch, service_fetchConfig.
  rewrite (mbind_mbind_ok get _ _ (ctl w) w w eq_refl), Hpub. cbn [negb].
  rewrite (mbind_mbind_ok (emit (Requested FetchConfig)) _ _ tt w
             {| ctl := ctl w; effects := (effects w ++ [Requested FetchConfig])%list;
                ticks := ticks w |} eq_refl).
  unfold mbind, M_bind, await. cbn [ticks]. rewrite Hfail. reflexivity.
Qed.

(** X14. [testAuthentication] rejects with the very error of the
    configuration request, an authentication error included, and then
    stores nothing; when the request succeeds it resolves with the
    configuration and stores it, without resolving the guide ids. *)
Theorem testAuthentication_outcome (env : Env) (w : World) :
  Js.truthy (pubId (ctl w)) = true ->
  let after := testAuthentication env w in
  match getPublishedGuideConfig env (ticks w) with
  | Rejected e =>
      after = (Rejected e,
               {| ctl := ctl w; effects := (effects w ++ [Requested FetchConfig])%list;
                  ticks := Datatypes.S (ticks w) |})
  | Ok config =>
      fst after = Ok config
      /\ publishedGuideConfig (ctl (snd after)) = Some config
      /\ publishedGuideAvatarUrl (ctl (snd after)) = fetchAvatarUrl env (Datatypes.S (ticks w))
      /\ projectId (ctl (snd after)) = projectId (ctl w)
      /\ notebookId (ctl (snd after)) = notebookId (ctl w)
      /\ guideId (ctl (snd after)) = guideId (ctl w)
  end.
Proof.
  intros Hpub. cbv zeta. unfold testAuthentication.
  rewrite (mbind_ok get _ (ctl w) w w eq_refl), Hpub. cbn [negb].
  unfold service_fetchConfig.
  rewrite (mbind_mbind_ok get _ _ (ctl w) w w eq_refl), Hpub. cbn [negb].
  rewrite (mbind_mbind_ok (emit (Requested FetchConfig)) _ _ tt w
             {| ctl := ctl w; effects := (effects w ++ [Requested FetchConfig])%list;
                ticks := ticks w |} eq_refl).
  destruct (getPublishedGuideConfig env (ticks w)) as [config|e] eqn:Hcfg.
  - change (wp (await (getPublishedGuideConfig env) ≫= λ config0 : PublishedGuideConfig,
              modify (set_publishedGuideConfig (Some config0))
              ≫= λ _ : (), service_fetchAvatarUrl env
              ≫= λ avatarUrl : option string, modify (set_publishedGuideAvatarUrl avatarUrl)
              ≫= λ _ : (), initializeConversationStartersFromConfig
              ≫= λ _ : (), mret config0)
              (fun r w1 =>
                 r = Ok config
                 /\ publishedGuideConfig (ctl w1) = Some config
                 /\ publishedGuideAvatarUrl (ctl w1)
                    = fetchAvatarUrl env (Datatypes.S (ticks w))
                 /\ projectId (ctl w1) = projectId (ctl w)
                 /\ notebookId (ctl w1) = notebookId (ctl w)
                 /\ guideId (ctl w1) = guideId (ctl w))
              {| ctl := ctl w; effects := (effects w ++ [Requested FetchConfig])%list;
                 ticks := ticks w |}).
    apply wp_bind, wp_await. cbn [ticks]. rewrite Hcfg. wp_steps.
    unfold service_fetchAvatarUrl. wp_steps. rewrite Hpub. state_simpl. wp_steps.
    unfold initializeConversationStartersFromConfig. wp_steps.
    destruct (0 <? length (conversationStarters (ctl w)))%nat; wp_steps;
      [repeat split|].
    destruct (cfg_conversationStarters config) as [starters|]; wp_steps; [|repeat split].
    destruct (0 <? length starters)%nat; wp_steps; repeat split.
  - unfold mbind, M_bind, await. cbn [ticks]. rewrite Hcfg. reflexivity.
Qed.


(** The configuration is applied to a host that has the attribute of the
    property [f]. *)
Ltac config_keeps f Hattr :=
  match goal with
  | |- f (ctl (snd (applyConfigToComponentProps ?w))) = _ =>
      change (wp applyConfigToComponentProps (fun _ w1 => unchanged f (f (ctl w)) w1) w);
      unfold applyConfigToComponentProps; apply wp_bind, wp_get;
      destruct (publishedGuideConfig (ctl w)); [|reflexivity];
      cbv zeta; rewrite (bool_decide_eq_true_2 _ Hattr); cbn [negb when];
      apply (wp_keeps (unchanged f (f (ctl w)))); [keeps_go|reflexivity|];
      intros; assumption
  end.

Lemma applyConfig_displayMode (w : World) :
  "display-mode" ∈ hostAttributes (ctl w) ->
  displayMode (ctl (snd (applyConfigToComponentProps w))) = displayMode (ctl w).
Proof. intros Hattr. config_keeps displayMode Hattr. Qed.

Lemma applyConfig_collapsible (w : World) :
  "collapsible" ∈ hostAttributes (ctl w) ->
  collapsible (ctl (snd (applyConfigToComponentProps w))) = collapsible (ctl w).
Proof. intros Hattr. config_keeps collapsible Hattr. Qed.

Lemma applyConfig_commandMode (w : World) :
  "command-mode" ∈ hostAttributes (ctl w) ->
  commandMode (ctl (snd (applyConfigToComponentProps w))) = commandMode (ctl w).
Proof. intros Hattr. config_keeps commandMode Hattr. Qed.

(** X15. What the host element says wins over the published
    configuration: [applyConfigToComponentProps] leaves a property as it is
    when the host has the attribute of that property, whatever the
    configuration holds. *)
Theorem attributes_win_over_config (w : World) :
  let s := ctl w in
  let s' := ctl (snd (applyConfigToComponentProps w)) in
  ("display-mode" ∈ hostAttributes s -> displayMode s' = displayMode s)
  /\ ("enable-turn-navigation" ∈ hostAttributes s ->
      enableTurnNavigation s' = enableTurnNavigation s)
  /\ ("collapsible" ∈ hostAttributes s -> collapsible s' = collapsible s)
  /\ ("conversation-starters-enabled" ∈ hostAttributes s ->
      conversationStartersEnabled s' = conversationStartersEnabled s)
  /\ ("attachments-enabled" ∈ hostAttributes s ->
      attachmentsEnabled s' = attachmentsEnabled s)
  /\ ("command-mode" ∈ hostAttributes s -> commandMode s' = commandMode s).
Proof.
  cbv zeta. split; [apply applyConfig_displayMode|].
  split; [intros Hattr; config_keeps enableTurnNavigation Hattr|].
  split; [apply applyConfig_collapsible|].
  split; [intros Hattr; config_keeps conversationStartersEnabled Hattr|].
  split; [intros Hattr; config_keeps attachmentsEnabled Hattr|].
  apply applyConfig_commandMode.
Qed.


Lemma setDisplayMode_ctl (mode : DisplayMode) (w : World) :
  ctl (snd (setDisplayMode mode w))
  = set_hostAttributes ({[ "display-mode" ]} ∪ hostAttributes (ctl w))
      (set_displayMode mode (ctl w)).
Proof.
  unfold setDisplayMode, setAttribute.
  rewrite (mbind_ok (modify (set_displayMode mode)) _ tt w
             {| ctl := set_displayMode mode (ctl w); effects := effects w;
                ticks := ticks w |} eq_refl).
  match goal with
  | |- context [(modify ?f ≫= ?k) ?w0] =>
      rewrite (mbind_ok (modify f) k tt w0
                 {| ctl := f (ctl w0); effects := effects w0; ticks := ticks w0 |} eq_refl)
  end.
  rewrite updateThread_logs. reflexivity.
Qed.

Lemma setCollapsible_ctl (enabled : bool) (w : World) :
  ctl (snd (setCollapsible enabled w))
  = if enabled
    then set_hostAttributes ({[ "collapsible" ]} ∪ hostAttributes (ctl w))
           (set_collapsible true (ctl w))
    else set_isCollapsed false
           (set_hostAttributes (hostAttributes (ctl w) ∖ {[ "collapsible" ]})
              (set_collapsible false (ctl w))).
Proof. destruct enabled; reflexivity. Qed.

Lemma setCommandMode_ctl (enabled : bool) (w : World) :
  ctl (snd (setCommandMode enabled w))
  = set_hostAttributes
      (if enabled then {[ "command-mode" ]} ∪ hostAttributes (ctl w)
       else hostAttributes (ctl w) ∖ {[ "command-mode" ]})
      (set_commandMode enabled (ctl w)).
Proof.
  unfold setCommandMode, setAttribute, removeAttribute.
  rewrite (mbind_ok (modify (set_commandMode enabled)) _ tt w
             {| ctl := set_commandMode enabled (ctl w); effects := effects w;
                ticks := ticks w |} eq_refl).
  destruct enabled;
    match goal with
    | |- context [(modify ?f ≫= ?k) ?w0] =>
        rewrite (mbind_ok (modify f) k tt w0
                   {| ctl := f (ctl w0); effects := effects w0; ticks := ticks w0 |} eq_refl)
    end;
    rewrite updateThread_logs; reflexivity.
Qed.

Ltac config_paths :=
  repeat first
    [ wp_step
    | match goal with
      | |- context [match ?x with Some _ => _ | None => _ end] => destruct x
      | |- context [bool_decide ?P] => destruct (bool_decide P)
      end ].

Lemma applyConfig_takes_commandMode (w : World) (cfg : PublishedGuideConfig) (b : bool) :
  publishedGuideConfig (ctl w) = Some cfg ->
  cfg_commandMode cfg = Some b ->
  "command-mode" ∉ hostAttributes (ctl w) ->
  commandMode (ctl (snd (applyConfigToComponentProps w))) = b.
Proof.
  intros Hcfg Hb Hattr.
  change (wp applyConfigToComponentProps (fun _ w1 => commandMode (ctl w1) = b) w).
  unfold applyConfigToComponentProps. apply wp_bind, wp_get. rewrite Hcfg. cbv zeta.
  rewrite Hb, (bool_decide_eq_false_2 _ Hattr). cbn [negb when].
  config_paths; reflexivity.
Qed.

Lemma applyConfig_takes_collapsible (w : World) (cfg : PublishedGuideConfig) (b : bool) :
  publishedGuideConfig (ctl w) = Some cfg ->
  cfg_collapsible cfg = Some b ->
  "collapsible" ∉ hostAttributes (ctl w) ->
  collapsible (ctl (snd (applyConfigToComponentProps w))) = b.
Proof.
  intros Hcfg Hb Hattr.
  change (wp applyConfigToComponentProps (fun _ w1 => collapsible (ctl w1) = b) w).
  unfold applyConfigToComponentProps. apply wp_bind, wp_get. rewrite Hcfg. cbv zeta.
  rewrite Hb, (bool_decide_eq_false_2 _ Hattr). cbn [negb when].
  config_paths; reflexivity.
Qed.

(** X16. A setting made through the component's API and the configuration
    applied afterwards: the display mode given to [setDisplayMode], and
    [setCollapsible(true)] and [setCommandMode(true)], stay as set, since
    these calls give the host the attribute; [setCommandMode(false)] and
    [setCollapsible(false)] remove the attribute, so a configuration that
    says [true] then wins. *)
Theorem settings_then_config (w : World) :
  let configured (w1 : World) := ctl (snd (applyConfigToComponentProps w1)) in
  (forall mode, displayMode (configured (snd (setDisplayMode mode w))) = mode)
  /\ collapsible (configured (snd (setCollapsible true w))) = true
  /\ commandMode (configured (snd (setCommandMode true w))) = true
  /\ (forall cfg, publishedGuideConfig (ctl w) = Some cfg ->
                  (cfg_commandMode cfg = Some true ->
                   commandMode (configured (snd (setCommandMode false w))) = true)
                  /\ (cfg_collapsible cfg = Some true ->
                      collapsible (configured (snd (setCollapsible false w))) = true)).
Proof.
  cbv zeta. split; [|split; [|split]].
  - intros mode. rewrite applyConfig_displayMode; rewrite setDisplayMode_ctl.
    + reflexivity.
    + cbn [hostAttributes set_hostAttributes]. apply elem_of_union_l, elem_of_singleton.
      reflexivity.
  - rewrite applyConfig_collapsible; rewrite setCollapsible_ctl.
    + reflexivity.
    + cbn [hostAttributes set_hostAttributes]. apply elem_of_union_l, elem_of_singleton.
      reflexivity.
  - rewrite applyConfig_commandMode; rewrite setCommandMode_ctl.
    + reflexivity.
    + cbn [hostAttributes set_hostAttributes]. apply elem_of_union_l, elem_of_singleton.
      reflexivity.
  - intros cfg Hcfg. split; intros Htrue.
    + apply (applyConfig_takes_commandMode _ cfg); rewrite ?setCommandMode_ctl.
      * exact Hcfg.
      * exact Htrue.
      * cbn [hostAttributes set_hostAttributes].
        rewrite elem_of_difference, elem_of_singleton. intros [_ H]. apply H. reflexivity.
    + apply (applyConfig_takes_collapsible _ cfg); rewrite ?setCollapsible_ctl.
      * exact Hcfg.
      * exact Htrue.
      * cbn [hostAttributes set_hostAttributes set_isCollapsed].
        rewrite elem_of_difference, elem_of_singleton. intros [_ H]. apply H. reflexivity.
Qed.

(** ** Guards of a send *)

(** X17. [sendMessageWithAttachments] rejects, and changes nothing, when
    attachments are disabled, else when a message is streaming, else when
    the content is empty once trimmed; in this order. *)
Theorem sendMessageWithAttachments_rejects (env : Env) (instructions : string)
  (atts : list PublishedAttachment) (w : World) :
  attachmentsEnabled (ctl w) = false \/ isStreaming (ctl w) = true
  \/ Js.trim instructions = EmptyString ->
  sendMessageWithAttachments env instructions atts w
  = (Rejected
       (Error (if negb (attachmentsEnabled (ctl w))
               then "Attachments are disabled on this component"
               else if isStreaming (ctl w)
                    then "Cannot send a new message while streaming"
                    else "Message content is required")),
     w).
Proof.
  intros H. unfold sendMessageWithAttachments.
  rewrite (mbind_ok get _ (ctl w) w w eq_refl).
  destruct (attachmentsEnabled (ctl w)); cbn [negb]; [|reflexivity].
  destruct (isStreaming (ctl w)); [reflexivity|].
  destruct H as [H|[H|H]]; try discriminate H.
  cbv zeta. rewrite H. reflexivity.
Qed.

(** X18. The send button does nothing at all (no error, no request, no
    change) when the input is empty once trimmed, or when a message is
    streaming, provided the publication id is set; without a publication id
    it only shows [Missing pub-id attribute]. *)
Theorem onSend_does_nothing (env : Env) (w : World) :
  Js.trim (Js.or_else (inputEl (ctl w)) EmptyString) = EmptyString
  \/ isStreaming (ctl w) = true ->
  onSend env w
  = (Ok tt,
     if Js.truthy (pubId (ctl w)) then w
     else {| ctl := set_inlineError (Some "Missing pub-id attribute") (ctl w);
             effects := effects w; ticks := ticks w |}).
Proof.
  intros H. unfold onSend. rewrite (mbind_ok get _ (ctl w) w w eq_refl).
  destruct (Js.truthy (pubId (ctl w))); cbn [negb]; [|reflexivity].
  cbv zeta.
  destruct (String.eqb_spec (Js.trim (Js.or_else (inputEl (ctl w)) EmptyString)) EmptyString)
    as [|Hne]; [reflexivity|].
  destruct H as [H|H]; [contradiction|]. rewrite H. reflexivity.
Qed.


(** ** A service without the publication *)

Lemma initialize_failure_witness :
  initialize quietEnv (world_of resolvedState)
  = (Ok tt, {| ctl := resolvedState; effects := ([] ++ [Requested FetchConfig])%list;
               ticks := 1 |}).
Proof.
  exact (initialize_failure quietEnv (world_of resolvedState) (Error "HTTP 404")
           eq_refl eq_refl eq_refl).
Defined.

Lemma testAuthentication_outcome_witness :
  testAuthentication quietEnv (world_of resolvedState)
  = (Rejected (Error "HTTP 404"),
     {| ctl := resolvedState; effects := ([] ++ [Requested FetchConfig])%list; ticks := 1 |}).
Proof.
  exact (testAuthentication_outcome quietEnv (world_of resolvedState) eq_refl).
Defined.

Lemma sendMessageWithAttachments_rejects_witness :
  sendMessageWithAttachments quietEnv "Hello" [] (world_of resolvedState)
  = (Rejected (Error "Attachments are disabled on this component"), world_of resolvedState).
Proof.
  exact (sendMessageWithAttachments_rejects quietEnv "Hello" [] (world_of resolvedState)
           (or_introl eq_refl)).
Defined.

Lemma onSend_does_nothing_witness :
  onSend quietEnv (world_of resolvedState) = (Ok tt, world_of resolvedState).
Proof.
  exact (onSend_does_nothing quietEnv (world_of resolvedState) (or_introl eq_refl)).
Defined.

Local Open Scope string_scope.


Lemma wp_performSend_limits_too_long (env : Env) (instructions : string)
  (given : option (list PublishedAttachment)) (n : Z)
  (Q : Res (option (list PendingAttachment * list PublishedAttachment)) -> World -> Prop)
  (w : World) :
  resolved (ctl w) ->
  lengthExceeded (ctl w) instructions = Some n ->
  Q (Ok None)
    {| ctl := set_pendingAttachments (pendingAttachments (ctl w))
                (set_inlineError (Some (maxLengthMessage n))
                   (set_pendingAttachments [] (ctl w)));
       effects := effects w; ticks := ticks w |} ->
  wp (performSend_limits env instructions given) Q w.
Proof.
  intros Hres Hlen H. unfold performSend_limits. cbv zeta. wp_steps.
  apply wp_ensureResolvedIds_resolved; [exact Hres|]. wp_steps.
  rewrite Hlen. wp_steps. exact H.
Qed.




(** ** Attachments *)

Lemma trimStart_length (s : string) : String.length (Js.trimStart s) <= String.length s.
Proof.
  induction s as [|c r IH]; [reflexivity|]. cbn [Js.trimStart].
  destruct (Js.is_space c); cbn [String.length]; lia.
Qed.

Lemma trimStart_head (c : ascii) (r : string) :
  Js.trimStart (String c r) = String c r -> Js.is_space c = false.
Proof.
  cbn [Js.trimStart]. destruct (Js.is_space c); [|reflexivity].
  intros H. pose proof (trimStart_length r) as Hlen. rewrite H in Hlen.
  cbn [String.length] in Hlen. lia.
Qed.

Lemma trimStart_idempotent (s : string) : Js.trimStart (Js.trimStart s) = Js.trimStart s.
Proof.
  induction s as [|c r IH]; [reflexivity|]. cbn [Js.trimStart].
  destruct (Js.is_space c) eqn:Hc; [exact IH|]. cbn [Js.trimStart]. rewrite Hc. reflexivity.
Qed.

Lemma trimEnd_idempotent (s : string) : Js.trimEnd (Js.trimEnd s) = Js.trimEnd s.
Proof.
  induction s as [|c r IH]; [reflexivity|]. cbn [Js.trimEnd].
  destruct (Js.trimEnd r) as [|d r'] eqn:Hr.
  - destruct (Js.is_space c) eqn:Hc; [reflexivity|]. cbn [Js.trimEnd]. rewrite Hc. reflexivity.
  - cbn [Js.trimEnd] in *. rewrite IH. reflexivity.
Qed.

Lemma trimStart_trimEnd (s : string) :
  Js.trimStart s = s -> Js.trimStart (Js.trimEnd s) = Js.trimEnd s.
Proof.
  destruct s as [|c r]; [reflexivity|]. intros H. apply trimStart_head in H.
  cbn [Js.trimEnd]. destruct (Js.trimEnd r).
  - rewrite H. cbn [Js.trimStart]. rewrite H. reflexivity.
  - cbn [Js.trimStart]. rewrite H. reflexivity.
Qed.

Lemma trim_idempotent (s : string) : Js.trim (Js.trim s) = Js.trim s.
Proof.
  unfold Js.trim. rewrite trimStart_trimEnd by apply trimStart_idempotent.
  apply trimEnd_idempotent.
Qed.

Lemma normalized_normal (atts : list PublishedAttachment) :
  Forall normal_attachment
    (flat_map (fun att =>
       let i := Js.trim (notebookFileId att) in
       if String.eqb i EmptyString then []
       else [{| notebookFileId := i; uploadType := uploadType att; fileName := None |}])
       atts).
Proof.
  induction atts as [|a rest IH]; [constructor|]. cbn [flat_map]. cbv zeta in IH |- *.
  apply Forall_app. split; [|exact IH].
  destruct (String.eqb_spec (Js.trim (notebookFileId a)) EmptyString) as [|Hne];
    [constructor|].
  constructor; [|constructor]. repeat split; [exact Hne|apply trim_idempotent].
Qed.

Lemma normalized_fixed (atts : list PublishedAttachment) :
  Forall normal_attachment atts ->
  flat_map (fun att =>
    let i := Js.trim (notebookFileId att) in
    if String.eqb i EmptyString then []
    else [{| notebookFileId := i; uploadType := uploadType att; fileName := None |}])
    atts
  = atts.
Proof.
  induction 1 as [|a rest (Hne & Htrim & Hname) _ IH]; [reflexivity|].
  cbn [flat_map]. cbv zeta in IH |- *. rewrite IH, Htrim.
  destruct (String.eqb_spec (notebookFileId a) EmptyString) as [|_]; [contradiction|].
  destruct a as [i t f]. cbn in Hname. subst f. reflexivity.
Qed.



Local Open Scope string_scope.


(** ** Undo and restart *)

(** X21. Restart. When the restart button is enabled (no stream is open and
    the component is not in command mode) [onRestart] forgets the
    conversation locally: no messages, no conversation id, no context, no
    authentication error, no inline error, no active turn, an empty input;
    it dispatches [wf-restart] and nothing else, so no request is made. The
    tool registry and the pending attachments are as before. When the button
    is disabled [onRestart] does nothing. *)
Theorem onRestart_outcome (w : World) :
  let after := onRestart w in
  fst after = Ok tt
  /\ if restartDisabled (ctl w) then snd after = w
     else messages (ctl (snd after)) = []
          /\ conversationId (ctl (snd after)) = None
          /\ conversationContext (ctl (snd after)) = None
          /\ authError (ctl (snd after)) = None
          /\ inlineError (ctl (snd after)) = None
          /\ activeTurnIndex (ctl (snd after)) = None
          /\ inputEl (ctl (snd after))
             = match inputEl (ctl w) with Some _ => Some EmptyString | None => None end
          /\ effects (snd after) = (effects w ++ [Dispatched "wf-restart" NoDetail])%list
          /\ toolRegistry (ctl (snd after)) = toolRegistry (ctl w)
          /\ pendingAttachments (ctl (snd after)) = pendingAttachments (ctl w)
          /\ ticks (snd after) = ticks w.
Proof.
  cbv zeta.
  pose (Q := fun (r : Res unit) (w1 : World) =>
    r = Ok tt
    /\ if restartDisabled (ctl w) then w1 = w
       else messages (ctl w1) = []
            /\ conversationId (ctl w1) = None
            /\ conversationContext (ctl w1) = None
            /\ authError (ctl w1) = None
            /\ inlineError (ctl w1) = None
            /\ activeTurnIndex (ctl w1) = None
            /\ inputEl (ctl w1)
               = match inputEl (ctl w) with Some _ => Some EmptyString | None => None end
            /\ effects w1 = (effects w ++ [Dispatched "wf-restart" NoDetail])%list
            /\ toolRegistry (ctl w1) = toolRegistry (ctl w)
            /\ pendingAttachments (ctl w1) = pendingAttachments (ctl w)
            /\ ticks w1 = ticks w).
  change (wp onRestart Q w).
  unfold onRestart, Q, restartDisabled. wp_steps.
  destruct (commandMode (ctl w)); [rewrite orb_true_r; wp_steps; split; reflexivity|].
  destruct (isStreaming (ctl w)); [wp_steps; split; reflexivity|].
  cbn [orb]. unfold clearConversation. wp_steps.
  apply wp_updateThread_no_messages; [reflexivity|]. wp_steps.
  apply wp_updateThread_no_messages;
    [state_simpl; destruct (inputEl (ctl w)); reflexivity|].
  wp_steps. state_simpl.
  destruct (inputEl (ctl w)) eqn:Hin; state_simpl; rewrite ?Hin; repeat split; reflexivity.
Qed.

Lemma wp_service_ensureResolvedIds (Q : Res unit -> World -> Prop) (w : World) :
  resolved (ctl w) -> Q (Ok tt) w -> wp service_ensureResolvedIds Q w.
Proof.
  intros (Hp & Hn & _) H.
  eapply wp_eq; [apply service_ensureResolvedIds_resolved; assumption|exact H].
Qed.

Lemma wp_loadConversation (env : Env) (Q : Res unit -> World -> Prop) (w : World) :
  Js.truthy (conversationId (ctl w)) = true ->
  resolved (ctl w) ->
  match getConversation env (ticks w) with
  | Ok loaded =>
      forall extra,
        Forall turns_hidden extra ->
        Q (Ok tt)
          {| ctl := match sanitizedMessageContent (ctl w) with
                    | Some c =>
                        if Js.truthy (Some c)
                        then set_messages (override_last_assistant c loaded)
                               (set_sanitizedMessageContent None (ctl w))
                        else set_messages loaded (ctl w)
                    | None => set_messages loaded (ctl w)
                    end;
             effects := (effects w ++ [Requested FetchHistory] ++ extra)%list;
             ticks := Datatypes.S (ticks w) |}
  | Rejected e =>
      Q (Rejected e) {| ctl := ctl w; effects := (effects w ++ [Requested FetchHistory])%list;
                        ticks := Datatypes.S (ticks w) |}
  end ->
  wp (loadConversation env) Q w.
Proof.
  intros Hconv Hres H. unfold loadConversation. wp_steps. rewrite Hconv. cbn [negb].
  wp_steps. apply wp_ensureResolvedIds_resolved; [exact Hres|]. wp_steps.
  unfold service_fetchHistory. wp_steps. rewrite Hconv. cbn [negb]. wp_steps.
  apply wp_service_ensureResolvedIds; [exact Hres|]. wp_steps.
  destruct (getConversation env (ticks w)) as [loaded|e]; [|exact H].
  wp_steps.
  assert (Hshow : forall s1 : State,
    (forall extra, Forall turns_hidden extra ->
       Q (Ok tt) {| ctl := s1;
                    effects := (effects w ++ [Requested FetchHistory] ++ extra)%list;
                    ticks := Datatypes.S (ticks w) |}) ->
    if negb (isStreaming (ctl w))
    then wp updateThread Q
           {| ctl := s1; effects := (effects w ++ [Requested FetchHistory])%list;
              ticks := Datatypes.S (ticks w) |}
    else Q (Ok tt)
           {| ctl := s1; effects := (effects w ++ [Requested FetchHistory])%list;
              ticks := Datatypes.S (ticks w) |}).
  { intros s1 Hs1. destruct (isStreaming (ctl w)); cbn [negb].
    - specialize (Hs1 [] (List.Forall_nil _)). rewrite app_nil_r in Hs1. exact Hs1.
    - apply wp_updateThread. intros extra Hextra. cbn [ctl effects ticks].
      rewrite <- List.app_assoc. apply Hs1, Hextra. }
  destruct (sanitizedMessageContent (ctl w)) as [c|] eqn:Hsan.
  - destruct (Js.truthy (Some c)) eqn:Hc; wp_steps; apply Hshow, H.
  - wp_steps. apply Hshow, H.
Qed.




Local Open Scope string_scope.


(** ** The merged message of a turn *)

Lemma uniqueAssistants_cons (msg next : Message) (rest : list Message) :
  uniqueAssistants (msg :: next :: rest)
  = if negb (String.eqb (content msg) (content next))
    then msg :: uniqueAssistants (next :: rest)
    else uniqueAssistants (next :: rest).
Proof. reflexivity. Qed.

Lemma uniqueAssistants_head (msg : Message) (rest : list Message) :
  exists first tail,
    uniqueAssistants (msg :: rest) = first :: tail /\ content first = content msg.
Proof.
  revert msg. induction rest as [|next rest IH]; intros msg.
  - exists msg, []. split; reflexivity.
  - rewrite uniqueAssistants_cons.
    destruct (String.eqb_spec (content msg) (content next)) as [Heq|Hne]; cbn [negb].
    + destruct (IH next) as (first & tail & Hu & Hc). exists first, tail.
      split; [exact Hu|congruence].
    + eexists _, _. split; reflexivity.
Qed.

Lemma uniqueAssistants_no_repeat (ms : list Message) : no_repeat (uniqueAssistants ms).
Proof.
  induction ms as [|msg [|next rest] IH]; [exact I|exact I|].
  rewrite uniqueAssistants_cons.
  destruct (String.eqb_spec (content msg) (content next)) as [Heq|Hne]; cbn [negb];
    [exact IH|].
  destruct (uniqueAssistants_head next rest) as (first & tail & Hu & Hc).
  rewrite Hu in IH |- *. cbn [no_repeat]. split; [congruence|exact IH].
Qed.

Lemma uniqueAssistants_last (ms : list Message) (d : Message) :
  List.last (uniqueAssistants ms) d = List.last ms d.
Proof.
  induction ms as [|msg [|next rest] IH]; [reflexivity|reflexivity|].
  rewrite uniqueAssistants_cons.
  destruct (uniqueAssistants_head next rest) as (first & tail & Hu & _).
  destruct (negb (String.eqb (content msg) (content next))).
  - rewrite Hu in IH |- *. exact IH.
  - exact IH.
Qed.

Lemma uniqueAssistants_fixed (ms : list Message) :
  no_repeat ms -> uniqueAssistants ms = ms.
Proof.
  induction ms as [|msg [|next rest] IH]; [reflexivity|reflexivity|].
  intros [Hne Hrest]. rewrite uniqueAssistants_cons.
  destruct (String.eqb_spec (content msg) (content next)) as [Heq|_]; [contradiction|].
  cbn [negb]. rewrite (IH Hrest). reflexivity.
Qed.

Lemma uniqueAssistants_run (c : string) (ms : list Message) (m : Message) :
  Forall (fun x => content x = c) (m :: ms) ->
  exists l, uniqueAssistants (m :: ms) = [l] /\ content l = c.
Proof.
  revert m. induction ms as [|next rest IH]; intros m Hall.
  - exists m. split; [reflexivity|]. inversion Hall; assumption.
  - rewrite uniqueAssistants_cons.
    inversion Hall as [|? ? Hm Hrest]; subst. inversion Hrest as [|? ? Hn _]; subst.
    rewrite Hn, String.eqb_refl. cbn [negb]. exact (IH next Hrest).
Qed.

(** X23. The filter of [renderAssistantTurn] leaves no two neighbours with
    the same content, always keeps the last message of the turn, and
    changes nothing in a list that has no such neighbours, so filtering
    again changes nothing. *)
Theorem uniqueAssistants_deduplicates (assistants : list Message) (d : Message) :
  no_repeat (uniqueAssistants assistants)
  /\ List.last (uniqueAssistants assistants) d = List.last assistants d
  /\ uniqueAssistants (uniqueAssistants assistants) = uniqueAssistants assistants.
Proof.
  split; [apply uniqueAssistants_no_repeat|].
  split; [apply uniqueAssistants_last|].
  apply uniqueAssistants_fixed, uniqueAssistants_no_repeat.
Qed.



(** ** Registering tools *)

(** X25. Registering a handler removes its tool, and no other, from the
    tools that a batch of calls misses; a handler registered under a name
    that has one replaces it. *)
Theorem registerTool_removes_missing (toolName : string) (handler : ToolHandler)
  (calls : list ToolCall) (w : World) :
  let after := snd (registerTool toolName handler w) in
  fst (registerTool toolName handler w) = Ok tt
  /\ toolRegistry (ctl after) !! toolName = Some handler
  /\ missingHandlers (toolRegistry (ctl after)) calls
     = List.filter (fun n => negb (String.eqb n toolName))
         (missingHandlers (toolRegistry (ctl w)) calls).
Proof.
  cbv zeta. unfold registerTool. mrun. split; [reflexivity|].
  split; [apply lookup_insert_eq|].
  unfold missingHandlers. induction calls as [|call rest IH]; [reflexivity|].
  cbn [flat_map]. rewrite List.filter_app, IH. f_equal.
  destruct (toolName_of call) as [n|]; [|reflexivity].
  destruct (Js.truthy (Some n)); [|reflexivity]. cbn [andb].
  destruct (String.eqb_spec n toolName) as [->|Hne].
  - rewrite lookup_insert_eq. cbn [is_some negb].
    destruct (toolRegistry (ctl w) !! toolName); cbn [is_some negb List.filter];
      [reflexivity|]. rewrite String.eqb_refl. reflexivity.
  - rewrite lookup_insert_ne by congruence.
    destruct (toolRegistry (ctl w) !! n); cbn [is_some negb List.filter]; [reflexivity|].
    destruct (String.eqb_spec n toolName) as [|_]; [contradiction|]. reflexivity.
Qed.

Lemma runHandlers_silent (calls : list ToolCall) :
  forall (w : World) (acc : list ToolResult),
    (forall c n h, In c calls -> toolName_of c = Some n ->
                   toolRegistry (ctl w) !! n = Some h ->
                   h (handlerCall c n) = Resolves None) ->
    exists log,
      runHandlers calls acc w = (Ok acc, logging log w)
      /\ Forall (fun e => exists n a, e = Invoked n a) log.
Proof.
  induction calls as [|call rest IH]; intros w acc Hsilent.
  - exists []. split; [|constructor]. cbn [runHandlers]. unfold logging.
    rewrite app_nil_r. destruct w; reflexivity.
  - assert (Hrest : forall c n h, In c rest -> toolName_of c = Some n ->
                                  toolRegistry (ctl w) !! n = Some h ->
                                  h (handlerCall c n) = Resolves None).
    { intros c n h Hin. apply Hsilent. right. exact Hin. }
    cbn [runHandlers]. destruct (toolName_of call) as [n|] eqn:Hname; [|apply IH, Hrest].
    destruct (Js.truthy (Some n)) eqn:Htruthy; cbn [negb]; [|apply IH, Hrest].
    mrun. destruct (toolRegistry (ctl w) !! n) as [h|] eqn:Hreg; [|apply IH, Hrest].
    fold (handlerCall call n). rewrite (Hsilent call n h (or_introl eq_refl) Hname Hreg).
    destruct (IH (logging [Invoked n (handlerCall call n)] w) acc Hrest) as (log & Hrun & Hlog).
    exists (Invoked n (handlerCall call n) :: log). split.
    + unfold logging in Hrun |- *. cbn [ctl effects ticks] in Hrun |- *.
      rewrite Hrun, <- List.app_assoc. reflexivity.
    + constructor; [eexists _, _; reflexivity|exact Hlog].
Qed.

(** X26. When every handler that a batch of tool calls reaches resolves with
    no result, the tool task submits nothing: it calls the handlers and
    ends, with the state as before and no request made, so the stream
    that asked for the tools is not resumed. *)
Theorem silent_handlers_submit_nothing (env : Env) (calls : list ToolCall) (w : World) :
  (forall c n h, In c calls -> toolName_of c = Some n ->
                 toolRegistry (ctl w) !! n = Some h ->
                 h (handlerCall c n) = Resolves None) ->
  exists log,
    toolTask env calls w = (Ok tt, logging log w)
    /\ Forall (fun e => exists n a, e = Invoked n a) log.
Proof.
  intros Hsilent. destruct (runHandlers_silent calls w [] Hsilent) as (log & Hrun & Hlog).
  exists log. split; [|exact Hlog].
  unfold toolTask, handleRegisteredTools.
  erewrite try_catch_from; [|apply (mbind_ok _ _ _ _ _ Hrun)].
  reflexivity.
Qed.

Lemma silent_handlers_submit_nothing_witness :
  let calls := [tool_call "call-1" "lookup"; tool_call "call-2" "paint"] in
  exists log,
    toolTask quietEnv calls silentWorld = (Ok tt, logging log silentWorld)
    /\ Forall (fun e => exists n a, e = Invoked n a) log.
Proof.
  cbv zeta.
  apply (silent_handlers_submit_nothing quietEnv
           [tool_call "call-1" "lookup"; tool_call "call-2" "paint"] silentWorld).
  intros c n h [<-|[<-|[]]] Hname Hreg.
  - injection Hname as <-. vm_compute in Hreg. injection Hreg as <-. reflexivity.
  - injection Hname as <-. vm_compute in Hreg. discriminate Hreg.
Defined.

Local Open Scope string_scope.


(** ** Loading and starting a conversation *)

Lemma override_last_assistant_none (c : string) (xs : list Message) :
  existsb isAssistant xs = false -> override_last_assistant c xs = xs.
Proof.
  induction xs as [|m rest IH]; [reflexivity|]. cbn [existsb override_last_assistant].
  intros H. apply orb_false_elim in H. destruct H as [Hm Hrest].
  rewrite Hrest, Hm. reflexivity.
Qed.

(** X27. The override of [loadConversation] replaces the content of the
    last [Assistant] message of the loaded history and nothing else: the
    messages before it and after it, and the other fields of the message,
    are as loaded. A history without [Assistant] message is left as it
    is. *)
Theorem override_last_assistant_spec (c : string) (pre post : list Message) (m : Message) :
  isAssistant m = true ->
  existsb isAssistant post = false ->
  override_last_assistant c (pre ++ m :: post) = (pre ++ set_content c m :: post)%list
  /\ override_last_assistant c post = post.
Proof.
  intros Hm Hpost. split; [|apply override_last_assistant_none, Hpost].
  induction pre as [|x pre IH].
  - cbn [app override_last_assistant]. rewrite Hpost, Hm. reflexivity.
  - cbn [app override_last_assistant]. rewrite existsb_app. cbn [existsb].
    rewrite Hm, orb_true_r. rewrite IH. reflexivity.
Qed.

Lemma override_last_assistant_spec_witness :
  let history := [message_of "m1" User "Hello"; message_of "m2" Assistant "Hi";
                  message_of "m3" Assistant "How are you?"] in
  override_last_assistant "Hi!" (history ++ [message_of "m4" User "Bye"])
  = [message_of "m1" User "Hello"; message_of "m2" Assistant "Hi";
     set_content "Hi!" (message_of "m3" Assistant "How are you?");
     message_of "m4" User "Bye"]
  /\ override_last_assistant "Hi!" [message_of "m4" User "Bye"]
     = [message_of "m4" User "Bye"].
Proof.
  cbv zeta.
  exact (override_last_assistant_spec "Hi!"
           [message_of "m1" User "Hello"; message_of "m2" Assistant "Hi"]
           [message_of "m4" User "Bye"] (message_of "m3" Assistant "How are you?")
           eq_refl eq_refl).
Defined.

Lemma wp_service_startConversation (env : Env) (Q : Res string -> World -> Prop) (w : World) :
  resolved (ctl w) ->
  Q (createConversation env (ticks w))
    {| ctl := ctl w; effects := (effects w ++ [Requested StartConversation])%list;
       ticks := Datatypes.S (ticks w) |} ->
  wp (service_startConversation env) Q w.
Proof.
  intros Hres H. unfold service_startConversation. wp_steps.
  apply wp_service_ensureResolvedIds; [exact Hres|]. wp_steps.
  destruct (createConversation env (ticks w)); exact H.
Qed.




Local Open Scope string_scope.

(** ** The [message] event and its override *)



(** X30. The override cached by a [message] event reaches the thread only
    if the history is loaded before the stream completes: [loadConversation]
    puts it on the last [Assistant] message of the history, but after a
    [complete] event the cache is empty and the history is shown as the
    service returned it. *)
Theorem complete_drops_override (env : Env) (w : World) (c : string)
  (loaded : list Message) :
  Js.truthy (conversationId (ctl w)) = true ->
  resolved (ctl w) ->
  getConversation env (ticks w) = Ok loaded ->
  sanitizedMessageContent (ctl w) = Some c ->
  c <> EmptyString ->
  messages (ctl (snd (loadConversation env w))) = override_last_assistant c loaded
  /\ sanitizedMessageContent (ctl (snd (loadConversation env w))) = None
  /\ messages (ctl (snd ((handleSseEvent env complete;; loadConversation env) w))) = loaded.
Proof.
  intros Hconv Hres Hloaded Hsan Hc.
  assert (Htruthy : Js.truthy (Some c) = true).
  { unfold Js.truthy. apply String.eqb_neq in Hc. rewrite Hc. reflexivity. }
  split; [|split].
  - change (wp (loadConversation env)
              (fun _ w1 => messages (ctl w1) = override_last_assistant c loaded) w).
    apply wp_loadConversation; [exact Hconv|exact Hres|]. rewrite Hloaded, Hsan, Htruthy.
    intros extra _. reflexivity.
  - change (wp (loadConversation env)
              (fun _ w1 => sanitizedMessageContent (ctl w1) = None) w).
    apply wp_loadConversation; [exact Hconv|exact Hres|]. rewrite Hloaded, Hsan, Htruthy.
    intros extra _. reflexivity.
  - change (wp (handleSseEvent env complete;; loadConversation env)
              (fun _ w1 => messages (ctl w1) = loaded) w).
    wp_steps. apply wp_handleSseEvent_complete. intros extra _. cbv beta iota.
    apply wp_loadConversation; [exact Hconv|exact Hres|]. cbn [ctl effects ticks].
    rewrite Hloaded. state_simpl. intros extra' _. reflexivity.
Qed.

Lemma complete_drops_override_witness :
  messages (ctl (snd (loadConversation (failingEnv firstTurn) overriddenWorld)))
  = override_last_assistant "Hi!" firstTurn
  /\ sanitizedMessageContent (ctl (snd (loadConversation (failingEnv firstTurn)
                                          overriddenWorld))) = None
  /\ messages (ctl (snd ((handleSseEvent (failingEnv firstTurn) complete;;
                          loadConversation (failingEnv firstTurn)) overriddenWorld)))
     = firstTurn.
Proof.
  apply (complete_drops_override (failingEnv firstTurn) overriddenWorld "Hi!" firstTurn).
  - reflexivity.
  - repeat split.
  - reflexivity.
  - reflexivity.
  - discriminate.
Defined.
